(** * Codebase index generators: a shallow embedding

    Two generators are embedded here:
    - the budget-aware one, [CompactCodeIndexGenerator]
      (ClaudeCode/code_index_generator.js), in [Module Compact];
    - the comprehensive one, [NextJSIndexGenerator]
      (the Cursor generator), in [Module NextJS].

    A string is a sequence of code units below 256: ASCII and the Latin-1
    supplement, one [ascii] per code unit.  A string that holds a code unit
    from 256 on has no counterpart here.  The Babel parser and [JSON.parse]
    are external to the repository and enter as Section variables. *)

From Stdlib Require Import QArith Ascii.
From stdpp Require Import gmap strings list fin_maps pretty.

Local Open Scope string_scope.
Set Warnings "-register-all,-abstract-large-number".

(** ** JavaScript string primitives *)

Module JsString.

(** [s.startsWith(p)] *)
Fixpoint startsWith (s p : string) : bool :=
  match p, s with
  | EmptyString, _ => true
  | String _ _, EmptyString => false
  | String b p', String a s' => if decide (a = b) then startsWith s' p' else false
  end.

(** [s.includes(p)] *)
Fixpoint includes (s p : string) : bool :=
  startsWith s p ||
  match s with
  | EmptyString => false
  | String _ s' => includes s' p
  end.

(** [s.endsWith(p)] *)
Definition endsWith (s p : string) : bool :=
  startsWith (String.rev s) (String.rev p).

(** [s.slice(n)] for [0 <= n] *)
Fixpoint drop (n : nat) (s : string) : string :=
  match n, s with
  | O, _ => s
  | S _, EmptyString => EmptyString
  | S n', String _ s' => drop n' s'
  end.

(** [s.slice(0, n)] for [0 <= n] *)
Fixpoint take (n : nat) (s : string) : string :=
  match n, s with
  | O, _ => EmptyString
  | S _, EmptyString => EmptyString
  | S n', String a s' => String a (take n' s')
  end.

(** [s.replace(p, r)] with a string pattern: the first occurrence only. *)
Fixpoint replace (s p r : string) : string :=
  if startsWith s p then r +:+ drop (String.length p) s
  else match s with
       | EmptyString => EmptyString
       | String a s' => String a (replace s' p r)
       end.

(** The code units of a one-character string. *)
Definition code_units (c : ascii) : list nat := [nat_of_ascii c].

(** [c.toUpperCase()] on a one-character string, as the code units of the
    answer.  Of the code units below 256, the letters a-z (97-122) and the
    Latin-1 letters 224-246 and 248-254 move down by 32; the micro sign
    (181) becomes U+039C, the sharp s (223) becomes the two letters SS and
    the y with diaeresis (255) becomes U+0178; every other one, the
    division sign (247) among them, is its own upper case. *)
Definition upper_char (c : ascii) : list nat :=
  let n := nat_of_ascii c in
  if ((97 <=? n)%nat && (n <=? 122)%nat) || ((224 <=? n)%nat && (n <=? 246)%nat)
     || ((248 <=? n)%nat && (n <=? 254)%nat) then [(n - 32)%nat]
  else if (n =? 181)%nat then [924%nat]
  else if (n =? 223)%nat then [83%nat; 83%nat]
  else if (n =? 255)%nat then [376%nat]
  else [n].

(** [s[i]]: [None] is [undefined]. *)
Fixpoint char_at (s : string) (i : nat) : option ascii :=
  match s, i with
  | EmptyString, _ => None
  | String a _, O => Some a
  | String _ s', S i' => char_at s' i'
  end.

(** [xs.join(sep)] *)
Fixpoint join (sep : string) (xs : list string) : string :=
  match xs with
  | [] => ""
  | [x] => x
  | x :: rest => x +:+ sep +:+ join sep rest
  end.

(** Position of the last occurrence of the character [c], when there is one. *)
Fixpoint last_index (c : ascii) (s : string) : option nat :=
  match s with
  | EmptyString => None
  | String a s' =>
      match last_index c s' with
      | Some i => Some (S i)
      | None => if decide (a = c) then Some O else None
      end
  end.

(** [s.replace(/\.(js|jsx|ts|tsx)$/, '')] *)
Definition strip_source_ext (s : string) : string :=
  let cut n := take (String.length s - n) s in
  if endsWith s ".js" then cut 3%nat
  else if endsWith s ".jsx" then cut 4%nat
  else if endsWith s ".ts" then cut 3%nat
  else if endsWith s ".tsx" then cut 4%nat
  else s.

(** [/\.(js|jsx|ts|tsx)$/.test(s)] *)
Definition has_source_ext (s : string) : bool :=
  endsWith s ".js" || endsWith s ".jsx" || endsWith s ".ts" || endsWith s ".tsx".

(** [s.replace(/\[([^\]]+)\]/g, ':$1')].  The scan keeps, while inside an
    open bracket, the characters read since that bracket ([pending], in
    reverse).  A closing bracket after at least one character completes a
    match; the run [^\]]+ may itself hold opening brackets.  An empty pair
    and a bracket never closed are copied as they are. *)
Fixpoint dynamic_go (pending : option string) (s : string) : string :=
  match s, pending with
  | EmptyString, None => ""
  | EmptyString, Some run => String "[" (String.rev run)
  | String a s', None =>
      if decide (a = "["%char) then dynamic_go (Some "") s'
      else String a (dynamic_go None s')
  | String a s', Some run =>
      if decide (a = "]"%char) then
        match run with
        | EmptyString => String "[" (String "]" (dynamic_go None s'))
        | _ => String ":" (String.rev run +:+ dynamic_go None s')
        end
      else dynamic_go (Some (String a run)) s'
  end.
Definition replace_dynamic (s : string) : string := dynamic_go None s.

End JsString.

(** ** Node's [path] module, on normalised POSIX paths *)

Module Path.
Import JsString.

(** A directory path with its closing slash. *)
Definition dir_base (dir : string) : string :=
  if endsWith dir "/" then dir else dir +:+ "/".

(** [path.join(dir, name)] where [name] holds no dot segment. *)
Definition join (dir name : string) : string := dir_base dir +:+ name.

(** Last portion of a path. *)
Definition last_portion (p : string) : string :=
  match last_index "/" p with
  | Some i => drop (S i) p
  | None => p
  end.

(** [path.extname(p)]: from the last dot of the last portion, empty when
    that portion has no dot or only a leading one. *)
Definition extname (p : string) : string :=
  let b := last_portion p in
  match last_index "." b with
  | None => ""
  | Some O => ""
  | Some i => if decide (b = "..") then "" else drop i b
  end.

(** [path.basename(p)] *)
Definition basename (p : string) : string := last_portion p.

(** [path.basename(p, path.extname(p))] *)
Definition basename_noext (p : string) : string :=
  let b := last_portion p in
  take (String.length b - String.length (extname p)) b.

(** [path.relative(from, to)] for [to] inside [from]: every path the
    generators hand to it was enumerated under [from]. *)
Definition relative (from to : string) : string :=
  let base := dir_base from in
  if startsWith to base then drop (String.length base) to else to.

End Path.

(** ** Exceptions *)

Inductive Error : Type :=
| TypeError (msg : string)
| SyntaxError
| IOError.

Inductive Result (A : Type) : Type :=
| Ok (a : A)
| Throw (e : Error).
Arguments Ok {A} a.
Arguments Throw {A} e.

Global Instance result_ret : MRet Result := fun A a => Ok a.
Global Instance result_bind : MBind Result := fun A B k r =>
  match r with
  | Ok a => k a
  | Throw e => Throw e
  end.

(** ** Syntax trees

    The node types the visitors of the two generators read, with the
    fields they read; every other node is an [OtherNode] over its children.
    [id] of a declaration is the name of its identifier, [None] when the
    declaration is anonymous. *)

Record ImportSpec : Type := {
  spec_type : string;
  spec_local : string;
  spec_imported : option string
}.

(** [exported_name] is [spec.exported.name]: [None] ([undefined]) when the
    exported name is a string literal. *)
Record ExportSpec : Type := { exported_name : option string }.

Inductive Node : Type :=
| Program (body : list Node)
| ImportDeclaration (specifiers : list ImportSpec) (source : string)
| ExportDefaultDeclaration (declaration : Node)
| ExportNamedDeclaration (declaration : option Node) (specifiers : list ExportSpec)
| FunctionDeclaration (id : option string) (params : list Node) (async : bool) (body : list Node)
| ClassDeclaration (id : option string) (body : list Node)
| VariableDeclaration (declarations : list Node)
| VariableDeclarator (id : Node) (init : option Node)
| ArrowFunctionExpression (params : list Node) (async : bool) (body : list Node)
| CallExpression (callee : Node) (arguments : list Node)
| Identifier (name : string)
| ObjectPattern (properties : list Node)
| ObjectProperty (key : Node) (value : Node)
| ArrayPattern (elements : list (option Node))
| RestElement (argument : Node)
| OtherNode (children : list Node).

(** [node.name]: only identifiers carry one. *)
Definition node_name (n : Node) : option string :=
  match n with
  | Identifier s => Some s
  | _ => None
  end.

(** [node.id?.name] *)
Definition node_id_name (n : Node) : option string :=
  match n with
  | FunctionDeclaration i _ _ _ => i
  | ClassDeclaration i _ => i
  | VariableDeclarator i _ => node_name i
  | _ => None
  end.

(** Truthiness of a string-or-undefined value. *)
Definition truthy (s : option string) : bool :=
  match s with
  | Some (String _ _) => true
  | _ => false
  end.

(** [a || b] on such values. *)
Definition js_or (a b : option string) : option string :=
  if truthy a then a else b.

(** Text of a value inside a template literal or a [join]. *)
Definition js_text (s : option string) : string :=
  match s with
  | Some x => x
  | None => "undefined"
  end.

(** [name[i] === name[i].toUpperCase()]; reading [toUpperCase] off
    [undefined] is a TypeError. *)
Definition is_upper_at (name : string) (i : nat) : Result bool :=
  match JsString.char_at name i with
  | Some c => Ok (bool_decide (JsString.code_units c = JsString.upper_char c))
  | None => Throw (TypeError "Cannot read properties of undefined (reading 'toUpperCase')")
  end.

Definition is_export (n : Node) : bool :=
  match n with
  | ExportDefaultDeclaration _ | ExportNamedDeclaration _ _ => true
  | _ => false
  end.

(** One step of [traverse]: the node entered, its parent node, and whether
    one of its proper ancestors is an export declaration. *)
Record Visit : Type := {
  v_node : Node;
  v_parent : option Node;
  v_under_export : bool
}.

(** [isExported(path)]: walks from the path itself up through
    [parentPath] until an export declaration or the root. *)
Definition isExported (v : Visit) : bool :=
  is_export (v_node v) || v_under_export v.

(** The nodes in the order [traverse] enters them (depth first, children
    in the order of the node's fields). *)
Fixpoint preorder (parent : option Node) (under : bool) (n : Node) : list Visit :=
  let kids := preorder (Some n) (is_export n || under) in
  let opt (o : option Node) :=
    match o with
    | Some d => kids d
    | None => []
    end in
  {| v_node := n; v_parent := parent; v_under_export := under |} ::
  match n with
  | Program body => flat_map kids body
  | ImportDeclaration _ _ => []
  | ExportDefaultDeclaration d => kids d
  | ExportNamedDeclaration d _ => opt d
  | FunctionDeclaration _ ps _ body => flat_map kids ps ++ flat_map kids body
  | ClassDeclaration _ body => flat_map kids body
  | VariableDeclaration ds => flat_map kids ds
  | VariableDeclarator i init => kids i ++ opt init
  | ArrowFunctionExpression ps _ body => flat_map kids ps ++ flat_map kids body
  | CallExpression c args => kids c ++ flat_map kids args
  | Identifier _ => []
  | ObjectPattern props => flat_map kids props
  | ObjectProperty k v => kids k ++ kids v
  | ArrayPattern els => flat_map opt els
  | RestElement a => kids a
  | OtherNode cs => flat_map kids cs
  end.

Definition traversal (ast : Node) : list Visit := preorder None false ast.

(** The parser's options: the plugin list and [errorRecovery]. *)
Record ParseOptions : Type := {
  plugins : list string;
  errorRecovery : bool
}.

(** [parser.parse(code, options)]: [None] when it throws. *)
Definition Parser : Type := string -> ParseOptions -> option Node.

Definition pluginsFor (filePath : string) : list string :=
  if JsString.endsWith filePath ".ts" || JsString.endsWith filePath ".tsx"
  then ["jsx"; "typescript"] else ["jsx"].

(** ** The file system

    A directory holds regular files and directories, and [fs.statSync]
    answers for each of them.  [content = None] is a file that cannot be
    read, [items = None] a directory that cannot be listed.  [mtime] is the
    modification time in milliseconds.

    Symbolic links, special files (FIFOs, sockets, devices) and items that
    [fs.statSync] fails on have no counterpart here.  On those the two
    walkers part: the budget-aware one goes by the [Dirent] of an item and
    lists whatever is no directory under its name, the comprehensive one
    goes by [fs.statSync], lists regular files only and skips an item it
    cannot stat. *)

Inductive Entry : Type :=
| File (name : string) (mtime : Z) (content : option string)
| Dir (name : string) (items : option (list Entry)).

Definition entry_name (e : Entry) : string :=
  match e with
  | File n _ _ => n
  | Dir n _ => n
  end.

(** [fs.readdirSync] on an entry: a regular file is no directory. *)
Definition entry_items (e : Entry) : option (list Entry) :=
  match e with
  | File _ _ _ => None
  | Dir _ its => its
  end.

(** A file as the walkers hand it on: its full path, and what
    [fs.statSync] and [fs.readFileSync] answer for that path. *)
Record FileEntry : Type := {
  f_path : string;
  f_mtime : Z;
  f_content : option string
}.

Fixpoint find_entry (name : string) (items : list Entry) : option Entry :=
  match items with
  | [] => None
  | e :: rest => if decide (entry_name e = name) then Some e else find_entry name rest
  end.

(** The entry a path of segments leads to, from the items of a directory. *)
Fixpoint resolve (segs : list string) (items : list Entry) : option Entry :=
  match segs with
  | [] => None
  | [s] => find_entry s items
  | s :: rest =>
      match find_entry s items with
      | Some (Dir _ (Some its)) => resolve rest its
      | _ => None
      end
  end.

(** Segments of a relative path such as [src/app]. *)
Fixpoint segments_go (cur : string) (s : string) : list string :=
  match s with
  | EmptyString => [String.rev cur]
  | String a s' =>
      if decide (a = "/"%char) then String.rev cur :: segments_go "" s'
      else segments_go (String a cur) s'
  end.
Definition segments (s : string) : list string := segments_go "" s.

(** The project directory: its resolved path and its items. *)
Record Project : Type := {
  projectPath : string;
  root : option (list Entry)
}.

(** [fs.existsSync(path.join(projectPath, rel))], with the entry found. *)
Definition lookup_rel (p : Project) (rel : string) : option Entry :=
  match root p with
  | Some its => resolve (segments rel) its
  | None => None
  end.

Definition existsSync (p : Project) (rel : string) : bool :=
  bool_decide (is_Some (lookup_rel p rel)).

(** The manifest: dependency names with their version strings, per section. *)
Record PackageJson : Type := {
  dependencies : gmap string string;
  devDependencies : gmap string string;
  peerDependencies : gmap string string
}.

(** [new Set(xs)] spread back into an array: first occurrences, in order. *)
Fixpoint uniq (seen : list string) (xs : list string) : list string :=
  match xs with
  | [] => []
  | x :: rest =>
      if decide (x ∈ seen) then uniq seen rest else x :: uniq (x :: seen) rest
  end.

(** ** [JSON.stringify] on strings and arrays of strings *)

Module Json.

Definition hex (n : nat) : ascii :=
  if (n <? 10)%nat then ascii_of_nat (48 + n) else ascii_of_nat (87 + n).

Definition escape_char (c : ascii) : string :=
  let n := nat_of_ascii c in
  if decide (n = 34%nat) then String "\" (String c "")
  else if decide (n = 92%nat) then "\\"
  else if decide (n = 8%nat) then "\b"
  else if decide (n = 9%nat) then "\t"
  else if decide (n = 10%nat) then "\n"
  else if decide (n = 12%nat) then "\f"
  else if decide (n = 13%nat) then "\r"
  else if (n <? 32)%nat then "\u00" +:+ String (hex (n / 16)) (String (hex (n mod 16)) "")
  else String c "".

Fixpoint escape (s : string) : string :=
  match s with
  | EmptyString => ""
  | String a s' => escape_char a +:+ escape s'
  end.

Definition quote (s : string) : string :=
  String "034" (escape s +:+ String "034" "").

(** An array element that is [undefined] prints as [null]. *)
Definition value (s : option string) : string :=
  match s with
  | Some x => quote x
  | None => "null"
  end.

Definition array (xs : list string) : string :=
  "[" +:+ JsString.join "," xs +:+ "]".

Definition key (k : string) : string := quote k +:+ ":".

End Json.

(** ** The budget-aware generator (CompactCodeIndexGenerator) *)

Module Compact.
Import JsString.

(** Per-file record of [index.modules]. *)
Record Analysis : Type := {
  a_type : string;
  a_exports : list (option string);
  a_imports : list string;
  a_features : list string
}.

(** Entry of [index.exports], keyed by [relativePath:name]. *)
Record ExportInfo : Type := {
  ex_name : string;
  ex_type : string;
  ex_params : nat
}.

(** Entry of [index.structure]. *)
Record DirInfo : Type := {
  d_files : nat;
  d_types : gmap string nat;
  d_purpose : string
}.

Record Patterns : Type := {
  p_router : string;
  p_typescript : bool;
  p_tailwind : bool;
  p_testing : bool;
  p_stateManagement : string;
  p_styling : string;
  p_dataFetching : string
}.

(** [this.index]; [patterns] is [None] while it is still the empty object. *)
Record Index : Type := {
  meta_generated : Z;
  meta_framework : string;
  structure : gmap string DirInfo;
  modules : gmap string Analysis;
  exports : gmap string ExportInfo;
  patterns : option Patterns
}.

(** The generator object. *)
Record Generator : Type := {
  packageJson : PackageJson;
  index : Index;
  maxTokens : Q;
  currentTokens : Q
}.

Definition with_index (g : Generator) (i : Index) : Generator :=
  {| packageJson := packageJson g; index := i;
     maxTokens := maxTokens g; currentTokens := currentTokens g |}.

Definition with_exports (i : Index) (ex : gmap string ExportInfo) : Index :=
  {| meta_generated := meta_generated i; meta_framework := meta_framework i;
     structure := structure i; modules := modules i;
     exports := ex; patterns := patterns i |}.

Definition with_modules (i : Index) (m : gmap string Analysis) : Index :=
  {| meta_generated := meta_generated i; meta_framework := meta_framework i;
     structure := structure i; modules := m;
     exports := exports i; patterns := patterns i |}.

Definition with_structure (i : Index) (s : gmap string DirInfo) : Index :=
  {| meta_generated := meta_generated i; meta_framework := meta_framework i;
     structure := s; modules := modules i;
     exports := exports i; patterns := patterns i |}.

Definition with_patterns (i : Index) (p : Patterns) : Index :=
  {| meta_generated := meta_generated i; meta_framework := meta_framework i;
     structure := structure i; modules := modules i;
     exports := exports i; patterns := Some p |}.

Definition add_tokens (g : Generator) (size : Q) : Generator :=
  {| packageJson := packageJson g; index := index g;
     maxTokens := maxTokens g; currentTokens := (currentTokens g + size)%Q |}.

(** [{ ...dependencies, ...devDependencies }]: the later spread wins. *)
Definition detectFramework (pj : PackageJson) : string :=
  let deps := devDependencies pj ∪ dependencies pj in
  if truthy (deps !! "next") then "Next.js " +:+ js_text (deps !! "next")
  else if truthy (deps !! "react") then "React " +:+ js_text (deps !! "react")
  else "JavaScript".

(** The constructor; [now] is the clock reading of [new Date()]. *)
Definition new (pj : PackageJson) (now : Z) : Generator :=
  {| packageJson := pj;
     index := {| meta_generated := now; meta_framework := detectFramework pj;
                 structure := ∅; modules := ∅; exports := ∅; patterns := None |};
     maxTokens := 35000;
     currentTokens := 0 |}.

Definition stringify (a : Analysis) : string :=
  "{" +:+ Json.key "type" +:+ Json.quote (a_type a) +:+ ","
      +:+ Json.key "exports" +:+ Json.array (Json.value <$> a_exports a) +:+ ","
      +:+ Json.key "imports" +:+ Json.array (Json.quote <$> a_imports a) +:+ ","
      +:+ Json.key "features" +:+ Json.array (Json.quote <$> a_features a) +:+ "}".

(** [estimateTokens]: [JSON.stringify(obj).length / 3]. *)
Definition estimateTokens (a : Analysis) : Q :=
  (inject_Z (Z.of_nat (String.length (stringify a))) / 3)%Q.

Definition isRelevantFile (filename : string) : bool := has_source_ext filename.

(** What one item of the directory [dir] adds to [getRelevantFiles(dir)];
    the two cases are [item.isDirectory()] of the [Dirent] and its
    [else]. *)
Fixpoint walk (dir : string) (e : Entry) : list FileEntry :=
  match e with
  | File name mt c =>
      if startsWith name "." || bool_decide (name = "node_modules") then []
      else if isRelevantFile name
           then [{| f_path := Path.join dir name; f_mtime := mt; f_content := c |}]
           else []
  | Dir name items =>
      if startsWith name "." || bool_decide (name = "node_modules") then []
      else match items with
           | Some its => flat_map (walk (Path.join dir name)) its
           | None => []
           end
  end.

(** [getRelevantFiles(dir)]; a directory that cannot be listed gives none. *)
Definition getRelevantFiles (dir : string) (items : option (list Entry)) : list FileEntry :=
  match items with
  | Some its => flat_map (walk dir) its
  | None => []
  end.

(** [purposes[dirName] || 'Source files'], for a name that is no inherited
    property of the table (the names it is called with are the last
    segments of [criticalDirs]). *)
Definition inferPurpose (dirName : string) : string :=
  if decide (dirName = "app") then "App Router pages and layouts"
  else if decide (dirName = "pages") then "Pages Router routes"
  else if decide (dirName = "components") then "Reusable UI components"
  else if decide (dirName = "lib") then "Utility libraries"
  else if decide (dirName = "utils") then "Helper functions"
  else if decide (dirName = "hooks") then "Custom React hooks"
  else if decide (dirName = "api") then "API route handlers"
  else "Source files".

(** [types[ext] = (types[ext] || 0) + 1] over the files. *)
Definition count_ext (types : gmap string nat) (f : FileEntry) : gmap string nat :=
  let ext := Path.extname (f_path f) in
  <[ext := (default 0 (types !! ext) + 1)%nat]> types.

Definition analyzeDirCompact (dirPath : string) (items : option (list Entry)) : DirInfo :=
  let files := getRelevantFiles dirPath items in
  {| d_files := length files;
     d_types := foldl count_ext ∅ files;
     d_purpose := inferPurpose (Path.basename dirPath) |}.

Definition criticalDirs : list string :=
  ["app"; "src/app"; "pages"; "src/pages";
   "components"; "src/components";
   "lib"; "src/lib"; "utils"; "src/utils";
   "hooks"; "src/hooks"].

Definition analyzeProject_step (p : Project) (s : gmap string DirInfo) (dir : string)
  : gmap string DirInfo :=
  match lookup_rel p dir with
  | Some e =>
      let info := analyzeDirCompact (Path.join (projectPath p) dir) (entry_items e) in
      if (0 <? d_files info)%nat then <[dir := info]> s else s
  | None => s
  end.

Definition analyzeProject (p : Project) (g : Generator) : Generator :=
  with_index g (with_structure (index g)
    (foldl (analyzeProject_step p) (structure (index g)) criticalDirs)).

Definition classifyFile (filePath : string) : string :=
  if includes filePath "/api/" then "api"
  else if includes filePath "/pages/" then "page"
  else if includes filePath "/app/" && includes filePath "/page." then "page"
  else if includes filePath "/app/" && includes filePath "/layout." then "layout"
  else if includes filePath "/components/" then "component"
  else if includes filePath "/hooks/" then "hook"
  else if includes filePath "/lib/" || includes filePath "/utils/" then "util"
  else "source".

Definition httpVerbs : list string := ["GET"; "POST"; "PUT"; "DELETE"; "PATCH"].

Definition classifyFunction (name : string) : Result string :=
  if negb (truthy (Some name)) then Ok "function"
  else
    up0 ← is_upper_at name 0;
    if (up0 : bool) then Ok "component"
    else
      hook ← (if startsWith name "use" then is_upper_at name 3 else Ok false);
      if (hook : bool) then Ok "hook"
      else if bool_decide (name ∈ httpVerbs) then Ok "handler"
      else Ok "function".

Definition getExportName (declaration : Node) : option string :=
  js_or (js_or (node_name declaration) (node_id_name declaration)) (Some "default").

Definition push_import (a : Analysis) (s : string) : Analysis :=
  {| a_type := a_type a; a_exports := a_exports a;
     a_imports := a_imports a ++ [s]; a_features := a_features a |}.

Definition push_exports (a : Analysis) (xs : list (option string)) : Analysis :=
  {| a_type := a_type a; a_exports := a_exports a ++ xs;
     a_imports := a_imports a; a_features := a_features a |}.

Definition push_features (a : Analysis) (xs : list string) : Analysis :=
  {| a_type := a_type a; a_exports := a_exports a;
     a_imports := a_imports a; a_features := a_features a ++ xs |}.

(** The visitor object of [analyzeFileCompact], applied at one node.  The
    state is the local [analysis] and the shared [this.index.exports]. *)
Definition visit (relativePath : string) (v : Visit)
    (a : Analysis) (ex : gmap string ExportInfo)
  : Result (Analysis * gmap string ExportInfo) :=
  match v_node v with
  | ImportDeclaration _ source =>
      if negb (startsWith source ".") && negb (startsWith source "/")
      then Ok (push_import a source, ex)
      else Ok (a, ex)
  | ExportDefaultDeclaration d =>
      let name := getExportName d in
      if truthy name then Ok (push_exports a [name], ex) else Ok (a, ex)
  | ExportNamedDeclaration _ specs =>
      Ok (push_exports a (exported_name <$> specs), ex)
  | FunctionDeclaration i ps _ _ =>
      if truthy i && isExported v then
        let name := js_text i in
        t ← classifyFunction name;
        Ok (a, <[relativePath +:+ ":" +:+ name :=
                   {| ex_name := name; ex_type := t; ex_params := length ps |}]> ex)
      else Ok (a, ex)
  | CallExpression callee _ =>
      let named n := bool_decide (node_name callee = Some n) in
      Ok (push_features a
            ((if named "getServerSideProps" then ["SSR"] else []) ++
             (if named "getStaticProps" then ["SSG"] else []) ++
             (if named "getStaticPaths" then ["ISR"] else [])), ex)
  | _ => Ok (a, ex)
  end.

(** [traverse(ast, visitors)]: an exception leaves the entries already
    written to [this.index.exports] in place. *)
Fixpoint run_visitors (relativePath : string) (vs : list Visit)
    (a : Analysis) (ex : gmap string ExportInfo)
  : Result Analysis * gmap string ExportInfo :=
  match vs with
  | [] => (Ok a, ex)
  | v :: rest =>
      match visit relativePath v a ex with
      | Ok (a', ex') => run_visitors relativePath rest a' ex'
      | Throw e => (Throw e, ex)
      end
  end.

Definition maxFileChars : Z := 10000.
Definition importCap : nat := 10.
Definition exportCap : nat := 10.

(** Keep only unique imports and limit the counts. *)
Definition finish (a : Analysis) : Analysis :=
  {| a_type := a_type a;
     a_exports := firstn exportCap (a_exports a);
     a_imports := firstn importCap (uniq [] (a_imports a));
     a_features := a_features a |}.

Section WithParser.
Variable parse : Parser.

(** [analyzeFileCompact(filePath)]: [Ok None] is the [null] return. *)
Definition analyzeFileCompact (p : Project) (f : FileEntry) (g : Generator)
  : Result (option Analysis) * Generator :=
  match f_content f with
  | None => (Throw IOError, g)
  | Some code =>
      if (maxFileChars <? Z.of_nat (String.length code))%Z then (Ok None, g)
      else
        let relativePath := Path.relative (projectPath p) (f_path f) in
        match parse code {| plugins := pluginsFor (f_path f); errorRecovery := true |} with
        | None => (Ok None, g)
        | Some ast =>
            let analysis := {| a_type := classifyFile relativePath;
                               a_exports := []; a_imports := []; a_features := [] |} in
            match run_visitors relativePath (traversal ast) analysis (exports (index g)) with
            | (Throw e, ex) => (Throw e, with_index g (with_exports (index g) ex))
            | (Ok a, ex) =>
                let a' := finish a in
                (Ok (Some a'),
                 add_tokens (with_index g (with_exports (index g) ex)) (estimateTokens a'))
            end
        end
  end.

(** The files [analyzeKeyFiles] loops over. *)
Definition sourceFiles (p : Project) : list FileEntry :=
  firstn 50 (filter (fun f => negb (includes (f_path f) "node_modules")
                            && negb (includes (f_path f) ".next")
                            && negb (includes (f_path f) "dist/"))
                  (getRelevantFiles (projectPath p) (root p))).

(** [this.currentTokens > this.maxTokens * 0.8] *)
Definition overBudget (g : Generator) : bool :=
  negb (Qle_bool (currentTokens g) (maxTokens g * (8 # 10))).

(** The loop of [analyzeKeyFiles]: stop at the first file met over the
    threshold; a file that throws is skipped. *)
Fixpoint analyzeLoop (p : Project) (files : list FileEntry) (g : Generator) : Generator :=
  match files with
  | [] => g
  | f :: rest =>
      if overBudget g then g
      else
        match analyzeFileCompact p f g with
        | (Ok (Some a), g') =>
            let relativePath := Path.relative (projectPath p) (f_path f) in
            analyzeLoop p rest
              (with_index g' (with_modules (index g') (<[relativePath := a]> (modules (index g')))))
        | (Ok None, g') => analyzeLoop p rest g'
        | (Throw _, g') => analyzeLoop p rest g'
        end
  end.

Definition analyzeKeyFiles (p : Project) (g : Generator) : Generator :=
  analyzeLoop p (sourceFiles p) g.

Definition hasPackage (g : Generator) (packageName : string) : bool :=
  truthy (js_or (dependencies (packageJson g) !! packageName)
                (devDependencies (packageJson g) !! packageName)).

Definition detectRouter (p : Project) : string :=
  if existsSync p "app" then "app"
  else if existsSync p "src/app" then "app"
  else if existsSync p "pages" then "pages"
  else if existsSync p "src/pages" then "pages"
  else "unknown".

Definition detectStateManagement (g : Generator) : string :=
  if hasPackage g "zustand" then "zustand"
  else if hasPackage g "@reduxjs/toolkit" then "redux-toolkit"
  else if hasPackage g "redux" then "redux"
  else if hasPackage g "jotai" then "jotai"
  else "context".

Definition detectStyling (g : Generator) : string :=
  if hasPackage g "tailwindcss" then "tailwind"
  else if hasPackage g "styled-components" then "styled-components"
  else if hasPackage g "@emotion/react" then "emotion"
  else if hasPackage g "@mui/material" then "mui"
  else "css".

Definition detectDataFetching (g : Generator) : string :=
  if hasPackage g "@tanstack/react-query" then "tanstack-query"
  else if hasPackage g "react-query" then "react-query"
  else if hasPackage g "swr" then "swr"
  else if hasPackage g "apollo-client" then "apollo"
  else "fetch".

Definition patternFacts (p : Project) (g : Generator) : Patterns :=
  {| p_router := detectRouter p;
     p_typescript := existsSync p "tsconfig.json";
     p_tailwind := hasPackage g "tailwindcss";
     p_testing := hasPackage g "jest" || hasPackage g "@testing-library/react";
     p_stateManagement := detectStateManagement g;
     p_styling := detectStyling g;
     p_dataFetching := detectDataFetching g |}.

Definition detectPatterns (p : Project) (g : Generator) : Generator :=
  with_index g (with_patterns (index g) (patternFacts p g)).

(** The files [saveIndex()] writes in the project directory: the document
    as JSON and its Markdown rendering. *)
Definition outputFiles : list string := ["code-index.json"; "code-index.md"].

(** [generate()]: the document that [saveIndex] writes to [outputFiles]
    and that [generate] returns. *)
Definition generate (p : Project) (g : Generator) : Index :=
  index (detectPatterns p (analyzeKeyFiles p (analyzeProject p g))).

(** A fresh generator run on a project. *)
Definition run (p : Project) (pj : PackageJson) (now : Z) : Index :=
  generate p (new pj now).

End WithParser.

End Compact.

(** ** Parsed JSON documents *)

Inductive JSON : Type :=
| JNull
| JBool (b : bool)
| JNumber (literal : string)
| JString (s : string)
| JArray (items : list JSON)
| JObject (fields : gmap string JSON).

(** [JSON.parse(text)]: [None] when it throws. *)
Definition JsonParser : Type := string -> option JSON.

(** ** The comprehensive generator (NextJSIndexGenerator) *)

Module NextJS.
Import JsString.

(** The clock: the reading taken by the constructor, and the reading
    [getLastModified] takes while it handles a given directory. *)
Record Clock : Type := {
  at_start : Z;
  at_dir : string -> Z
}.

Record ImportRec : Type := {
  i_source : string;
  i_specifiers : list ImportSpec
}.

Record ExportRec : Type := {
  e_name : option string;
  e_type : string
}.

(** Descriptor of a declared function. *)
Record Func : Type := {
  fn_name : option string;
  fn_params : list string;
  fn_async : bool;
  fn_isExported : bool
}.

(** The local [analysis] object of [analyzeFile]. *)
Record Analysis : Type := {
  imports : list ImportRec;
  exports : list ExportRec;
  functions : list Func;
  components : list Func;
  hooks : list Func;
  apiRoutes : list Func;
  nextjsFeatures : list string
}.

(** [table[name]] on an object literal finds the entries of the table
    and, for the names that [Object.prototype] defines, the inherited
    member: a function, or the prototype itself under [__proto__].  Such a
    member is truthy, so [table[name] || fallback] answers it and not the
    fallback. *)
Definition objectPrototypeMembers : list string :=
  ["constructor"; "__defineGetter__"; "__defineSetter__"; "hasOwnProperty";
   "__lookupGetter__"; "__lookupSetter__"; "isPrototypeOf";
   "propertyIsEnumerable"; "toString"; "valueOf"; "__proto__";
   "toLocaleString"].

(** What [table[name] || fallback] answers on a table of texts: a text, or
    the inherited member of that name, which is no string
    ([JSON.stringify] leaves a field that holds a function out). *)
Inductive Looked : Type :=
| Text (s : string)
| Inherited (member : string).

(** Entry of [index.level1]. *)
Record DirRecord : Type := {
  dr_purpose : Looked;
  dr_fileCount : nat;
  dr_extensions : gmap string nat;
  dr_lastModified : Z;
  dr_type : Looked
}.

(** Entry of [index.level2], the per-file record. *)
Record ModuleSummary : Type := {
  ms_purpose : string;
  ms_type : string;
  ms_imports : list string;
  ms_exports : list (option string);
  ms_complexity : nat;
  ms_nextjsFeatures : list string;
  ms_lastModified : Z
}.

(** Entry of [index.level3]. *)
Record Signature : Type := {
  sg_name : string;
  sg_signature : string;
  sg_type : string;
  sg_file : string;
  sg_exported : bool;
  sg_async : bool
}.

Record RouteRec : Type := {
  r_path : string;
  r_file : string;
  r_type : string
}.

Record Routes : Type := {
  routes_pages : option (list RouteRec);
  routes_app : option (list RouteRec)
}.

Record Index : Type := {
  meta_projectPath : string;
  meta_generatedAt : Z;
  meta_nextjsVersion : string;
  level1 : gmap string DirRecord;
  level2 : gmap string ModuleSummary;
  level3 : gmap string Signature;
  level4 : gmap string JSON;
  arch_patterns : gmap string bool;
  arch_routes : Routes
}.

Record Generator : Type := {
  packageJson : PackageJson;
  index : Index
}.

Definition with_level1 (i : Index) (m : gmap string DirRecord) : Index :=
  {| meta_projectPath := meta_projectPath i; meta_generatedAt := meta_generatedAt i;
     meta_nextjsVersion := meta_nextjsVersion i;
     level1 := m; level2 := level2 i; level3 := level3 i; level4 := level4 i;
     arch_patterns := arch_patterns i; arch_routes := arch_routes i |}.

Definition with_level23 (i : Index) (m2 : gmap string ModuleSummary)
    (m3 : gmap string Signature) : Index :=
  {| meta_projectPath := meta_projectPath i; meta_generatedAt := meta_generatedAt i;
     meta_nextjsVersion := meta_nextjsVersion i;
     level1 := level1 i; level2 := m2; level3 := m3; level4 := level4 i;
     arch_patterns := arch_patterns i; arch_routes := arch_routes i |}.

Definition with_level4 (i : Index) (m : gmap string JSON) : Index :=
  {| meta_projectPath := meta_projectPath i; meta_generatedAt := meta_generatedAt i;
     meta_nextjsVersion := meta_nextjsVersion i;
     level1 := level1 i; level2 := level2 i; level3 := level3 i; level4 := m;
     arch_patterns := arch_patterns i; arch_routes := arch_routes i |}.

Definition with_patterns (i : Index) (m : gmap string bool) : Index :=
  {| meta_projectPath := meta_projectPath i; meta_generatedAt := meta_generatedAt i;
     meta_nextjsVersion := meta_nextjsVersion i;
     level1 := level1 i; level2 := level2 i; level3 := level3 i; level4 := level4 i;
     arch_patterns := m; arch_routes := arch_routes i |}.

Definition with_routes (i : Index) (r : Routes) : Index :=
  {| meta_projectPath := meta_projectPath i; meta_generatedAt := meta_generatedAt i;
     meta_nextjsVersion := meta_nextjsVersion i;
     level1 := level1 i; level2 := level2 i; level3 := level3 i; level4 := level4 i;
     arch_patterns := arch_patterns i; arch_routes := r |}.

Definition with_index (g : Generator) (i : Index) : Generator :=
  {| packageJson := packageJson g; index := i |}.

Definition detectNextJSVersion (pj : PackageJson) : string :=
  js_text (js_or (js_or (dependencies pj !! "next") (devDependencies pj !! "next"))
                 (Some "unknown")).

(** The constructor. *)
Definition new (p : Project) (pj : PackageJson) (clock : Clock) : Generator :=
  {| packageJson := pj;
     index := {| meta_projectPath := projectPath p;
                 meta_generatedAt := at_start clock;
                 meta_nextjsVersion := detectNextJSVersion pj;
                 level1 := ∅; level2 := ∅; level3 := ∅; level4 := ∅;
                 arch_patterns := ∅;
                 arch_routes := {| routes_pages := None; routes_app := None |} |} |}.

Definition relevantExtensions : list string :=
  [".js"; ".jsx"; ".ts"; ".tsx"; ".json"; ".css"; ".scss"; ".module.css"].

Definition isRelevantFile (filename : string) : bool :=
  existsb (endsWith filename) relevantExtensions.

Definition visibleDir (name : string) : bool :=
  negb (startsWith name ".") && negb (bool_decide (name = "node_modules")).

(** What one item of the directory [dir] adds to [getFilesRecursively(dir)].
    The two cases are [stat.isDirectory()] and [stat.isFile()]: on a tree
    of regular files and directories one of them holds, and the [catch]
    around [fs.statSync] is not entered.  A directory that is hidden or
    [node_modules] fails both tests of the source and adds nothing. *)
Fixpoint walk (dir : string) (e : Entry) : list FileEntry :=
  match e with
  | Dir name items =>
      if visibleDir name then
        match items with
        | Some its => flat_map (walk (Path.join dir name)) its
        | None => []
        end
      else []
  | File name mt c =>
      if isRelevantFile name
      then [{| f_path := Path.join dir name; f_mtime := mt; f_content := c |}]
      else []
  end.

Definition getFilesRecursively (dir : string) (items : option (list Entry)) : list FileEntry :=
  match items with
  | Some its => flat_map (walk dir) its
  | None => []
  end.

(** What one item of [dir] adds to [getAllDirsRecursively(dir)]: the
    directories below it, each with its items. *)
Fixpoint subdirs (dir : string) (e : Entry) : list (string * option (list Entry)) :=
  match e with
  | Dir name items =>
      if visibleDir name then
        (Path.join dir name, items) ::
        match items with
        | Some its => flat_map (subdirs (Path.join dir name)) its
        | None => []
        end
      else []
  | File _ _ _ => []
  end.

Definition getAllDirsRecursively (dir : string) (items : option (list Entry))
  : list (string * option (list Entry)) :=
  (dir, items) ::
  match items with
  | Some its => flat_map (subdirs dir) its
  | None => []
  end.

Definition count_ext (extensions : gmap string nat) (f : FileEntry) : gmap string nat :=
  let ext := Path.extname (f_path f) in
  <[ext := (default 0 (extensions !! ext) + 1)%nat]> extensions.

(** [Math.max(...mtimes)] turned back into a date; the clock when the
    directory holds no relevant file. *)
Definition getLastModified (clock : Clock) (dirPath : string) (items : option (list Entry)) : Z :=
  match getFilesRecursively dirPath items with
  | [] => at_dir clock dirPath
  | f :: rest => foldl Z.max (f_mtime f) (f_mtime <$> rest)
  end.

(** [purposes[folderName] || 'Source code directory'] *)
Definition inferFolderPurpose (folderName : string) : Looked :=
  if decide (folderName = "pages") then Text "Next.js Pages Router - file-based routing"
  else if decide (folderName = "app") then Text "Next.js App Router - modern routing with layouts"
  else if decide (folderName = "components") then Text "Reusable React components"
  else if decide (folderName = "lib") then Text "Library functions and utilities"
  else if decide (folderName = "utils") then Text "Helper functions and utilities"
  else if decide (folderName = "hooks") then Text "Custom React hooks"
  else if decide (folderName = "styles") then Text "CSS and styling files"
  else if decide (folderName = "public") then Text "Static assets served at root"
  else if decide (folderName = "api") then Text "API route handlers"
  else if decide (folderName = "src") then Text "Main source code directory"
  else if bool_decide (folderName ∈ objectPrototypeMembers) then Inherited folderName
  else Text "Source code directory".

(** [types[dirName] || 'source'] *)
Definition classifyDirectoryType (dirName : string) : Looked :=
  if decide (dirName = "pages") then Text "routing"
  else if decide (dirName = "app") then Text "routing"
  else if decide (dirName = "components") then Text "ui"
  else if decide (dirName = "lib") then Text "utility"
  else if decide (dirName = "utils") then Text "utility"
  else if decide (dirName = "hooks") then Text "logic"
  else if decide (dirName = "styles") then Text "styling"
  else if decide (dirName = "public") then Text "static"
  else if decide (dirName = "api") then Text "backend"
  else if bool_decide (dirName ∈ objectPrototypeMembers) then Inherited dirName
  else Text "source".

(** [{ purpose, ...analyzeDirStats(dirPath), type }] *)
Definition dirRecord (clock : Clock) (dirPath : string) (items : option (list Entry)) : DirRecord :=
  let files := getFilesRecursively dirPath items in
  {| dr_purpose := inferFolderPurpose (Path.basename dirPath);
     dr_fileCount := length files;
     dr_extensions := foldl count_ext ∅ files;
     dr_lastModified := getLastModified clock dirPath items;
     dr_type := classifyDirectoryType (Path.basename dirPath) |}.

Definition nextjsDirectories : list string :=
  ["pages"; "app"; "src/pages"; "src/app";
   "components"; "src/components";
   "lib"; "src/lib"; "utils"; "src/utils";
   "hooks"; "src/hooks";
   "styles"; "src/styles";
   "public";
   "api"; "src/api"; "pages/api"; "src/pages/api"; "app/api"; "src/app/api"].

(** The body of the inner [forEach] of [generateLevel1], on the local
    [visited] set and [index.level1]: a directory already visited is
    left alone. *)
Definition level1_dir (p : Project) (clock : Clock)
    (st : gset string * gmap string DirRecord) (d : string * option (list Entry))
  : gset string * gmap string DirRecord :=
  let relPath := Path.relative (projectPath p) (fst d) in
  if decide (relPath ∈ fst st) then st
  else ({[relPath]} ∪ fst st, <[relPath := dirRecord clock (fst d) (snd d)]> (snd st)).

Definition level1_base (p : Project) (clock : Clock)
    (st : gset string * gmap string DirRecord) (baseDir : string)
  : gset string * gmap string DirRecord :=
  match lookup_rel p baseDir with
  | Some e =>
      foldl (level1_dir p clock) st
        (getAllDirsRecursively (Path.join (projectPath p) baseDir) (entry_items e))
  | None => st
  end.

Definition generateLevel1 (p : Project) (clock : Clock) (g : Generator) : Generator :=
  with_index g (with_level1 (index g)
    (snd (foldl (level1_base p clock) (∅, level1 (index g)) nextjsDirectories))).

Definition nextjsDataFetchingFns : list string :=
  ["getServerSideProps"; "getStaticProps"; "getStaticPaths"].

(** [nextjsDataFetchingFns.includes(name)] *)
Definition isDataFetching (name : option string) : bool :=
  match name with
  | Some n => bool_decide (n ∈ nextjsDataFetchingFns)
  | None => false
  end.

(** [p.key?.name] *)
Definition key_name (prop : Node) : option string :=
  match prop with
  | ObjectProperty k _ => node_name k
  | _ => None
  end.

Definition getParamName (param : Node) : string :=
  match param with
  | Identifier n => n
  | ObjectPattern props =>
      "{" +:+ join ", " (map (fun q => js_text (js_or (key_name q) (Some "..."))) props) +:+ "}"
  | ArrayPattern els =>
      "[" +:+ join ", " (map (fun e => js_text (js_or (e ≫= node_name) (Some "..."))) els) +:+ "]"
  | RestElement arg => "..." +:+ js_text (node_name arg)
  | _ => "complex"
  end.

(** [name && name[0] === name[0].toUpperCase()] *)
Definition isReactComponent (name : option string) : Result bool :=
  if truthy name then is_upper_at (js_text name) 0 else Ok false.

(** [name && name.startsWith('use') && name[3] === name[3].toUpperCase()] *)
Definition isCustomHook (name : option string) : Result bool :=
  if truthy name then
    if startsWith (js_text name) "use" then is_upper_at (js_text name) 3 else Ok false
  else Ok false.

Definition apiRouteNames : list string :=
  ["GET"; "POST"; "PUT"; "DELETE"; "PATCH"; "default"].

Definition isApiRoute (filePath : string) (funcName : option string) : bool :=
  includes filePath "/api/" &&
  match funcName with
  | Some n => bool_decide (n ∈ apiRouteNames)
  | None => false
  end.

Definition emptyAnalysis : Analysis :=
  {| imports := []; exports := []; functions := []; components := [];
     hooks := []; apiRoutes := []; nextjsFeatures := [] |}.

Definition push_import (a : Analysis) (x : ImportRec) : Analysis :=
  {| imports := imports a ++ [x]; exports := exports a; functions := functions a;
     components := components a; hooks := hooks a; apiRoutes := apiRoutes a;
     nextjsFeatures := nextjsFeatures a |}.

Definition push_exports (a : Analysis) (xs : list ExportRec) : Analysis :=
  {| imports := imports a; exports := exports a ++ xs; functions := functions a;
     components := components a; hooks := hooks a; apiRoutes := apiRoutes a;
     nextjsFeatures := nextjsFeatures a |}.

Definition push_function (a : Analysis) (x : Func) : Analysis :=
  {| imports := imports a; exports := exports a; functions := functions a ++ [x];
     components := components a; hooks := hooks a; apiRoutes := apiRoutes a;
     nextjsFeatures := nextjsFeatures a |}.

Definition push_component (a : Analysis) (x : Func) : Analysis :=
  {| imports := imports a; exports := exports a; functions := functions a;
     components := components a ++ [x]; hooks := hooks a; apiRoutes := apiRoutes a;
     nextjsFeatures := nextjsFeatures a |}.

Definition push_hook (a : Analysis) (x : Func) : Analysis :=
  {| imports := imports a; exports := exports a; functions := functions a;
     components := components a; hooks := hooks a ++ [x]; apiRoutes := apiRoutes a;
     nextjsFeatures := nextjsFeatures a |}.

Definition push_apiRoute (a : Analysis) (x : Func) : Analysis :=
  {| imports := imports a; exports := exports a; functions := functions a;
     components := components a; hooks := hooks a; apiRoutes := apiRoutes a ++ [x];
     nextjsFeatures := nextjsFeatures a |}.

Definition push_features (a : Analysis) (xs : list string) : Analysis :=
  {| imports := imports a; exports := exports a; functions := functions a;
     components := components a; hooks := hooks a; apiRoutes := apiRoutes a;
     nextjsFeatures := nextjsFeatures a ++ xs |}.

(** The if-chain of the [FunctionDeclaration] visitor. *)
Definition sortDeclaration (filePath : string) (func : Func) (a : Analysis) : Result Analysis :=
  c ← isReactComponent (fn_name func);
  if (c : bool) then Ok (push_component a func)
  else
    h ← isCustomHook (fn_name func);
    if (h : bool) then Ok (push_hook a func)
    else if isApiRoute filePath (fn_name func) then Ok (push_apiRoute a func)
    else Ok (push_function a func).

(** The if-chain of the [ArrowFunctionExpression] visitor. *)
Definition sortArrow (func : Func) (a : Analysis) : Result Analysis :=
  c ← isReactComponent (fn_name func);
  if (c : bool) then Ok (push_component a func)
  else
    h ← isCustomHook (fn_name func);
    if (h : bool) then Ok (push_hook a func)
    else Ok (push_function a func).

(** Features the [ExportNamedDeclaration] visitor reads off the declaration. *)
Definition declarationFeatures (d : option Node) : list string :=
  match d with
  | Some (FunctionDeclaration i _ _ _) =>
      if isDataFetching i then [js_text i] else []
  | Some (VariableDeclaration ds) =>
      flat_map (fun decl => if isDataFetching (node_id_name decl)
                            then [js_text (node_id_name decl)] else []) ds
  | _ => []
  end.

(** The visitor object of [analyzeFile], applied at one node. *)
Definition visit (filePath : string) (v : Visit) (a : Analysis) : Result Analysis :=
  match v_node v with
  | ImportDeclaration specs source =>
      Ok (push_import a {| i_source := source; i_specifiers := specs |})
  | ExportDefaultDeclaration d =>
      let name := js_or (js_or (node_name d) (node_id_name d)) (Some "default") in
      Ok (push_features (push_exports a [{| e_name := name; e_type := "default" |}])
            (if isDataFetching name then [js_text name] else []))
  | ExportNamedDeclaration d specs =>
      let a1 := push_features a (declarationFeatures d) in
      Ok (foldl (fun acc spec =>
                   push_features
                     (push_exports acc [{| e_name := exported_name spec; e_type := "named" |}])
                     (if isDataFetching (exported_name spec)
                      then [js_text (exported_name spec)] else []))
                a1 specs)
  | FunctionDeclaration i ps async _ =>
      sortDeclaration filePath
        {| fn_name := i; fn_params := getParamName <$> ps;
           fn_async := async; fn_isExported := isExported v |} a
  | ArrowFunctionExpression ps async _ =>
      match v_parent v with
      | Some (VariableDeclarator i _) =>
          if truthy (node_name i) then
            sortArrow {| fn_name := node_name i; fn_params := getParamName <$> ps;
                         fn_async := async; fn_isExported := isExported v |} a
          else Ok a
      | _ => Ok a
      end
  | CallExpression callee _ =>
      if decide (node_name callee = Some "getServerSideProps") then Ok (push_features a ["SSR"])
      else if decide (node_name callee = Some "getStaticProps") then Ok (push_features a ["SSG"])
      else if decide (node_name callee = Some "getStaticPaths")
           then Ok (push_features a ["Dynamic Routes"])
      else Ok a
  | _ => Ok a
  end.

(** [traverse(ast, visitors)] *)
Fixpoint run_visitors (filePath : string) (vs : list Visit) (a : Analysis) : Result Analysis :=
  match vs with
  | [] => Ok a
  | v :: rest => a' ← visit filePath v a; run_visitors filePath rest a'
  end.

(** [names.join(', ')]: an [undefined] element prints as nothing. *)
Definition joinNames (fs : list Func) : string :=
  join ", " (map (fun f => default "" (fn_name f)) fs).

Definition inferFilePurpose (filePath : string) (a : Analysis) : string :=
  let basename := Path.basename_noext filePath in
  if decide (basename = "layout") then "Layout component for route group"
  else if decide (basename = "page") then "Page component for route"
  else if decide (basename = "loading") then "Loading UI component"
  else if decide (basename = "error") then "Error boundary component"
  else if decide (basename = "not-found") then "Not found page component"
  else if includes filePath "/api/" then "API route handler"
  else if (0 <? length (components a))%nat
       then "React component (" +:+ joinNames (components a) +:+ ")"
  else if (0 <? length (hooks a))%nat
       then "Custom React hook (" +:+ joinNames (hooks a) +:+ ")"
  else if (0 <? length (functions a))%nat
       then "Utility functions (" +:+ joinNames (functions a) +:+ ")"
  else "Source file".

Definition classifyFileType (filePath : string) (a : Analysis) : string :=
  if includes filePath "/api/" then "api-route"
  else if includes filePath "/pages/" then "page"
  else if includes filePath "/app/" then "app-route"
  else if (0 <? length (components a))%nat then "component"
  else if (0 <? length (hooks a))%nat then "hook"
  else if includes filePath "/lib/" || includes filePath "/utils/" then "utility"
  else if endsWith filePath ".css" || endsWith filePath ".scss" then "styles"
  else "source".

Definition calculateComplexity (a : Analysis) : nat :=
  (length (functions a) + length (components a) + length (hooks a) + length (apiRoutes a))%nat.

(** The level 2 record of a file. *)
Definition moduleSummary (relativePath : string) (mtime : Z) (a : Analysis) : ModuleSummary :=
  {| ms_purpose := inferFilePurpose relativePath a;
     ms_type := classifyFileType relativePath a;
     ms_imports := i_source <$> imports a;
     ms_exports := e_name <$> exports a;
     ms_complexity := calculateComplexity a;
     ms_nextjsFeatures := nextjsFeatures a;
     ms_lastModified := mtime |}.

(** The descriptors in the order level 3 is written, each with what
    [classifyFunction(item, analysis)] answers: a descriptor object sits in
    exactly one of the four arrays, the one its visitor pushed it to. *)
Definition classified (a : Analysis) : list (Func * string) :=
  ((fun f => (f, "function")) <$> functions a) ++
  ((fun f => (f, "component")) <$> components a) ++
  ((fun f => (f, "hook")) <$> hooks a) ++
  ((fun f => (f, "api-handler")) <$> apiRoutes a).

Definition addSignature (relativePath : string) (l3 : gmap string Signature)
    (item : Func * string) : gmap string Signature :=
  if truthy (fn_name (fst item)) then
    let name := js_text (fn_name (fst item)) in
    <[relativePath +:+ ":" +:+ name :=
        {| sg_name := name;
           sg_signature := name +:+ "(" +:+ join ", " (fn_params (fst item)) +:+ ")"
                             +:+ (if fn_async (fst item) then ": Promise" else "");
           sg_type := snd item;
           sg_file := relativePath;
           sg_exported := fn_isExported (fst item);
           sg_async := fn_async (fst item) |}]> l3
  else l3.

Section WithParser.
Variable parse : Parser.

(** [analyzeFile(filePath)] on the index: a parse error is logged and
    the index left as it is; an exception from the traversal leaves it
    as it is too, the records being written after the traversal. *)
Definition analyzeFile (p : Project) (f : FileEntry) (i : Index) : Result Index :=
  match f_content f with
  | None => Throw IOError
  | Some code =>
      let relativePath := Path.relative (projectPath p) (f_path f) in
      match parse code {| plugins := pluginsFor (f_path f); errorRecovery := false |} with
      | None => Ok i
      | Some ast =>
          a ← run_visitors (f_path f) (traversal ast) emptyAnalysis;
          Ok (with_level23 i
                (<[relativePath := moduleSummary relativePath (f_mtime f) a]> (level2 i))
                (foldl (addSignature relativePath) (level3 i) (classified a)))
      end
  end.

Definition sourceExtensions : list string := [".js"; ".jsx"; ".ts"; ".tsx"].

(** The files [analyzeSourceFiles] loops over. *)
Definition sourceFiles (p : Project) : list FileEntry :=
  filter (fun f => bool_decide (Path.extname (f_path f) ∈ sourceExtensions)
                   && negb (includes (f_path f) "node_modules")
                   && negb (includes (f_path f) ".next"))
         (getFilesRecursively (projectPath p) (root p)).

(** One round of the loop: an exception is logged and the file skipped. *)
Definition analyzeStep (p : Project) (i : Index) (f : FileEntry) : Index :=
  match analyzeFile p f i with
  | Ok i' => i'
  | Throw _ => i
  end.

Definition analyzeSourceFiles (p : Project) (g : Generator) : Generator :=
  with_index g (foldl (analyzeStep p) (index g) (sourceFiles p)).

End WithParser.

Definition hasPackage (g : Generator) (packageName : string) : bool :=
  truthy (js_or (js_or (dependencies (packageJson g) !! packageName)
                       (devDependencies (packageJson g) !! packageName))
                (peerDependencies (packageJson g) !! packageName)).

(** The files below [projectPath/rel], when that path exists. *)
Definition filesUnder (p : Project) (rel : string) : option (list FileEntry) :=
  match lookup_rel p rel with
  | Some e => Some (getFilesRecursively (Path.join (projectPath p) rel) (entry_items e))
  | None => None
  end.

Definition hasSourceExt (file : string) : bool :=
  bool_decide (Path.extname file ∈ [".js"; ".jsx"; ".ts"; ".tsx"]).

Definition detectPagesRouter (p : Project) : bool :=
  existsb (fun dir =>
             match filesUnder p dir with
             | Some files =>
                 existsb (fun f => negb (startsWith (Path.basename_noext (f_path f)) "_")
                                   && hasSourceExt (f_path f)) files
             | None => false
             end)
          ["pages"; "src/pages"].

Definition appRouterNames : list string :=
  ["page"; "layout"; "loading"; "error"; "not-found"; "template"].

Definition detectAppRouter (p : Project) : bool :=
  existsb (fun dir =>
             match filesUnder p dir with
             | Some files =>
                 existsb (fun f => bool_decide (Path.basename_noext (f_path f) ∈ appRouterNames)
                                   && hasSourceExt (f_path f)) files
             | None => false
             end)
          ["app"; "src/app"].

Definition detectTypeScript (p : Project) (g : Generator) : bool :=
  existsSync p "tsconfig.json" || existsSync p "next-env.d.ts"
  || hasPackage g "typescript" || hasPackage g "@types/node".

Definition detectTailwind (p : Project) (g : Generator) : bool :=
  existsb (existsSync p)
    ["tailwind.config.js"; "tailwind.config.ts"; "tailwind.config.mjs"; "tailwind.config.cjs"]
  || hasPackage g "tailwindcss"
  || existsb (fun f =>
                bool_decide (Path.extname (f_path f) ∈ [".css"; ".scss"; ".sass"]) &&
                match f_content f with
                | Some content => includes content "@tailwind" || includes content "tailwindcss"
                | None => false
                end)
             (getFilesRecursively (projectPath p) (root p)).

Definition patternFacts (p : Project) (g : Generator) : gmap string bool :=
  list_to_map
    [("pages-router", detectPagesRouter p);
     ("app-router", detectAppRouter p);
     ("src-directory", existsSync p "src");
     ("typescript", detectTypeScript p g);
     ("tailwind", detectTailwind p g);
     ("styled-components", hasPackage g "styled-components");
     ("emotion", hasPackage g "@emotion/react" || hasPackage g "@emotion/styled");
     ("mui", hasPackage g "@mui/material" || hasPackage g "@material-ui/core");
     ("prisma", hasPackage g "prisma" || hasPackage g "@prisma/client");
     ("trpc", hasPackage g "@trpc/server" || hasPackage g "@trpc/client");
     ("next-auth", hasPackage g "next-auth" || hasPackage g "@auth/nextjs")].

Definition analyzeArchitecturalPatterns (p : Project) (g : Generator) : Generator :=
  with_index g (with_patterns (index g) (patternFacts p g)).

(** [filePathToRoute(filePath, routerType)]: [None] is the [null] return. *)
Definition filePathToRoute (filePath routerType : string) : option string :=
  let route := strip_source_ext filePath in
  let finish (route : string) : option string :=
    let route := replace_dynamic route in
    Some (if startsWith route "/" then route else "/" +:+ route) in
  if decide (routerType = "pages") then
    if decide (route = "index") then Some "/"
    else
      let route := if endsWith route "/index" then replace route "/index" "" else route in
      if startsWith route "_" || includes route "/_" then None
      else finish route
  else if decide (routerType = "app") then
    let route := if endsWith route "/page" then replace route "/page" "" else route in
    if decide (route = "page") then Some "/"
    else if negb (includes filePath "/page.") && negb (includes filePath "/layout.")
            && negb (includes filePath "/loading.") && negb (includes filePath "/error.")
         then None
    else finish route
  else finish route.

Definition getRouteType (filePath : string) : string :=
  let basename := Path.basename_noext filePath in
  if decide (basename = "layout") then "layout"
  else if decide (basename = "loading") then "loading"
  else if decide (basename = "error") then "error"
  else if decide (basename = "not-found") then "not-found"
  else if decide (basename = "page") then "page"
  else if includes filePath "/api/" then "api"
  else "page".

(** [extractRoutes(dir, type)] over the files of [dir]. *)
Definition extractRoutes (dir : string) (files : list FileEntry) (type : string) : list RouteRec :=
  flat_map (fun f =>
              let relativePath := Path.relative dir (f_path f) in
              match filePathToRoute relativePath type with
              | Some route =>
                  [{| r_path := route; r_file := relativePath; r_type := getRouteType (f_path f) |}]
              | None => []
              end) files.

Definition routesOf (p : Project) (first second type : string) : option (list RouteRec) :=
  match filesUnder p first with
  | Some files => Some (extractRoutes (Path.join (projectPath p) first) files type)
  | None =>
      match filesUnder p second with
      | Some files => Some (extractRoutes (Path.join (projectPath p) second) files type)
      | None => None
      end
  end.

Definition analyzeRoutes (p : Project) (g : Generator) : Generator :=
  with_index g (with_routes (index g)
    {| routes_pages := routesOf p "pages" "src/pages" "pages";
       routes_app := routesOf p "app" "src/app" "app" |}).

(** The files [saveIndex()] writes in the project directory. *)
Definition outputFiles : list string :=
  ["codebase-index.json"; "codebase-index-formatted.md"].

(** [{ ...xs }] for an array: its elements under their indices. *)
Definition spreadArray (xs : list JSON) : gmap string JSON :=
  list_to_map (imap (fun i x => (pretty i, x)) xs).

Section WithJson.
Variable parseJson : JsonParser.

(** The [previousLevel4] that [saveIndex] computes from the output file
    of an earlier run: empty unless the file is there, can be read and
    parsed, and holds an object under [level4]. *)
Definition previousLevel4 (p : Project) : gmap string JSON :=
  match lookup_rel p "codebase-index.json" with
  | Some (File _ _ (Some text)) =>
      match parseJson text with
      | Some (JObject prev) =>
          match prev !! "level4" with
          | Some (JObject l4) => l4
          | Some (JArray xs) => spreadArray xs
          | _ => ∅
          end
      | _ => ∅
      end
  | _ => ∅
  end.

(** What [saveIndex()] does to [this.index], before it writes:
    [{ ...previousLevel4, ...this.index.level4 }], where the later spread
    wins.  The two writes that follow are [saveIndexOutcome]. *)
Definition saveIndex (p : Project) (g : Generator) : Generator :=
  with_index g (with_level4 (index g) (level4 (index g) ∪ previousLevel4 p)).

Variable parse : Parser.

(** The index the generator holds at the end of the five steps of
    [generate()].  It is what [generate()] resolves to when the writes of
    [saveIndex] go through ([generateOutcome]). *)
Definition generate (p : Project) (clock : Clock) (g : Generator) : Index :=
  index (saveIndex p
          (analyzeRoutes p
            (analyzeArchitecturalPatterns p
              (analyzeSourceFiles parse p
                (generateLevel1 p clock g))))).

(** The index of a fresh generator at the end of [generate()]. *)
Definition run (p : Project) (pj : PackageJson) (clock : Clock) : Index :=
  generate p clock (new p pj clock).

(** [writable name]: the process may create or replace the regular file
    [name] of the project directory (permissions, free space). *)
Variable writable : string → bool.

(** [fs.writeFileSync(path.join(projectPath, name), text)], as far as the
    call goes: it throws when a directory stands at the path (EISDIR) or
    the file may not be written.  No [try] surrounds the two calls of it
    in [saveIndex] and [saveFormattedIndex]. *)
Definition writeFileSync (p : Project) (name : string) : Result unit :=
  match lookup_rel p name with
  | Some (Dir _ _) => Throw IOError
  | _ => if writable name then Ok tt else Throw IOError
  end.

(** [saveFormattedIndex(formattedPath)]: the text is put together from the
    index by steps that do not throw; the write ends the function. *)
Definition saveFormattedIndex (p : Project) : Result unit :=
  writeFileSync p "codebase-index-formatted.md".

(** How [saveIndex()] ends: the prior output is read and parsed inside a
    [try], the JSON file is written, then the formatted one. *)
Definition saveIndexOutcome (p : Project) : Result unit :=
  _ ← writeFileSync p "codebase-index.json";
  saveFormattedIndex p.

(** [generate()]: the index it resolves to, or the exception of a write
    that it rejects with. *)
Definition generateOutcome (p : Project) (clock : Clock) (g : Generator) : Result Index :=
  _ ← saveIndexOutcome p;
  Ok (generate p clock g).

(** [new NextJSIndexGenerator(projectPath).generate()] *)
Definition runOutcome (p : Project) (pj : PackageJson) (clock : Clock) : Result Index :=
  generateOutcome p clock (new p pj clock).

End WithJson.

End NextJS.

(** ** Vocabulary of the properties *)

(** The module-source strings of the import declarations of a traversal,
    in order. *)
Definition importSources (vs : list Visit) : list string :=
  flat_map (fun v => match v_node v with
                     | ImportDeclaration _ source => [source]
                     | _ => []
                     end) vs.

(** A module source that is not relative or path-based. *)
Definition isExternal (source : string) : bool :=
  negb (JsString.startsWith source ".") && negb (JsString.startsWith source "/").

(** A visit that declares the name [use]: a function declaration of that
    name, or an arrow function bound to a variable of that name. *)
Definition declaresUse (v : Visit) : bool :=
  match v_node v with
  | FunctionDeclaration i _ _ _ => bool_decide (i = Some "use")
  | ArrowFunctionExpression _ _ _ =>
      match v_parent v with
      | Some (VariableDeclarator i _) => bool_decide (node_name i = Some "use")
      | _ => false
      end
  | _ => false
  end.

(** A function declaration named [use] inside an export declaration. *)
Definition exportsUse (v : Visit) : bool :=
  match v_node v with
  | FunctionDeclaration i _ _ _ => bool_decide (i = Some "use") && isExported v
  | _ => false
  end.

(** The names the export declarations of a traversal export: the resolved
    name of a default export, the exported name of each specifier. *)
Definition exportedNames (vs : list Visit) : list (option string) :=
  flat_map (fun v => match v_node v with
                     | ExportDefaultDeclaration d =>
                         [js_or (js_or (node_name d) (node_id_name d)) (Some "default")]
                     | ExportNamedDeclaration _ specs => exported_name <$> specs
                     | _ => []
                     end) vs.

(** A directory record without its time stamp. *)
Definition eraseTime (d : NextJS.DirRecord) : NextJS.DirRecord :=
  {| NextJS.dr_purpose := NextJS.dr_purpose d;
     NextJS.dr_fileCount := NextJS.dr_fileCount d;
     NextJS.dr_extensions := NextJS.dr_extensions d;
     NextJS.dr_lastModified := 0;
     NextJS.dr_type := NextJS.dr_type d |}.

(** The deep-detail map of the output file of an earlier run, in the words
    of the specification: the prior output is loaded if it is present and
    parseable, and treated as empty if it is missing or unparseable, or is
    a file that cannot be read. *)
Inductive SpecPriorDetail (parseJson : JsonParser) (p : Project) : gmap string JSON → Prop :=
| prior_missing :
    lookup_rel p "codebase-index.json" = None →
    SpecPriorDetail parseJson p ∅
| prior_unreadable (n : string) (m : Z) :
    lookup_rel p "codebase-index.json" = Some (File n m None) →
    SpecPriorDetail parseJson p ∅
| prior_unparseable (n : string) (m : Z) (text : string) :
    lookup_rel p "codebase-index.json" = Some (File n m (Some text)) →
    parseJson text = None →
    SpecPriorDetail parseJson p ∅
| prior_parsed (n : string) (m : Z) (text : string) (prev l4 : gmap string JSON) :
    lookup_rel p "codebase-index.json" = Some (File n m (Some text)) →
    parseJson text = Some (JObject prev) →
    prev !! "level4" = Some (JObject l4) →
    SpecPriorDetail parseJson p l4.

(** The budget-aware generator with another generation time stamp. *)
Definition restamp (t : Z) (g : Compact.Generator) : Compact.Generator :=
  Compact.with_index g
    {| Compact.meta_generated := t;
       Compact.meta_framework := Compact.meta_framework (Compact.index g);
       Compact.structure := Compact.structure (Compact.index g);
       Compact.modules := Compact.modules (Compact.index g);
       Compact.exports := Compact.exports (Compact.index g);
       Compact.patterns := Compact.patterns (Compact.index g) |}.

(** An item of the project directory that is not an output file. *)
Definition keeps (outputs : list string) (e : Entry) : bool :=
  negb (bool_decide (entry_name e ∈ outputs)).

(** No directory bears the name of an output file. *)
Definition regularOutput (outputs : list string) (e : Entry) : Prop :=
  match e with
  | File _ _ _ => True
  | Dir n _ => n ∉ outputs
  end.

(** [p'] is the project [p] after a run wrote its output files: the two
    project directories hold the same items in the same order, the output
    files apart, which may be new in [p'] or differ in content and time. *)
Definition AfterRun (outputs : list string) (p p' : Project) : Prop :=
  projectPath p' = projectPath p
  ∧ ∃ its its',
      root p = Some its ∧ root p' = Some its'
      ∧ List.filter (keeps outputs) its' = List.filter (keeps outputs) its
      ∧ Forall (regularOutput outputs) its
      ∧ Forall (regularOutput outputs) its'.

(** The relative path a file is recorded under. *)
Definition recordKey (p : Project) (f : FileEntry) : string :=
  Path.relative (projectPath p) (f_path f).

(** ** Sample sources and projects

    A parser for the sources used below: a sequence of side-effect imports
    [import 'm';import 'n'] is parsed statement by statement, and a few
    one-line modules are listed with the tree Babel builds for them. *)

Module Samples.
Import JsString.

Fixpoint repeat_char (c : ascii) (n : nat) : string :=
  match n with
  | O => ""
  | S n' => String c (repeat_char c n')
  end.

(** Pieces of [s] between semicolons. *)
Fixpoint statements_go (cur : string) (s : string) : list string :=
  match s with
  | EmptyString => [String.rev cur]
  | String a s' =>
      if decide (a = ";"%char) then String.rev cur :: statements_go "" s'
      else statements_go (String a cur) s'
  end.

(** [import 'name'] *)
Definition parseImport (stmt : string) : option Node :=
  if startsWith stmt "import '" && endsWith stmt "'" then
    let body := drop 8 stmt in
    Some (ImportDeclaration [] (take (String.length body - 1) body))
  else None.

Definition block : Node := OtherNode [].

Definition listed : list (string * Node) :=
  [("export async function GET() {}",
    Program [ExportNamedDeclaration
               (Some (FunctionDeclaration (Some "GET") [] true [block])) []]);
   ("function use() {}",
    Program [FunctionDeclaration (Some "use") [] false [block]]);
   ("export function use() {}",
    Program [ExportNamedDeclaration
               (Some (FunctionDeclaration (Some "use") [] false [block])) []]);
   ("const use = () => 1",
    Program [VariableDeclaration
               [VariableDeclarator (Identifier "use")
                  (Some (ArrowFunctionExpression [] false [OtherNode []]))]]);
   ("export function formatDate(d) {}",
    Program [ExportNamedDeclaration
               (Some (FunctionDeclaration (Some "formatDate") [Identifier "d"] false [block])) []])].

Definition parser : Parser := fun code _ =>
  match list_find (fun e => fst e = code) listed with
  | Some (_, (_, ast)) => Some ast
  | None => Program <$> mapM parseImport (statements_go "" code)
  end.

Definition noManifest : PackageJson :=
  {| dependencies := ∅; devDependencies := ∅; peerDependencies := ∅ |}.

Definition clock : NextJS.Clock := {| NextJS.at_start := 0; NextJS.at_dir := fun _ => 0%Z |}.

Definition source (name code : string) : Entry := File name 0 (Some code).

(** A project with one API route module, [app/api/users/route.ts]. *)
Definition apiProject : Project :=
  {| projectPath := "/proj";
     root := Some [Dir "app" (Some [Dir "api" (Some [Dir "users" (Some
               [source "route.ts" "export async function GET() {}"])])])] |}.

Definition apiRouteFile : FileEntry :=
  {| f_path := "/proj/app/api/users/route.ts"; f_mtime := 0;
     f_content := Some "export async function GET() {}" |}.

(** A project with both routing roots. *)
Definition routesProject : Project :=
  {| projectPath := "/proj";
     root := Some [Dir "pages" (Some [Dir "blog" (Some [source "[slug].tsx" ""]);
                                      source "index.tsx" ""]);
                   Dir "app" (Some [Dir "dashboard" (Some [source "page.tsx" ""])])] |}.

(** Twelve modules under [lib], each importing one package with a name
    of nine thousand characters: ten of their records cross the
    threshold of 28000 tokens. *)
Definition longImport (tag : string) : string :=
  "import '" +:+ repeat_char "a" 9000 +:+ tag +:+ "'".

Definition bigProject : Project :=
  {| projectPath := "/proj";
     root := Some [Dir "lib" (Some
       ((fun tag => source ("m" +:+ tag +:+ ".js") (longImport tag)) <$>
          ["00"; "01"; "02"; "03"; "04"; "05"; "06"; "07"; "08"; "09"; "10"; "11"]))] |}.

(** A module with eleven imports, the third of them relative. *)
Definition manyImports : string :=
  "import 'm01';import 'm02';import './local';import 'm04';import 'm05';import 'm06';"
  +:+ "import 'm07';import 'm08';import 'm09';import 'm10';import 'm11'".

(** A module with twelve imports of packages. *)
Definition twelveImports : string :=
  "import 'm01';import 'm02';import 'm03';import 'm04';import 'm05';import 'm06';"
  +:+ "import 'm07';import 'm08';import 'm09';import 'm10';import 'm11';import 'm12'".

Definition importsProject : Project :=
  {| projectPath := "/proj";
     root := Some [Dir "lib" (Some [source "many.js" manyImports;
                                    source "twelve.js" twelveImports])] |}.

Definition manyFile : FileEntry :=
  {| f_path := "/proj/lib/many.js"; f_mtime := 0; f_content := Some manyImports |}.

Definition twelveFile : FileEntry :=
  {| f_path := "/proj/lib/twelve.js"; f_mtime := 0; f_content := Some twelveImports |}.

(** A module of 10010 characters: one import of a package with a long name. *)
Definition hugeImport : string := "import '" +:+ repeat_char "a" 10001 +:+ "'".

Definition hugeProject : Project :=
  {| projectPath := "/proj";
     root := Some [Dir "lib" (Some [source "huge.js" hugeImport])] |}.

Definition hugeFile : FileEntry :=
  {| f_path := "/proj/lib/huge.js"; f_mtime := 0; f_content := Some hugeImport |}.

(** Modules that declare the name [use]. *)
Definition useProject : Project :=
  {| projectPath := "/proj";
     root := Some [Dir "lib" (Some [source "plain.js" "function use() {}";
                                    source "exported.js" "export function use() {}";
                                    source "arrow.js" "const use = () => 1";
                                    source "dates.js" "export function formatDate(d) {}"])] |}.

Definition useFile (name code : string) : FileEntry :=
  {| f_path := "/proj/lib/" +:+ name; f_mtime := 0; f_content := Some code |}.

(** An output file of an earlier run with one deep-detail entry, and a
    JSON parser that knows this text. *)
Definition priorText : string :=
  "{" +:+ Json.key "level4" +:+ "{" +:+ Json.key "lib/a.ts:f" +:+ Json.quote "kept"
      +:+ "," +:+ Json.key "lib/b.ts:g" +:+ Json.quote "old" +:+ "}}".

Definition priorDetail : gmap string JSON :=
  <["lib/a.ts:f" := JString "kept"]> (<["lib/b.ts:g" := JString "old"]> ∅).

Definition jsonParser : JsonParser := fun text =>
  if decide (text = priorText) then Some (JObject (<["level4" := JObject priorDetail]> ∅))
  else None.

Definition priorProject : Project :=
  {| projectPath := "/proj";
     root := Some [Dir "lib" (Some [source "dates.js" "export function formatDate(d) {}"]);
                   source "codebase-index.json" priorText] |}.

(** A project where a directory stands at the path of the output file. *)
Definition blockedProject : Project :=
  {| projectPath := "/proj";
     root := Some [Dir "codebase-index.json" (Some [])] |}.

(** A generator whose deep-detail map was filled for one symbol. *)
Definition detailedGenerator : NextJS.Generator :=
  let g := NextJS.new priorProject noManifest clock in
  NextJS.with_index g
    (NextJS.with_level4 (NextJS.index g) (<["lib/b.ts:g" := JString "new"]> ∅)).

(** The API project once a run of each generator wrote its output files. *)
Definition apiProjectAfter (outputs : list string) : Project :=
  {| projectPath := "/proj";
     root := Some (List.app ((fun name => File name 1700000000000 (Some "{}")) <$> outputs)
                            (default [] (root apiProject))) |}.

End Samples.

(** ** Vocabulary of the further properties *)

(** A name the budget-aware walker steps over. *)
Definition steppedOver (name : string) : bool :=
  JsString.startsWith name "." || bool_decide (name = "node_modules").

(** Number of occurrences of a character in a string. *)
Fixpoint count_char (c : ascii) (s : string) : nat :=
  match s with
  | EmptyString => 0%nat
  | String a s' => ((if decide (a = c) then 1 else 0) + count_char c s')%nat
  end.

(** Sum of the counts of an extension histogram. *)
Definition histogramTotal (m : gmap string nat) : nat :=
  map_fold (fun _ n acc => (n + acc)%nat) 0%nat m.

(** A lower-case letter among the code units below 256: a-z, the micro
    sign (181), and the Latin-1 letters from the sharp s (223) to the y
    with diaeresis (255), the division sign (247) left out. *)
Definition lowercase (c : ascii) : bool :=
  let n := nat_of_ascii c in
  ((97 <=? n)%nat && (n <=? 122)%nat) || (n =? 181)%nat
  || ((223 <=? n)%nat && negb (n =? 247)%nat).

(** A name whose first character is not a lower-case letter. *)
Definition componentName (name : string) : bool :=
  match name with
  | String c _ => negb (lowercase c)
  | EmptyString => false
  end.

(** A name that starts with [use] and goes on with a character that is
    not a lower-case letter. *)
Definition hookName (name : string) : bool :=
  JsString.startsWith name "use" &&
  match JsString.char_at name 3 with
  | Some c => negb (lowercase c)
  | None => false
  end.

(** The type of a level 3 entry, read off the name; [api] says whether
    the name of a function declaration in a file below an [api] directory
    is looked up among the route names. *)
Definition nameClass (api : bool) (name : string) : string :=
  if componentName name then "component"
  else if hookName name then "hook"
  else if api && bool_decide (name = "default") then "api-handler"
  else "function".

(** A visit the comprehensive generator records a function for: a
    function declaration, or an arrow function bound to a named variable. *)
Definition declaresFunction (v : Visit) : bool :=
  match v_node v with
  | FunctionDeclaration _ _ _ _ => true
  | ArrowFunctionExpression _ _ _ =>
      match v_parent v with
      | Some (VariableDeclarator i _) => truthy (node_name i)
      | _ => false
      end
  | _ => false
  end.

(** What sorting a descriptor does: it is appended to one of the four
    arrays, the one its name selects. *)
Definition sortedInto (api : bool) (func : NextJS.Func) (a a' : NextJS.Analysis) : Prop :=
  ∃ t, (∀ Q : NextJS.Func * string → Prop,
          Forall Q (NextJS.classified a) → Q (func, t) → Forall Q (NextJS.classified a'))
       ∧ NextJS.calculateComplexity a' = S (NextJS.calculateComplexity a)
       ∧ ∀ n, NextJS.fn_name func = Some n → n ≠ "" → t = nameClass api n.

(** What the type of a level 3 entry says of its name. *)
Definition classOf (fp : string) (func : NextJS.Func) (t : string) : Prop :=
  ∀ n, NextJS.fn_name func = Some n → n ≠ "" →
       ∃ api, t = nameClass api n ∧ (api = true → JsString.includes fp "/api/" = true).

(** What a run keeps true of every level 3 entry. *)
Definition entryOf (p : Project) (all : list FileEntry) (i : NextJS.Index)
    (key : string) (sig : NextJS.Signature) : Prop :=
  ∃ f, f ∈ all
       ∧ NextJS.sg_file sig = recordKey p f
       ∧ key = NextJS.sg_file sig +:+ ":" +:+ NextJS.sg_name sig
       ∧ NextJS.sg_name sig ≠ ""
       ∧ (∃ api, NextJS.sg_type sig = nameClass api (NextJS.sg_name sig)
                 ∧ (api = true → JsString.includes (f_path f) "/api/" = true))
       ∧ is_Some (NextJS.level2 i !! NextJS.sg_file sig).

(** Where a level 2 record comes from. *)
Definition recordOf (parse : Parser) (p : Project) (all : list FileEntry)
    (key : string) (r : NextJS.ModuleSummary) : Prop :=
  ∃ f code ast a,
    f ∈ all
    ∧ key = recordKey p f
    ∧ f_content f = Some code
    ∧ parse code {| plugins := pluginsFor (f_path f); errorRecovery := false |} = Some ast
    ∧ NextJS.run_visitors (f_path f) (traversal ast) NextJS.emptyAnalysis = Ok a
    ∧ r = NextJS.moduleSummary key (f_mtime f) a.

(** A name a file system gives to an entry: not empty, without a slash. *)
Definition plainName (n : string) : bool :=
  negb (bool_decide (n = "")) && (count_char "/" n =? 0)%nat.

(** A tree as a file system holds it: every name is plain and the items
    of a directory bear different names. *)
Fixpoint wellNamed (e : Entry) : bool :=
  plainName (entry_name e) &&
  match e with
  | File _ _ _ => true
  | Dir _ None => true
  | Dir _ (Some l) => bool_decide (NoDup (entry_name <$> l)) && forallb wellNamed l
  end.

(** The part of a relative path before its first slash. *)
Fixpoint first_segment (s : string) : string :=
  match s with
  | EmptyString => EmptyString
  | String a s' => if decide (a = "/"%char) then EmptyString else String a (first_segment s')
  end.

(** What a well-named entry adds to a walk: files with different paths,
    each below the directory walked and beginning, relative to it, with the
    entry's name. *)
Definition distinctBelow (e : Entry) : Prop :=
  wellNamed e = true →
  ∀ dir, NoDup (f_path <$> NextJS.walk dir e)
         ∧ ∀ f, f ∈ NextJS.walk dir e →
                ∃ r, f_path f = Path.dir_base dir +:+ r ∧ first_segment r = entry_name e.

(** [listingAt items names items']: in a directory with the listing
    [items], the names [names], taken one after the other, are names of
    directories, each an item of the listing before it, and the last of
    them has the listing [items']. *)
Fixpoint listingAt (items : option (list Entry)) (names : list string)
    (items' : option (list Entry)) : Prop :=
  match names with
  | [] => items' = items
  | n :: rest =>
      ∃ its sub, items = Some its ∧ Dir n sub ∈ its ∧ listingAt sub rest items'
  end.

(** * Properties *)

Local Close Scope string_scope.

Example startsWith_use : JsString.startsWith "useAuth" "use" = true.
Proof. reflexivity. Qed.
Example replace_dynamic_slug : JsString.replace_dynamic "blog/[slug]" = "blog/:slug".
Proof. reflexivity. Qed.
Example replace_dynamic_nested : JsString.replace_dynamic "a/[[b]/[]c[d" = "a/:[b/[]c[d".
Proof. reflexivity. Qed.
Example extname_tsx : Path.extname "/proj/app/dashboard/page.tsx" = ".tsx".
Proof. reflexivity. Qed.
Example extname_hidden : Path.extname "/proj/.eslintrc" = "".
Proof. reflexivity. Qed.
Example relative_ex :
  Path.relative "/proj/pages" "/proj/pages/blog/[slug].tsx" = "blog/[slug].tsx".
Proof. reflexivity. Qed.
Example sample_parse_imports :
  Samples.parser "import 'react';import './local'" {| plugins := ["jsx"]; errorRecovery := true |}
  = Some (Program [ImportDeclaration [] "react"; ImportDeclaration [] "./local"]).
Proof. reflexivity. Qed.
Example walk_api_project :
  NextJS.sourceFiles Samples.apiProject = [Samples.apiRouteFile].
Proof. vm_compute. reflexivity. Qed.
Example walk_api_project_compact :
  Compact.sourceFiles Samples.apiProject = [Samples.apiRouteFile].
Proof. vm_compute. reflexivity. Qed.

(** ** Strings and paths *)

Lemma startsWith_app (base rest : string) : JsString.startsWith (base +:+ rest) base = true.
Proof.
  induction base as [|a base IH]; simpl.
  - by destruct rest.
  - by rewrite decide_True.
Qed.

Lemma drop_app (base rest : string) :
  JsString.drop (String.length base) (base +:+ rest) = rest.
Proof. induction base as [|a base IH]; simpl; [by destruct rest|done]. Qed.

Lemma string_app_nil (s : string) : "" +:+ s = s.
Proof. reflexivity. Qed.

Lemma string_app_cons (a : ascii) (s t : string) : String a s +:+ t = String a (s +:+ t).
Proof. reflexivity. Qed.

Lemma string_app_assoc (a b c : string) : (a +:+ b) +:+ c = a +:+ (b +:+ c).
Proof.
  induction a as [|x a IH]; [done|].
  by rewrite !string_app_cons, IH.
Qed.

Lemma rev_app_app (a b acc : string) :
  String.rev_app (a +:+ b) acc = String.rev_app b (String.rev_app a acc).
Proof.
  revert acc. induction a as [|x a IH]; intros acc; [done|].
  rewrite string_app_cons. simpl. by rewrite IH.
Qed.

Lemma relative_join (dir rest : string) : Path.relative dir (Path.join dir rest) = rest.
Proof.
  unfold Path.relative, Path.join.
  by rewrite startsWith_app, drop_app.
Qed.

(** A path ending in a character other than the slash takes a slash when
    joined. *)
Lemma join_after_char (pre : string) (c : ascii) (name : string) :
  c ≠ "/"%char →
  Path.join (pre +:+ String c "") name = pre +:+ String c (String "/" name).
Proof.
  intros Hc. unfold Path.join, Path.dir_base, JsString.endsWith, String.rev.
  rewrite rev_app_app. simpl. rewrite decide_False by done.
  by rewrite !string_app_assoc.
Qed.

Lemma join_join (dir pre : string) (c : ascii) (name : string) :
  c ≠ "/"%char →
  Path.join (Path.join dir (pre +:+ String c "")) name
  = Path.join dir (pre +:+ String c (String "/" name)).
Proof.
  intros Hc. unfold Path.join at 2 3.
  rewrite <- string_app_assoc, join_after_char by done.
  by rewrite string_app_assoc.
Qed.

(** ** Route derivation *)

(** C6. The route extractor of the comprehensive generator derives a route
    from the path of a file relative to its routing root.  Whatever the
    path of the project, the file [blog/[slug].tsx] below the [pages] root
    gives the route [/blog/:slug], the file [dashboard/page.tsx] below the
    [app] root gives [/dashboard], and [index.tsx] below the [pages] root
    gives the root route; on the sample project holding the three files,
    [analyzeRoutes] lists exactly these routes. *)
Theorem C6_route_derivation :
  (∀ projectRoot : string,
     let pagesDir := Path.join projectRoot "pages" in
     let appDir := Path.join projectRoot "app" in
     NextJS.filePathToRoute
       (Path.relative pagesDir (Path.join (Path.join pagesDir "blog") "[slug].tsx")) "pages"
       = Some "/blog/:slug"
     ∧ NextJS.filePathToRoute
         (Path.relative appDir (Path.join (Path.join appDir "dashboard") "page.tsx")) "app"
       = Some "/dashboard"
     ∧ NextJS.filePathToRoute (Path.relative pagesDir (Path.join pagesDir "index.tsx")) "pages"
       = Some "/")
  ∧ NextJS.arch_routes
      (NextJS.run (fun _ => None) Samples.parser Samples.routesProject
         Samples.noManifest Samples.clock)
    = {| NextJS.routes_pages :=
           Some [ {| NextJS.r_path := "/blog/:slug"; NextJS.r_file := "blog/[slug].tsx";
                     NextJS.r_type := "page" |};
                  {| NextJS.r_path := "/"; NextJS.r_file := "index.tsx";
                     NextJS.r_type := "page" |} ];
         NextJS.routes_app :=
           Some [ {| NextJS.r_path := "/dashboard"; NextJS.r_file := "dashboard/page.tsx";
                     NextJS.r_type := "page" |} ] |}.
Proof.
  split.
  - intros projectRoot pagesDir appDir.
    rewrite (join_join pagesDir "blo" "g") by done.
    rewrite (join_join appDir "dashboar" "d") by done.
    rewrite !relative_join.
    repeat split; vm_compute; reflexivity.
  - vm_compute. reflexivity.
Qed.

(** ** Classification of declared functions *)

(** C1. What the code does where the specification asks for api-handler:
    the upper-case test comes first in both generators, so a declared
    function named [GET], as one named by any other HTTP verb of the fixed
    list, is sorted as a component whatever the path of its file, a path
    with an API segment included.  On the sample project the function [GET]
    of [app/api/users/route.ts] is recorded with type [component] by the
    comprehensive generator (level 3) and by the budget-aware one
    (exports). *)
Theorem C1_GET_sorted_as_component :
  Forall (fun verb =>
            (∀ (filePath : string) (ps : list string) (async exported : bool)
               (a : NextJS.Analysis),
               let func := {| NextJS.fn_name := Some verb; NextJS.fn_params := ps;
                              NextJS.fn_async := async; NextJS.fn_isExported := exported |} in
               NextJS.sortDeclaration filePath func a = Ok (NextJS.push_component a func))
            ∧ Compact.classifyFunction verb = Ok "component")
         Compact.httpVerbs
  ∧ "GET" ∈ Compact.httpVerbs
  ∧ NextJS.isApiRoute (f_path Samples.apiRouteFile) (Some "GET") = true
  ∧ NextJS.sg_type <$>
      NextJS.level3 (NextJS.run (fun _ => None) Samples.parser Samples.apiProject
                       Samples.noManifest Samples.clock) !! "app/api/users/route.ts:GET"
    = Some "component"
  ∧ Compact.ex_type <$>
      Compact.exports (Compact.run Samples.parser Samples.apiProject Samples.noManifest 0)
        !! "app/api/users/route.ts:GET"
    = Some "component".
Proof.
  split; [|split; [by left|]].
  - repeat constructor; intros; vm_compute; reflexivity.
  - repeat split; vm_compute; reflexivity.
Qed.

(** ** The budget-aware generator: what one file and the loop change *)

Section CompactFacts.
Variable parse : Parser.
Variable p : Project.

Lemma run_visitors_imports rel vs a ex a' ex' :
  Compact.run_visitors rel vs a ex = (Ok a', ex') →
  Compact.a_imports a' = Compact.a_imports a ++ filter isExternal (importSources vs).
Proof.
  revert a ex. induction vs as [|v vs IH]; intros a ex H; simpl in H.
  - injection H as -> _. by rewrite app_nil_r.
  - destruct (Compact.visit rel v a ex) as [[a1 ex1]|e] eqn:Hv; [|done].
    rewrite (IH _ _ H). clear IH H.
    assert (Compact.a_imports a1
            = Compact.a_imports a ++ filter isExternal (importSources [v])) as ->.
    { unfold Compact.visit in Hv. unfold importSources. simpl.
      destruct (v_node v); simplify_eq/=; rewrite ?app_nil_r; try done.
      - unfold isExternal. rewrite filter_cons.
        destruct (negb _ && negb _) eqn:Hext; simplify_eq/=; [done|by rewrite app_nil_r].
      - destruct (truthy _); by simplify_eq/=.
      - destruct (truthy id && isExported v); [|by simplify_eq/=].
        destruct (Compact.classifyFunction _); by simplify_eq/=. }
    unfold importSources. simpl.
    by rewrite List.app_nil_r, filter_app, List.app_assoc.
Qed.

(** A file leaves [modules], the manifest and the budget as they are. *)
Lemma analyzeFileCompact_frame f g r g' :
  Compact.analyzeFileCompact parse p f g = (r, g') →
  Compact.modules (Compact.index g') = Compact.modules (Compact.index g)
  ∧ Compact.structure (Compact.index g') = Compact.structure (Compact.index g)
  ∧ Compact.packageJson g' = Compact.packageJson g
  ∧ Compact.maxTokens g' = Compact.maxTokens g.
Proof.
  unfold Compact.analyzeFileCompact. intros H.
  destruct (f_content f) as [code|]; [|by simplify_eq].
  destruct (Compact.maxFileChars <? _)%Z; [by simplify_eq|].
  destruct (parse code _) as [ast|]; [|by simplify_eq].
  destruct (Compact.run_visitors _ _ _ _) as [[a|e] ex]; by simplify_eq.
Qed.

(** A record is the capped form of what the traversal collected. *)
Lemma analyzeFileCompact_record f g a g' :
  Compact.analyzeFileCompact parse p f g = (Ok (Some a), g') →
  ∃ code ast a0 ex,
    f_content f = Some code
    ∧ (Z.of_nat (String.length code) ≤ Compact.maxFileChars)%Z
    ∧ parse code {| plugins := pluginsFor (f_path f); errorRecovery := true |} = Some ast
    ∧ Compact.run_visitors (recordKey p f) (traversal ast)
        {| Compact.a_type := Compact.classifyFile (recordKey p f);
           Compact.a_exports := []; Compact.a_imports := []; Compact.a_features := [] |}
        (Compact.exports (Compact.index g)) = (Ok a0, ex)
    ∧ a = Compact.finish a0.
Proof.
  unfold Compact.analyzeFileCompact, recordKey. intros H.
  destruct (f_content f) as [code|]; [|by simplify_eq].
  destruct (Compact.maxFileChars <? _)%Z eqn:Hlen; [by simplify_eq|].
  destruct (parse code _) as [ast|] eqn:Hp; [|by simplify_eq].
  destruct (Compact.run_visitors _ _ _ _) as [[a0|e] ex] eqn:Hr; simplify_eq.
  exists code, ast, a0, ex. repeat split; try done.
  by apply Z.ltb_ge.
Qed.

Lemma finish_caps a0 :
  length (Compact.a_imports (Compact.finish a0)) ≤ Compact.importCap
  ∧ length (Compact.a_exports (Compact.finish a0)) ≤ Compact.exportCap.
Proof. simpl. rewrite !length_take. lia. Qed.

(** Invariant of the loop: a property of records that every record
    written by [analyzeFileCompact] has. *)
Lemma analyzeLoop_records (P : string → Compact.Analysis → Prop) files g :
  (∀ f g0 a g1 k, Compact.analyzeFileCompact parse p f g0 = (Ok (Some a), g1) → P k a) →
  map_Forall P (Compact.modules (Compact.index g)) →
  map_Forall P (Compact.modules (Compact.index (Compact.analyzeLoop parse p files g))).
Proof.
  intros HP. revert g. induction files as [|f files IH]; intros g Hg; simpl; [done|].
  destruct (Compact.overBudget g); [done|].
  destruct (Compact.analyzeFileCompact parse p f g) as [[[a|]|e] g'] eqn:Hf;
    apply IH; destruct (analyzeFileCompact_frame _ _ _ _ Hf) as (Hm & _); simpl;
    rewrite ?Hm; try done.
  apply map_Forall_insert_2; [by eapply HP|done].
Qed.

Lemma analyzeLoop_size files g :
  size (Compact.modules (Compact.index (Compact.analyzeLoop parse p files g)))
  ≤ size (Compact.modules (Compact.index g)) + length files.
Proof.
  revert g. induction files as [|f files IH]; intros g; simpl; [lia|].
  destruct (Compact.overBudget g); [lia|].
  destruct (Compact.analyzeFileCompact parse p f g) as [[[a|]|e] g'] eqn:Hf;
    destruct (analyzeFileCompact_frame _ _ _ _ Hf) as (Hm & _);
    (etrans; [apply IH|]); simpl; rewrite ?Hm; try lia.
  destruct (Compact.modules (Compact.index g) !! Path.relative (projectPath p) (f_path f))
    eqn:Hk.
  - rewrite (map_size_insert_Some _ _ _ (mk_is_Some _ _ Hk)). lia.
  - rewrite (map_size_insert_None _ _ _ Hk). lia.
Qed.

Lemma analyzeLoop_frame files g :
  Compact.packageJson (Compact.analyzeLoop parse p files g) = Compact.packageJson g
  ∧ Compact.structure (Compact.index (Compact.analyzeLoop parse p files g))
    = Compact.structure (Compact.index g).
Proof.
  revert g. induction files as [|f files IH]; intros g; simpl; [done|].
  destruct (Compact.overBudget g); [done|].
  destruct (Compact.analyzeFileCompact parse p f g) as [[[a|]|e] g'] eqn:Hf;
    destruct (analyzeFileCompact_frame _ _ _ _ Hf) as (_ & Hs & Hp & _);
    match goal with
    | |- context [Compact.analyzeLoop _ _ _ ?g1] => destruct (IH g1) as [-> ->]
    end; simpl; by rewrite ?Hs, ?Hp.
Qed.

(** Once over the threshold the loop is left: the files that follow
    change nothing. *)
Lemma analyzeLoop_stops pre post g :
  Compact.overBudget (Compact.analyzeLoop parse p pre g) = true →
  Compact.analyzeLoop parse p (pre ++ post) g = Compact.analyzeLoop parse p pre g.
Proof.
  revert g. induction pre as [|f pre IH]; intros g H; simpl in *.
  - destruct post; simpl; [done|by rewrite H].
  - destruct (Compact.overBudget g); [done|].
    destruct (Compact.analyzeFileCompact parse p f g) as [[[a|]|e] g']; by apply IH.
Qed.

(** A key under which no file of the walk yields a record keeps the
    record it had. *)
Lemma analyzeLoop_untouched (key : string) files g :
  (∀ f g0, f ∈ files → recordKey p f = key →
           ∀ a, (Compact.analyzeFileCompact parse p f g0).1 ≠ Ok (Some a)) →
  Compact.modules (Compact.index (Compact.analyzeLoop parse p files g)) !! key
  = Compact.modules (Compact.index g) !! key.
Proof.
  revert g. induction files as [|f files IH]; intros g Hno; simpl; [done|].
  destruct (Compact.overBudget g); [done|].
  assert (∀ f0 g0, f0 ∈ files → recordKey p f0 = key →
            ∀ a, (Compact.analyzeFileCompact parse p f0 g0).1 ≠ Ok (Some a)) as Hrest.
  { intros f0 g0 Hin. apply Hno. by right. }
  destruct (Compact.analyzeFileCompact parse p f g) as [[[a|]|e] g'] eqn:Hf;
    destruct (analyzeFileCompact_frame _ _ _ _ Hf) as (Hm & _);
    rewrite (IH _ Hrest); simpl; rewrite ?Hm; try done.
  destruct (decide (recordKey p f = key)) as [Hk|Hk].
  - exfalso. eapply (Hno f g); [by left|done|]. by rewrite Hf.
  - by rewrite lookup_insert_ne.
Qed.

End CompactFacts.

(** ** The comprehensive generator: what one file and the loop change *)

Section NextJSFacts.
Variable parse : Parser.
Variable p : Project.

Lemma named_specs_fold specs a :
  let a' := foldl (fun acc spec =>
              NextJS.push_features
                (NextJS.push_exports acc
                   [{| NextJS.e_name := exported_name spec; NextJS.e_type := "named" |}])
                (if NextJS.isDataFetching (exported_name spec)
                 then [js_text (exported_name spec)] else [])) a specs in
  NextJS.imports a' = NextJS.imports a
  ∧ NextJS.e_name <$> NextJS.exports a'
    = (NextJS.e_name <$> NextJS.exports a) ++ (exported_name <$> specs).
Proof.
  revert a. induction specs as [|sp specs IH]; intros a; simpl.
  - by rewrite List.app_nil_r.
  - destruct (IH (NextJS.push_features
                    (NextJS.push_exports a
                       [{| NextJS.e_name := exported_name sp; NextJS.e_type := "named" |}])
                    (if NextJS.isDataFetching (exported_name sp)
                     then [js_text (exported_name sp)] else []))) as [-> ->].
    simpl. split; [done|]. by rewrite fmap_app, <- List.app_assoc.
Qed.

Lemma sortDeclaration_lists fp func a a' :
  NextJS.sortDeclaration fp func a = Ok a' →
  NextJS.imports a' = NextJS.imports a ∧ NextJS.exports a' = NextJS.exports a.
Proof.
  unfold NextJS.sortDeclaration. intros H.
  destruct (NextJS.isReactComponent _) as [[]|]; simplify_eq/=; [done|].
  destruct (NextJS.isCustomHook _) as [[]|]; simplify_eq/=; [done|].
  destruct (NextJS.isApiRoute _ _); by simplify_eq/=.
Qed.

Lemma sortArrow_lists func a a' :
  NextJS.sortArrow func a = Ok a' →
  NextJS.imports a' = NextJS.imports a ∧ NextJS.exports a' = NextJS.exports a.
Proof.
  unfold NextJS.sortArrow. intros H.
  destruct (NextJS.isReactComponent _) as [[]|]; simplify_eq/=; [done|].
  destruct (NextJS.isCustomHook _) as [[]|]; by simplify_eq/=.
Qed.

(** One visit adds the import source or the exported names of its node. *)
Lemma visit_lists fp v a a' :
  NextJS.visit fp v a = Ok a' →
  NextJS.i_source <$> NextJS.imports a'
    = (NextJS.i_source <$> NextJS.imports a) ++ importSources [v]
  ∧ NextJS.e_name <$> NextJS.exports a'
    = (NextJS.e_name <$> NextJS.exports a) ++ exportedNames [v].
Proof.
  unfold NextJS.visit, importSources, exportedNames. simpl. intros H.
  destruct (v_node v) eqn:Hn; simplify_eq/=; rewrite ?List.app_nil_r; try done.
  - by rewrite fmap_app.
  - by rewrite fmap_app.
  - match goal with
    | |- context [foldl ?f ?a0 ?l] =>
        pose proof (named_specs_fold l a0) as [Hi He]
    end.
    simpl in *. by rewrite Hi, He.
  - by destruct (sortDeclaration_lists _ _ _ _ H) as [-> ->].
  - destruct (v_parent v) as [[]|]; simplify_eq/=; try done.
    destruct (truthy _); simplify_eq/=; [|done].
    by destruct (sortArrow_lists _ _ _ H) as [-> ->].
  - repeat case_decide; by simplify_eq/=.
Qed.

Lemma run_visitors_lists fp vs a a' :
  NextJS.run_visitors fp vs a = Ok a' →
  NextJS.i_source <$> NextJS.imports a'
    = (NextJS.i_source <$> NextJS.imports a) ++ importSources vs
  ∧ NextJS.e_name <$> NextJS.exports a'
    = (NextJS.e_name <$> NextJS.exports a) ++ exportedNames vs.
Proof.
  revert a. induction vs as [|v vs IH]; intros a H; simpl in H.
  - simplify_eq. by rewrite !List.app_nil_r.
  - destruct (NextJS.visit fp v a) as [a1|e] eqn:Hv; [|done].
    destruct (IH _ H) as [-> ->]. destruct (visit_lists _ _ _ _ Hv) as [-> ->].
    unfold importSources, exportedNames. simpl.
    by rewrite !List.app_nil_r, <- !List.app_assoc.
Qed.

End NextJSFacts.

Lemma is_upper_at_throw name i e :
  is_upper_at name i = Throw e → ∃ msg, e = TypeError msg.
Proof. unfold is_upper_at. destruct (JsString.char_at name i); intros; simplify_eq; eauto. Qed.

Section NextJSLoop.
Variable parse : Parser.
Variable p : Project.

Lemma isReactComponent_throw name e :
  NextJS.isReactComponent name = Throw e → ∃ msg, e = TypeError msg.
Proof.
  unfold NextJS.isReactComponent. destruct (truthy name); [|done].
  apply is_upper_at_throw.
Qed.

Lemma isCustomHook_throw name e :
  NextJS.isCustomHook name = Throw e → ∃ msg, e = TypeError msg.
Proof.
  unfold NextJS.isCustomHook. destruct (truthy name); [|done].
  destruct (JsString.startsWith _ _); [|done]. apply is_upper_at_throw.
Qed.

(** The only exception a visitor raises is the TypeError of the
    upper-case tests. *)
Lemma visit_throw fp v a e :
  NextJS.visit fp v a = Throw e → ∃ msg, e = TypeError msg.
Proof.
  unfold NextJS.visit, NextJS.sortDeclaration, NextJS.sortArrow.
  destruct (v_node v); try done.
  - destruct (NextJS.isReactComponent _) as [[]|e1] eqn:Hc; simpl;
      [done| |intros; simplify_eq; by eapply isReactComponent_throw].
    destruct (NextJS.isCustomHook _) as [[]|e2] eqn:Hh; simpl;
      [done| |intros; simplify_eq; by eapply isCustomHook_throw].
    by destruct (NextJS.isApiRoute _ _).
  - destruct (v_parent v) as [[]|]; try done.
    destruct (truthy _); [|done].
    destruct (NextJS.isReactComponent _) as [[]|e1] eqn:Hc; simpl;
      [done| |intros; simplify_eq; by eapply isReactComponent_throw].
    destruct (NextJS.isCustomHook _) as [[]|e2] eqn:Hh; simpl;
      [done|done|intros; simplify_eq; by eapply isCustomHook_throw].
  - by repeat case_decide.
Qed.

(** A declaration of the name [use] makes its visitor throw. *)
Lemma visit_declaresUse fp v a :
  declaresUse v = true → ∃ msg, NextJS.visit fp v a = Throw (TypeError msg).
Proof.
  unfold declaresUse, NextJS.visit. destruct (v_node v); try done.
  - intros ->%bool_decide_eq_true. eexists. reflexivity.
  - destruct (v_parent v) as [[]|]; try done.
    intros ->%bool_decide_eq_true. eexists. reflexivity.
Qed.

Lemma run_visitors_declaresUse fp vs a :
  existsb declaresUse vs = true →
  ∃ msg, NextJS.run_visitors fp vs a = Throw (TypeError msg).
Proof.
  revert a. induction vs as [|v vs IH]; intros a H; simpl in *; [done|].
  destruct (NextJS.visit fp v a) as [a1|e] eqn:Hv; simpl.
  - destruct (declaresUse v) eqn:Hd; simpl in H; [|by apply IH].
    destruct (visit_declaresUse fp v a Hd) as [msg Hm]. congruence.
  - destruct (visit_throw _ _ _ _ Hv) as [msg ->]. eauto.
Qed.

(** A file that cannot be read, that does not parse, or whose traversal
    throws leaves the index as it is. *)
Lemma analyzeStep_cases i f :
  NextJS.analyzeStep parse p i f = i
  ∨ ∃ code ast a,
      f_content f = Some code
      ∧ parse code {| plugins := pluginsFor (f_path f); errorRecovery := false |} = Some ast
      ∧ NextJS.run_visitors (f_path f) (traversal ast) NextJS.emptyAnalysis = Ok a
      ∧ NextJS.analyzeStep parse p i f
        = NextJS.with_level23 i
            (<[recordKey p f := NextJS.moduleSummary (recordKey p f) (f_mtime f) a]>
               (NextJS.level2 i))
            (foldl (NextJS.addSignature (recordKey p f)) (NextJS.level3 i)
               (NextJS.classified a)).
Proof.
  unfold NextJS.analyzeStep, NextJS.analyzeFile, recordKey.
  destruct (f_content f) as [code|]; [|by left].
  destruct (parse code _) as [ast|] eqn:Hp; [|by left].
  destruct (NextJS.run_visitors _ _ _) as [a|e] eqn:Hr; simpl; [|by left].
  right. by exists code, ast, a.
Qed.

Lemma analyzeStep_frame i f :
  NextJS.level1 (NextJS.analyzeStep parse p i f) = NextJS.level1 i
  ∧ NextJS.level4 (NextJS.analyzeStep parse p i f) = NextJS.level4 i.
Proof.
  destruct (analyzeStep_cases i f) as [->|(code & ast & a & _ & _ & _ & ->)]; done.
Qed.

Lemma analyzeSteps_frame i files :
  NextJS.level1 (foldl (NextJS.analyzeStep parse p) i files) = NextJS.level1 i
  ∧ NextJS.level4 (foldl (NextJS.analyzeStep parse p) i files) = NextJS.level4 i.
Proof.
  revert i. induction files as [|f files IH]; intros i; simpl; [done|].
  destruct (IH (NextJS.analyzeStep parse p i f)) as [-> ->].
  apply analyzeStep_frame.
Qed.

(** The records of levels 2 and 3 after a file depend on those before
    it alone. *)
Lemma analyzeStep_content i i' f :
  NextJS.level2 i = NextJS.level2 i' → NextJS.level3 i = NextJS.level3 i' →
  NextJS.level2 (NextJS.analyzeStep parse p i f)
    = NextJS.level2 (NextJS.analyzeStep parse p i' f)
  ∧ NextJS.level3 (NextJS.analyzeStep parse p i f)
    = NextJS.level3 (NextJS.analyzeStep parse p i' f).
Proof.
  intros H2 H3. unfold NextJS.analyzeStep, NextJS.analyzeFile.
  destruct (f_content f) as [code|]; [|done].
  destruct (parse code _) as [ast|]; [|done].
  destruct (NextJS.run_visitors _ _ _) as [a|e]; simpl; [|done].
  by rewrite H2, H3.
Qed.

Lemma analyzeSteps_content i i' files :
  NextJS.level2 i = NextJS.level2 i' → NextJS.level3 i = NextJS.level3 i' →
  NextJS.level2 (foldl (NextJS.analyzeStep parse p) i files)
    = NextJS.level2 (foldl (NextJS.analyzeStep parse p) i' files).
Proof.
  revert i i'. induction files as [|f files IH]; intros i i' H2 H3; simpl; [done|].
  destruct (analyzeStep_content i i' f H2 H3) as [H2' H3']. by apply IH.
Qed.

(** A key under which no file of the walk yields a record keeps the
    record it had. *)
Lemma analyzeSteps_untouched (key : string) files i :
  (∀ f i0, f ∈ files → recordKey p f = key → NextJS.analyzeStep parse p i0 f = i0) →
  NextJS.level2 (foldl (NextJS.analyzeStep parse p) i files) !! key
  = NextJS.level2 i !! key.
Proof.
  revert i. induction files as [|f files IH]; intros i Hno; simpl; [done|].
  rewrite IH by (intros f0 i0 Hin; apply Hno; by right).
  destruct (decide (recordKey p f = key)) as [Hk|Hk].
  - rewrite Hno; [done|by left|done].
  - destruct (analyzeStep_cases i f) as [->|(code & ast & a & _ & _ & _ & ->)]; [done|].
    simpl. by rewrite lookup_insert_ne.
Qed.

End NextJSLoop.

(** ** The budget *)

Lemma patternFacts_manifest p g g' :
  Compact.packageJson g' = Compact.packageJson g →
  Compact.patternFacts p g' = Compact.patternFacts p g.
Proof.
  intros H. unfold Compact.patternFacts, Compact.detectStateManagement,
    Compact.detectStyling, Compact.detectDataFetching, Compact.hasPackage.
  by rewrite H.
Qed.

(** C3. In the budget-aware generator, let the files of the walk be
    [pre ++ post] and let the running token estimate be over 80% of the
    budget once the loop has gone through [pre].  Then the run ends with
    exactly the records accumulated through [pre]: no file of [post]
    acquires a record, the records already there are kept, and the pattern
    facts are still written to the final document. *)
Theorem C3_budget_stop (parse : Parser) (p : Project) (g : Compact.Generator)
    (pre post : list FileEntry) :
  Compact.sourceFiles p = pre ++ post →
  Compact.overBudget (Compact.analyzeLoop parse p pre (Compact.analyzeProject p g)) = true →
  let reached := Compact.analyzeLoop parse p pre (Compact.analyzeProject p g) in
  Compact.modules (Compact.generate parse p g) = Compact.modules (Compact.index reached)
  ∧ (∀ f, f ∈ post →
       Compact.modules (Compact.index reached) !! recordKey p f = None →
       Compact.modules (Compact.generate parse p g) !! recordKey p f = None)
  ∧ Compact.patterns (Compact.generate parse p g) = Some (Compact.patternFacts p g).
Proof.
  intros Hfiles Hover reached.
  assert (Compact.modules (Compact.generate parse p g)
          = Compact.modules (Compact.index reached)) as Hm.
  { unfold Compact.generate, Compact.detectPatterns, Compact.analyzeKeyFiles. simpl.
    by rewrite Hfiles, analyzeLoop_stops. }
  split; [done|]. split.
  - intros f _ Hnone. by rewrite Hm.
  - unfold Compact.generate, Compact.detectPatterns, Compact.analyzeKeyFiles. simpl.
    f_equal. apply patternFacts_manifest.
    by destruct (analyzeLoop_frame parse p (Compact.sourceFiles p)
                   (Compact.analyzeProject p g)) as [-> _].
Qed.

Lemma C3_budget_stop_witness :
  let p := Samples.bigProject in
  let g := Compact.new Samples.noManifest 0 in
  let pre := take 10 (Compact.sourceFiles p) in
  let post := drop 10 (Compact.sourceFiles p) in
  let reached := Compact.analyzeLoop Samples.parser p pre (Compact.analyzeProject p g) in
  (Compact.sourceFiles p = pre ++ post
   ∧ Compact.overBudget reached = true)
  ∧ Compact.modules (Compact.generate Samples.parser p g) = Compact.modules (Compact.index reached)
  ∧ (∀ f, f ∈ post →
       Compact.modules (Compact.index reached) !! recordKey p f = None →
       Compact.modules (Compact.generate Samples.parser p g) !! recordKey p f = None)
  ∧ Compact.patterns (Compact.generate Samples.parser p g) = Some (Compact.patternFacts p g).
Proof.
  intros p g pre post reached.
  assert (Compact.sourceFiles p = pre ++ post) as Hfiles
    by (symmetry; apply take_drop).
  assert (Compact.overBudget reached = true) as Hover
    by (vm_compute; reflexivity).
  split; [by split|].
  exact (C3_budget_stop Samples.parser p g pre post Hfiles Hover).
Defined.

(** C9. In the budget-aware generator the loop runs over the first 50
    entries of the filtered walk.  Whatever the budget and the records the
    generator starts with, a run adds at most 50 records to [modules], and
    only under the paths of these entries; a fresh generator ends with at
    most 50 records. *)
Theorem C9_at_most_fifty_records (parse : Parser) (p : Project) :
  length (Compact.sourceFiles p) ≤ 50
  ∧ (∀ g : Compact.Generator,
       Compact.analyzeKeyFiles parse p g
         = Compact.analyzeLoop parse p
             (take 50 (filter (fun f => negb (JsString.includes (f_path f) "node_modules")
                                        && negb (JsString.includes (f_path f) ".next")
                                        && negb (JsString.includes (f_path f) "dist/"))
                              (Compact.getRelevantFiles (projectPath p) (root p)))) g
       ∧ size (Compact.modules (Compact.generate parse p g))
         ≤ size (Compact.modules (Compact.index g)) + 50
       ∧ dom (Compact.modules (Compact.generate parse p g))
         ⊆ dom (Compact.modules (Compact.index g))
           ∪ list_to_set (recordKey p <$> Compact.sourceFiles p))
  ∧ (∀ (pj : PackageJson) (now : Z),
       size (Compact.modules (Compact.run parse p pj now)) ≤ 50).
Proof.
  assert (length (Compact.sourceFiles p) ≤ 50) as Hlen.
  { unfold Compact.sourceFiles. rewrite length_take. lia. }
  assert (∀ g, size (Compact.modules (Compact.generate parse p g))
               ≤ size (Compact.modules (Compact.index g)) + 50) as Hsize.
  { intros g. unfold Compact.generate, Compact.detectPatterns, Compact.analyzeKeyFiles. simpl.
    etrans; [apply analyzeLoop_size|]. simpl. lia. }
  split; [done|]. split.
  - intros g. split; [done|]. split; [apply Hsize|].
    intros key [a Ha]%elem_of_dom.
    destruct (decide (key ∈ recordKey p <$> Compact.sourceFiles p)) as [Hin|Hout].
    + apply elem_of_union_r. by apply elem_of_list_to_set.
    + apply elem_of_union_l, elem_of_dom. exists a. rewrite <- Ha.
      unfold Compact.generate, Compact.detectPatterns, Compact.analyzeKeyFiles. simpl.
      symmetry.
      rewrite (analyzeLoop_untouched parse p key); [done|].
      intros f g0 Hf Hk. exfalso. apply Hout. rewrite <- Hk.
      by apply list_elem_of_fmap_2.
  - intros pj now. unfold Compact.run. etrans; [apply Hsize|].
    simpl. rewrite map_size_empty. lia.
Qed.


(** ** Records of single files *)

Section Records.
Variable parse : Parser.
Variable p : Project.

(** The record the comprehensive generator writes for a file that is read,
    parsed and traversed without exception, whatever its length. *)
Lemma analyzeStep_record i f code ast a :
  f_content f = Some code →
  parse code {| plugins := pluginsFor (f_path f); errorRecovery := false |} = Some ast →
  NextJS.run_visitors (f_path f) (traversal ast) NextJS.emptyAnalysis = Ok a →
  ∃ r, NextJS.level2 (NextJS.analyzeStep parse p i f) !! recordKey p f = Some r
       ∧ NextJS.ms_imports r = importSources (traversal ast)
       ∧ NextJS.ms_exports r = exportedNames (traversal ast).
Proof.
  intros Hc Hp Hr. unfold NextJS.analyzeStep, NextJS.analyzeFile, recordKey.
  rewrite Hc, Hp, Hr. simpl. eexists. rewrite lookup_insert_eq. split; [done|].
  destruct (run_visitors_lists _ _ _ _ Hr) as [Hi He]. simpl. by rewrite Hi, He.
Qed.

(** The imports the budget-aware generator records for a file: the first
    ten distinct external sources, in order of appearance. *)
Lemma analyzeFileCompact_imports f g a g' :
  Compact.analyzeFileCompact parse p f g = (Ok (Some a), g') →
  ∃ code ast,
    f_content f = Some code
    ∧ parse code {| plugins := pluginsFor (f_path f); errorRecovery := true |} = Some ast
    ∧ Compact.a_imports a
      = take 10 (uniq [] (filter isExternal (importSources (traversal ast)))).
Proof.
  intros H.
  destruct (analyzeFileCompact_record parse p _ _ _ _ H)
    as (code & ast & a0 & ex & Hc & _ & Hp & Hr & ->).
  exists code, ast. repeat split; try done.
  simpl. by rewrite (run_visitors_imports _ _ _ _ _ _ Hr).
Qed.

(** A file above the size limit is given up before the parser is called. *)
Lemma analyzeFileCompact_oversized f g code :
  f_content f = Some code →
  (Compact.maxFileChars < Z.of_nat (String.length code))%Z →
  Compact.analyzeFileCompact parse p f g = (Ok None, g).
Proof.
  intros Hc Hlen. unfold Compact.analyzeFileCompact. rewrite Hc.
  by apply Z.ltb_lt in Hlen as ->.
Qed.

Lemma compact_visit_throw rel v a ex e :
  Compact.visit rel v a ex = Throw e → ∃ msg, e = TypeError msg.
Proof.
  unfold Compact.visit, Compact.classifyFunction.
  destruct (v_node v); try done.
  - by destruct (negb _ && negb _).
  - by destruct (truthy _).
  - destruct (truthy id && isExported v); [|done].
    destruct (negb _); [done|].
    destruct (is_upper_at _ 0) as [[]|e0] eqn:H0; simpl;
      [done| |intros; simplify_eq; by eapply is_upper_at_throw].
    destruct (JsString.startsWith _ _); simpl.
    + destruct (is_upper_at _ 3) as [[]|e3] eqn:H3; simpl;
        [done| |intros; simplify_eq; by eapply is_upper_at_throw].
      by case_bool_decide.
    + by case_bool_decide.
Qed.

Lemma compact_visit_exportsUse rel v a ex :
  exportsUse v = true → ∃ msg, Compact.visit rel v a ex = Throw (TypeError msg).
Proof.
  unfold exportsUse, Compact.visit. destruct (v_node v); try done.
  intros [->%bool_decide_eq_true ->]%andb_true_iff. eexists. reflexivity.
Qed.

Lemma compact_run_visitors_exportsUse rel vs a ex :
  existsb exportsUse vs = true →
  ∃ msg ex', Compact.run_visitors rel vs a ex = (Throw (TypeError msg), ex').
Proof.
  revert a ex. induction vs as [|v vs IH]; intros a ex H; simpl in *; [done|].
  destruct (Compact.visit rel v a ex) as [[a1 ex1]|e] eqn:Hv.
  - destruct (exportsUse v) eqn:Hd; simpl in H; [|by apply IH].
    destruct (compact_visit_exportsUse rel v a ex Hd) as [msg Hm]. congruence.
  - destruct (compact_visit_throw _ _ _ _ _ Hv) as [msg ->]. eauto.
Qed.

(** A module that exports a function named [use] never yields a record in
    the budget-aware generator. *)
Lemma analyzeFileCompact_exportsUse f g code ast :
  f_content f = Some code →
  parse code {| plugins := pluginsFor (f_path f); errorRecovery := true |} = Some ast →
  existsb exportsUse (traversal ast) = true →
  ∀ a, (Compact.analyzeFileCompact parse p f g).1 ≠ Ok (Some a).
Proof.
  intros Hc Hp Hu a. unfold Compact.analyzeFileCompact. rewrite Hc.
  destruct (Compact.maxFileChars <? _)%Z; [done|]. rewrite Hp.
  destruct (compact_run_visitors_exportsUse
              (Path.relative (projectPath p) (f_path f)) (traversal ast)
              {| Compact.a_type := Compact.classifyFile
                                     (Path.relative (projectPath p) (f_path f));
                 Compact.a_exports := []; Compact.a_imports := [];
                 Compact.a_features := [] |}
              (Compact.exports (Compact.index g)) Hu) as (msg & ex' & ->).
  done.
Qed.

(** A module that declares a function or an arrow-function variable named
    [use] leaves the index of the comprehensive generator as it is. *)
Lemma analyzeStep_declaresUse i f code ast :
  f_content f = Some code →
  parse code {| plugins := pluginsFor (f_path f); errorRecovery := false |} = Some ast →
  existsb declaresUse (traversal ast) = true →
  (∃ msg, NextJS.analyzeFile parse p f i = Throw (TypeError msg))
  ∧ NextJS.analyzeStep parse p i f = i.
Proof.
  intros Hc Hp Hu. unfold NextJS.analyzeStep, NextJS.analyzeFile. rewrite Hc, Hp.
  destruct (run_visitors_declaresUse (f_path f) (traversal ast) NextJS.emptyAnalysis Hu)
    as [msg ->].
  simpl. eauto.
Qed.

End Records.

Lemma uniq_elem_of seen xs x : x ∈ uniq seen xs → x ∈ xs.
Proof.
  revert seen. induction xs as [|y xs IH]; intros seen; simpl; [done|].
  case_decide.
  - intros H'. right. by eapply IH.
  - intros [->|H']%elem_of_cons; [by left|]. right. by eapply IH.
Qed.

Lemma uniq_complete seen xs x : x ∈ xs → x ∈ seen ∨ x ∈ uniq seen xs.
Proof.
  revert seen. induction xs as [|y xs IH]; intros seen; simpl; [by intros ?%elem_of_nil|].
  intros [->|Hin]%elem_of_cons.
  - case_decide; [by left|]. right. by left.
  - case_decide; [by apply IH|].
    destruct (IH (y :: seen) Hin) as [[->|Hs]%elem_of_cons|Hu].
    + right. by left.
    + by left.
    + right. by right.
Qed.

(** ** Caps, filter and size limit *)

(** C2, as the code has it. In the budget-aware generator every record of
    [modules] after a run has at most 10 imports and at most 10 exports.
    The comprehensive generator applies no cap: the level 2 record of a
    file lists the source of every import declaration and the name of every
    default export and export specifier of its tree. *)
Theorem C2_caps_budget_aware_only (parse : Parser) (p : Project) :
  (∀ (pj : PackageJson) (now : Z) (key : string) (a : Compact.Analysis),
     Compact.modules (Compact.run parse p pj now) !! key = Some a →
     length (Compact.a_imports a) ≤ 10 ∧ length (Compact.a_exports a) ≤ 10)
  ∧ (∀ (i : NextJS.Index) (f : FileEntry) (code : string) (ast : Node) (a : NextJS.Analysis),
       f_content f = Some code →
       parse code {| plugins := pluginsFor (f_path f); errorRecovery := false |} = Some ast →
       NextJS.run_visitors (f_path f) (traversal ast) NextJS.emptyAnalysis = Ok a →
       ∃ r, NextJS.level2 (NextJS.analyzeStep parse p i f) !! recordKey p f = Some r
            ∧ length (NextJS.ms_imports r) = length (importSources (traversal ast))
            ∧ length (NextJS.ms_exports r) = length (exportedNames (traversal ast))).
Proof.
  split.
  - intros pj now key a Ha.
    assert (map_Forall (fun _ a => length (Compact.a_imports a) ≤ 10
                                   ∧ length (Compact.a_exports a) ≤ 10)
              (Compact.modules (Compact.run parse p pj now))) as Hall.
    { unfold Compact.run, Compact.generate, Compact.detectPatterns, Compact.analyzeKeyFiles.
      simpl. apply analyzeLoop_records.
      - intros f g0 a0 g1 _ Hf.
        destruct (analyzeFileCompact_record parse p _ _ _ _ Hf)
          as (_ & _ & a1 & _ & _ & _ & _ & _ & ->).
        apply finish_caps.
      - simpl. apply map_Forall_empty. }
    by apply (Hall key a).
  - intros i f code ast a Hc Hp Hr.
    destruct (analyzeStep_record parse p i f code ast a Hc Hp Hr) as (r & Hk & Hi & He).
    exists r. by rewrite Hi, He.
Qed.

Lemma C2_caps_budget_aware_only_witness :
  (∃ a, Compact.modules (Compact.run Samples.parser Samples.importsProject
                           Samples.noManifest 0) !! "lib/twelve.js" = Some a
        ∧ length (Compact.a_imports a) ≤ 10 ∧ length (Compact.a_exports a) ≤ 10)
  ∧ (∃ r, NextJS.level2
            (NextJS.analyzeStep Samples.parser Samples.importsProject
               (NextJS.index (NextJS.new Samples.importsProject Samples.noManifest Samples.clock))
               Samples.twelveFile)
            !! recordKey Samples.importsProject Samples.twelveFile = Some r
          ∧ length (NextJS.ms_imports r) = 12).
Proof.
  destruct (C2_caps_budget_aware_only Samples.parser Samples.importsProject) as [Hcap Hall].
  split.
  - destruct (Compact.modules (Compact.run Samples.parser Samples.importsProject
                                 Samples.noManifest 0) !! "lib/twelve.js") as [a|] eqn:Ha;
      [|by vm_compute in Ha].
    exists a. split; [done|]. exact (Hcap Samples.noManifest 0%Z "lib/twelve.js" a Ha).
  - edestruct (Hall (NextJS.index (NextJS.new Samples.importsProject Samples.noManifest
                                     Samples.clock))
                 Samples.twelveFile Samples.twelveImports) as (r & Hr & Hi & _).
    + reflexivity.
    + vm_compute. reflexivity.
    + vm_compute. reflexivity.
    + exists r. split; [exact Hr|]. rewrite Hi. vm_compute. reflexivity.
Defined.

(** C2, the statement for both generators fails: the comprehensive
    generator records all eleven imports of the module [lib/many.js]. *)
Lemma C2_counterexample :
  ∃ r, NextJS.level2 (NextJS.run (fun _ => None) Samples.parser Samples.importsProject
                        Samples.noManifest Samples.clock) !! "lib/many.js" = Some r
       ∧ length (NextJS.ms_imports r) = 11
       ∧ ¬ length (NextJS.ms_imports r) ≤ 10.
Proof.
  eexists. split; [vm_compute; reflexivity|]. split; [reflexivity|]. simpl. lia.
Qed.

(** C4, as the code has it. In the budget-aware generator the imports of a
    record are the first ten distinct external module sources of the tree,
    in order of appearance: none of them begins with a dot or a slash, each
    is the source of an import declaration, and every external source is
    among them when the tree has at most ten distinct ones.  The
    comprehensive generator does not filter: its record lists the source of
    every import declaration, relative ones included. *)
Theorem C4_imports_external_budget_aware_only (parse : Parser) (p : Project) :
  (∀ (f : FileEntry) (g g' : Compact.Generator) (a : Compact.Analysis),
     Compact.analyzeFileCompact parse p f g = (Ok (Some a), g') →
     ∃ code ast,
       f_content f = Some code
       ∧ parse code {| plugins := pluginsFor (f_path f); errorRecovery := true |} = Some ast
       ∧ Compact.a_imports a
         = take 10 (uniq [] (filter isExternal (importSources (traversal ast))))
       ∧ (∀ s, s ∈ Compact.a_imports a →
               isExternal s = true ∧ s ∈ importSources (traversal ast))
       ∧ (length (uniq [] (filter isExternal (importSources (traversal ast)))) ≤ 10 →
          ∀ s, s ∈ importSources (traversal ast) → isExternal s = true →
               s ∈ Compact.a_imports a))
  ∧ (∀ (i : NextJS.Index) (f : FileEntry) (code : string) (ast : Node) (a : NextJS.Analysis),
       f_content f = Some code →
       parse code {| plugins := pluginsFor (f_path f); errorRecovery := false |} = Some ast →
       NextJS.run_visitors (f_path f) (traversal ast) NextJS.emptyAnalysis = Ok a →
       ∃ r, NextJS.level2 (NextJS.analyzeStep parse p i f) !! recordKey p f = Some r
            ∧ NextJS.ms_imports r = importSources (traversal ast)).
Proof.
  split.
  - intros f g g' a Hf.
    destruct (analyzeFileCompact_imports parse p _ _ _ _ Hf) as (code & ast & Hc & Hp & Hi).
    exists code, ast. repeat split; try done.
    + rewrite Hi in H. apply subseteq_take, uniq_elem_of, list_elem_of_filter in H.
      destruct H as [H _]. by apply Is_true_true.
    + rewrite Hi in H. apply subseteq_take, uniq_elem_of, list_elem_of_filter in H.
      by destruct H.
    + intros Hlen s Hs Hext. rewrite Hi, take_ge by done.
      destruct (uniq_complete [] (filter isExternal (importSources (traversal ast))) s)
        as [Hnil|Hu]; [|by apply elem_of_nil in Hnil|done].
      apply list_elem_of_filter. split; [by apply Is_true_true|done].
  - intros i f code ast a Hc Hp Hr.
    destruct (analyzeStep_record parse p i f code ast a Hc Hp Hr) as (r & Hk & Hi & _).
    by exists r.
Qed.

Lemma C4_imports_external_budget_aware_only_witness :
  (∃ a g', Compact.analyzeFileCompact Samples.parser Samples.importsProject Samples.manyFile
             (Compact.new Samples.noManifest 0) = (Ok (Some a), g')
           ∧ Compact.a_imports a
             = ["m01"; "m02"; "m04"; "m05"; "m06"; "m07"; "m08"; "m09"; "m10"; "m11"])
  ∧ (∃ r, NextJS.level2
            (NextJS.analyzeStep Samples.parser Samples.importsProject
               (NextJS.index (NextJS.new Samples.importsProject Samples.noManifest Samples.clock))
               Samples.manyFile)
            !! recordKey Samples.importsProject Samples.manyFile = Some r
          ∧ NextJS.ms_imports r
            = ["m01"; "m02"; "./local"; "m04"; "m05"; "m06"; "m07"; "m08"; "m09"; "m10"; "m11"]).
Proof.
  destruct (C4_imports_external_budget_aware_only Samples.parser Samples.importsProject)
    as [Hcompact Hnext].
  split.
  - destruct (Compact.analyzeFileCompact Samples.parser Samples.importsProject
                Samples.manyFile (Compact.new Samples.noManifest 0)) as [[[a|]|e] g'] eqn:Hf;
      [|by vm_compute in Hf..].
    exists a, g'. split; [done|].
    destruct (Hcompact Samples.manyFile (Compact.new Samples.noManifest 0) g' a Hf)
      as (code & ast & Hc & Hp & Hi & _).
    injection Hc as <-. vm_compute in Hp. injection Hp as <-.
    rewrite Hi. vm_compute. reflexivity.
  - edestruct (Hnext (NextJS.index (NextJS.new Samples.importsProject Samples.noManifest
                                      Samples.clock))
                 Samples.manyFile Samples.manyImports) as (r & Hr & Hi).
    + reflexivity.
    + vm_compute. reflexivity.
    + vm_compute. reflexivity.
    + exists r. split; [exact Hr|]. rewrite Hi. vm_compute. reflexivity.
Defined.

(** C4, the statement for both generators fails: the comprehensive
    generator records the relative import [./local] of the module
    [lib/many.js]; and the budget-aware generator leaves out the external
    imports [m11] and [m12] of the module [lib/twelve.js], past its cap. *)
Lemma C4_counterexample :
  (∃ r, NextJS.level2 (NextJS.run (fun _ => None) Samples.parser Samples.importsProject
                         Samples.noManifest Samples.clock) !! "lib/many.js" = Some r
        ∧ "./local" ∈ NextJS.ms_imports r
        ∧ JsString.startsWith "./local" "." = true)
  ∧ (∃ a, Compact.modules (Compact.run Samples.parser Samples.importsProject
                             Samples.noManifest 0) !! "lib/twelve.js" = Some a
          ∧ isExternal "m11" = true
          ∧ "m11" ∉ Compact.a_imports a).
Proof.
  split.
  - eexists. split; [vm_compute; reflexivity|]. split; [|reflexivity].
    do 2 right. left.
  - eexists. split; [vm_compute; reflexivity|]. split; [reflexivity|].
    intros H. repeat (apply elem_of_cons in H as [H|H]; [discriminate H|]).
    by apply elem_of_nil in H.
Qed.

(** C5, as the code has it. In the budget-aware generator a file whose
    content is longer than 10000 characters is given up before any parse:
    whatever the parser would answer, [analyzeFileCompact] returns null and
    changes nothing, and when no other file of the walk has its path the run
    leaves no record under it.  The comprehensive generator has no size
    limit: a file that is read, parsed and traversed gets its level 2 record
    whatever its length. *)
Theorem C5_size_limit_budget_aware_only (parse : Parser) (p : Project) :
  (∀ (f : FileEntry) (g : Compact.Generator) (code : string),
     f_content f = Some code →
     (10000 < Z.of_nat (String.length code))%Z →
     (∀ parse' : Parser, Compact.analyzeFileCompact parse' p f g = (Ok None, g))
     ∧ ((∀ f', f' ∈ Compact.sourceFiles p → recordKey p f' = recordKey p f → f' = f) →
        Compact.modules (Compact.generate parse p g) !! recordKey p f
        = Compact.modules (Compact.index g) !! recordKey p f))
  ∧ (∀ (i : NextJS.Index) (f : FileEntry) (code : string) (ast : Node) (a : NextJS.Analysis),
       f_content f = Some code →
       parse code {| plugins := pluginsFor (f_path f); errorRecovery := false |} = Some ast →
       NextJS.run_visitors (f_path f) (traversal ast) NextJS.emptyAnalysis = Ok a →
       is_Some (NextJS.level2 (NextJS.analyzeStep parse p i f) !! recordKey p f)).
Proof.
  split.
  - intros f g code Hc Hlen. split.
    + intros parse'. by apply analyzeFileCompact_oversized with code.
    + intros Huniq.
      unfold Compact.generate, Compact.detectPatterns, Compact.analyzeKeyFiles. simpl.
      rewrite (analyzeLoop_untouched parse p (recordKey p f)); [done|].
      intros f' g0 Hin Hk a. rewrite (Huniq f' Hin Hk).
      by rewrite (analyzeFileCompact_oversized parse p f g0 code).
  - intros i f code ast a Hc Hp Hr.
    destruct (analyzeStep_record parse p i f code ast a Hc Hp Hr) as (r & Hk & _).
    by exists r.
Qed.

Lemma C5_size_limit_budget_aware_only_witness :
  (Compact.analyzeFileCompact Samples.parser Samples.hugeProject Samples.hugeFile
     (Compact.new Samples.noManifest 0) = (Ok None, Compact.new Samples.noManifest 0)
   ∧ Compact.modules (Compact.run Samples.parser Samples.hugeProject Samples.noManifest 0)
       !! "lib/huge.js" = None)
  ∧ is_Some (NextJS.level2
               (NextJS.analyzeStep Samples.parser Samples.hugeProject
                  (NextJS.index (NextJS.new Samples.hugeProject Samples.noManifest Samples.clock))
                  Samples.hugeFile)
               !! recordKey Samples.hugeProject Samples.hugeFile).
Proof.
  destruct (C5_size_limit_budget_aware_only Samples.parser Samples.hugeProject)
    as [Hcompact Hnext].
  split.
  - destruct (Hcompact Samples.hugeFile (Compact.new Samples.noManifest 0) Samples.hugeImport)
      as [Hnull Hrun].
    + reflexivity.
    + vm_compute. reflexivity.
    + split; [apply Hnull|].
      unfold Compact.run.
      change "lib/huge.js" with (recordKey Samples.hugeProject Samples.hugeFile).
      rewrite Hrun; [reflexivity|].
      intros f' Hin _. vm_compute in Hin. by apply list_elem_of_singleton in Hin.
  - eapply (Hnext _ Samples.hugeFile Samples.hugeImport).
    + reflexivity.
    + vm_compute. reflexivity.
    + vm_compute. reflexivity.
Defined.

(** C5, the statement for both generators fails: the comprehensive
    generator parses the module [lib/huge.js] of 10010 characters and
    records it. *)
Lemma C5_counterexample :
  (10000 < Z.of_nat (String.length Samples.hugeImport))%Z
  ∧ f_content Samples.hugeFile = Some Samples.hugeImport
  ∧ NextJS.sourceFiles Samples.hugeProject = [Samples.hugeFile]
  ∧ is_Some (NextJS.level2 (NextJS.run (fun _ => None) Samples.parser Samples.hugeProject
                              Samples.noManifest Samples.clock) !! "lib/huge.js").
Proof.
  split; [vm_compute; reflexivity|]. split; [reflexivity|].
  split; [vm_compute; reflexivity|].
  vm_compute. eauto.
Qed.

(** ** The name [use] *)

Lemma nextjs_generate_level2 parseJson parse p clock g :
  NextJS.level2 (NextJS.generate parseJson parse p clock g)
  = NextJS.level2 (foldl (NextJS.analyzeStep parse p)
                     (NextJS.index (NextJS.generateLevel1 p clock g))
                     (NextJS.sourceFiles p)).
Proof. reflexivity. Qed.

(** C10, as the code has it. The hook test reads the fourth character of a
    name that starts with [use]; on the name [use] itself there is none and
    the test raises a TypeError, in [classifyFunction] of the budget-aware
    generator and in [isCustomHook] of the comprehensive one.  In the
    comprehensive generator a module whose tree declares a function or an
    arrow-function variable named [use] makes [analyzeFile] throw, and the
    run leaves no level 2 record under its path.  In the budget-aware
    generator the same holds for a module that declares a function named
    [use] inside an export declaration: only exported function declarations
    are classified there. *)
Theorem C10_use_raises_type_error (parse : Parser) (p : Project) :
  (∃ msg, Compact.classifyFunction "use" = Throw (TypeError msg)
          ∧ NextJS.isCustomHook (Some "use") = Throw (TypeError msg))
  ∧ (∀ (f : FileEntry) (code : string) (ast : Node),
       f_content f = Some code →
       parse code {| plugins := pluginsFor (f_path f); errorRecovery := false |} = Some ast →
       existsb declaresUse (traversal ast) = true →
       (∀ i, ∃ msg, NextJS.analyzeFile parse p f i = Throw (TypeError msg))
       ∧ ((∀ f', f' ∈ NextJS.sourceFiles p → recordKey p f' = recordKey p f → f' = f) →
          ∀ parseJson pj clock,
            NextJS.level2 (NextJS.run parseJson parse p pj clock) !! recordKey p f = None))
  ∧ (∀ (f : FileEntry) (code : string) (ast : Node),
       f_content f = Some code →
       parse code {| plugins := pluginsFor (f_path f); errorRecovery := true |} = Some ast →
       existsb exportsUse (traversal ast) = true →
       (∀ g a, (Compact.analyzeFileCompact parse p f g).1 ≠ Ok (Some a))
       ∧ ((∀ f', f' ∈ Compact.sourceFiles p → recordKey p f' = recordKey p f → f' = f) →
          ∀ pj now,
            Compact.modules (Compact.run parse p pj now) !! recordKey p f = None)).
Proof.
  split; [eexists; split; reflexivity|]. split.
  - intros f code ast Hc Hp Hu. split.
    + intros i. by destruct (analyzeStep_declaresUse parse p i f code ast Hc Hp Hu).
    + intros Huniq parseJson pj clock. unfold NextJS.run.
      rewrite nextjs_generate_level2, (analyzeSteps_untouched parse p (recordKey p f));
        [done|].
      intros f' i0 Hin Hk. rewrite (Huniq f' Hin Hk).
      by destruct (analyzeStep_declaresUse parse p i0 f code ast Hc Hp Hu).
  - intros f code ast Hc Hp Hu. split.
    + intros g. by apply analyzeFileCompact_exportsUse with code ast.
    + intros Huniq pj now.
      unfold Compact.run, Compact.generate, Compact.detectPatterns, Compact.analyzeKeyFiles.
      simpl. rewrite (analyzeLoop_untouched parse p (recordKey p f)); [done|].
      intros f' g0 Hin Hk. rewrite (Huniq f' Hin Hk).
      by apply analyzeFileCompact_exportsUse with code ast.
Qed.

(** In a sample project, no other file of the walk has the path of the
    given one. *)
Ltac unique_in_walk :=
  let f' := fresh "f'" in
  let Hin := fresh "Hin" in
  let Hk := fresh "Hk" in
  intros f' Hin Hk; vm_compute in Hin;
  repeat (apply elem_of_cons in Hin as [->|Hin]);
  try reflexivity; try (by vm_compute in Hk); by apply elem_of_nil in Hin.

Lemma C10_use_raises_type_error_witness :
  (∀ parseJson pj clock,
     NextJS.level2 (NextJS.run parseJson Samples.parser Samples.useProject pj clock)
       !! "lib/plain.js" = None)
  ∧ (∀ parseJson pj clock,
       NextJS.level2 (NextJS.run parseJson Samples.parser Samples.useProject pj clock)
         !! "lib/arrow.js" = None)
  ∧ (∀ pj now,
       Compact.modules (Compact.run Samples.parser Samples.useProject pj now)
         !! "lib/exported.js" = None).
Proof.
  destruct (C10_use_raises_type_error Samples.parser Samples.useProject)
    as (_ & Hnext & Hcompact).
  split; [|split].
  - destruct (Hnext (Samples.useFile "plain.js" "function use() {}") "function use() {}"
                (Program [FunctionDeclaration (Some "use") [] false [Samples.block]]))
      as [_ Hrun]; [reflexivity..|].
    intros parseJson pj clock. apply Hrun. unique_in_walk.
  - destruct (Hnext (Samples.useFile "arrow.js" "const use = () => 1") "const use = () => 1"
                (Program [VariableDeclaration
                            [VariableDeclarator (Identifier "use")
                               (Some (ArrowFunctionExpression [] false [OtherNode []]))]]))
      as [_ Hrun]; [reflexivity..|].
    intros parseJson pj clock. apply Hrun. unique_in_walk.
  - destruct (Hcompact (Samples.useFile "exported.js" "export function use() {}")
                "export function use() {}"
                (Program [ExportNamedDeclaration
                            (Some (FunctionDeclaration (Some "use") [] false [Samples.block]))
                            []]))
      as [_ Hrun]; [reflexivity..|].
    intros pj now. apply Hrun. unique_in_walk.
Defined.

(** C10, the statement for both generators fails: in the budget-aware
    generator the module [lib/plain.js], which declares a function named [use] without
    exporting it, and the module [lib/arrow.js], which binds an arrow
    function to a variable named [use], both get their record. *)
Lemma C10_counterexample :
  let opts := {| plugins := ["jsx"]; errorRecovery := true |} in
  let run := Compact.run Samples.parser Samples.useProject Samples.noManifest 0 in
  (∃ ast, Samples.parser "function use() {}" opts = Some ast
          ∧ existsb declaresUse (traversal ast) = true)
  ∧ (∃ ast, Samples.parser "const use = () => 1" opts = Some ast
            ∧ existsb declaresUse (traversal ast) = true)
  ∧ is_Some (Compact.modules run !! "lib/plain.js")
  ∧ is_Some (Compact.modules run !! "lib/arrow.js").
Proof.
  repeat split; try (eexists; split; vm_compute; reflexivity); vm_compute; eauto.
Qed.


(** ** The deep-detail map *)

Lemma nextjs_generate_level4 parseJson parse p clock g :
  NextJS.level4 (NextJS.generate parseJson parse p clock g)
  = NextJS.level4 (NextJS.index g) ∪ NextJS.previousLevel4 parseJson p.
Proof.
  transitivity
    (NextJS.level4 (foldl (NextJS.analyzeStep parse p)
                      (NextJS.index (NextJS.generateLevel1 p clock g))
                      (NextJS.sourceFiles p))
     ∪ NextJS.previousLevel4 parseJson p); [reflexivity|].
  by destruct (analyzeSteps_frame parse p (NextJS.index (NextJS.generateLevel1 p clock g))
                 (NextJS.sourceFiles p)) as [_ ->].
Qed.

(** Under each case of the specification's description the code computes
    the map described. *)
Lemma previousLevel4_spec parseJson p prior :
  SpecPriorDetail parseJson p prior → NextJS.previousLevel4 parseJson p = prior.
Proof.
  unfold NextJS.previousLevel4.
  intros [Hl|n m Hl|n m text Hl Hp|n m text prev l4 Hl Hp Hk]; rewrite Hl.
  - done.
  - done.
  - by rewrite Hp.
  - by rewrite Hp, Hk.
Qed.

(** Under each case no directory stands at the path of the output file:
    the write of it fails for want of permission only. *)
Lemma prior_output_write parseJson writable p prior :
  SpecPriorDetail parseJson p prior →
  NextJS.writeFileSync writable p "codebase-index.json"
  = if writable "codebase-index.json" then Ok tt else Throw IOError.
Proof.
  unfold NextJS.writeFileSync.
  by intros [Hl|n m Hl|n m text Hl Hp|n m text prev l4 Hl Hp Hk]; rewrite Hl.
Qed.

(** C7. Let [prior] be the deep-detail map of the prior output file as the
    specification describes it: the [level4] object of the parsed file, or
    the empty map when the file is missing, cannot be read or does not
    parse.  Then [saveIndex] computes this map, and the [level4] it leaves
    in the index is the merge of [prior] with the map of the current run,
    an entry of the current run winning over a prior entry with the same
    key.  Reading and parsing the prior file never end the run: when the
    JSON file may be written and the write of the formatted file goes
    through, [generate()] returns, and whenever it returns, the index it
    returns holds the merged map. *)
Theorem C7_deep_detail_merge (parseJson : JsonParser) (parse : Parser)
    (writable : string → bool) (p : Project)
    (clock : NextJS.Clock) (g : NextJS.Generator) (prior : gmap string JSON) :
  SpecPriorDetail parseJson p prior →
  NextJS.previousLevel4 parseJson p = prior
  ∧ NextJS.level4 (NextJS.index (NextJS.saveIndex parseJson p g))
    = NextJS.level4 (NextJS.index g) ∪ prior
  ∧ (∀ k, NextJS.level4 (NextJS.index (NextJS.saveIndex parseJson p g)) !! k
          = match NextJS.level4 (NextJS.index g) !! k with
            | Some v => Some v
            | None => prior !! k
            end)
  ∧ (writable "codebase-index.json" = true →
     NextJS.saveFormattedIndex writable p = Ok tt →
     ∃ i, NextJS.generateOutcome parseJson parse writable p clock g = Ok i
          ∧ NextJS.level4 i = NextJS.level4 (NextJS.index g) ∪ prior)
  ∧ (∀ i, NextJS.generateOutcome parseJson parse writable p clock g = Ok i →
          NextJS.level4 i = NextJS.level4 (NextJS.index g) ∪ prior).
Proof.
  intros Hprior.
  pose proof (previousLevel4_spec _ _ _ Hprior) as Hprev.
  pose proof (prior_output_write _ writable _ _ Hprior) as Hwrite.
  split; [done|]. split; [|split; [|split]].
  - simpl. by rewrite Hprev.
  - intros k. simpl. rewrite Hprev, lookup_union.
    destruct (NextJS.level4 (NextJS.index g) !! k), (prior !! k); done.
  - intros Hjson Hmd. exists (NextJS.generate parseJson parse p clock g). split.
    + unfold NextJS.generateOutcome, NextJS.saveIndexOutcome.
      rewrite Hwrite, Hjson. simpl. by rewrite Hmd.
    + by rewrite nextjs_generate_level4, Hprev.
  - intros i. unfold NextJS.generateOutcome.
    destruct (NextJS.saveIndexOutcome writable p) as [[]|e]; simpl; [|done].
    intros [= <-]. by rewrite nextjs_generate_level4, Hprev.
Qed.

Lemma C7_deep_detail_merge_witness :
  SpecPriorDetail Samples.jsonParser Samples.priorProject Samples.priorDetail
  ∧ ∃ i, NextJS.generateOutcome Samples.jsonParser Samples.parser (fun _ => true)
           Samples.priorProject Samples.clock Samples.detailedGenerator = Ok i
         ∧ NextJS.level4 i = <["lib/b.ts:g" := JString "new"]> ∅ ∪ Samples.priorDetail.
Proof.
  assert (SpecPriorDetail Samples.jsonParser Samples.priorProject Samples.priorDetail)
    as Hprior.
  { eapply (prior_parsed _ _ "codebase-index.json" 0 Samples.priorText).
    - vm_compute. reflexivity.
    - unfold Samples.jsonParser. rewrite decide_True by done. reflexivity.
    - apply lookup_insert_eq. }
  split; [exact Hprior|].
  exact (proj1 (proj2 (proj2 (proj2 (C7_deep_detail_merge Samples.jsonParser Samples.parser
    (fun _ => true) Samples.priorProject Samples.clock Samples.detailedGenerator
    Samples.priorDetail Hprior)))) eq_refl eq_refl).
Defined.

Example deep_detail_collision :
  NextJS.level4 (NextJS.generate Samples.jsonParser Samples.parser Samples.priorProject
                   Samples.clock Samples.detailedGenerator) !! "lib/b.ts:g"
  = Some (JString "new")
  ∧ NextJS.level4 (NextJS.generate Samples.jsonParser Samples.parser Samples.priorProject
                     Samples.clock Samples.detailedGenerator) !! "lib/a.ts:f"
    = Some (JString "kept").
Proof. split; vm_compute; reflexivity. Qed.

(** A directory at the path of the output file is outside the cases of
    the specification: the prior map is empty there too, but the write is
    refused and [generate()] rejects, whatever the permissions. *)
Example output_path_is_a_directory parseJson parse writable clock g :
  NextJS.previousLevel4 parseJson Samples.blockedProject = ∅
  ∧ NextJS.generateOutcome parseJson parse writable Samples.blockedProject clock g
    = Throw IOError.
Proof. split; reflexivity. Qed.

(** A run in a project that may not be written to rejects as well. *)
Example output_not_writable parseJson parse clock g :
  NextJS.generateOutcome parseJson parse (fun _ => false) Samples.priorProject clock g
  = Throw IOError.
Proof. reflexivity. Qed.

(** ** Two runs on one file system *)

Section Determinism.
Variable parse : Parser.
Variable p : Project.

(** The generation time stamp rides along: nothing of a file's analysis
    reads it. *)
Lemma analyzeFileCompact_restamp f g t :
  Compact.analyzeFileCompact parse p f (restamp t g)
  = ((Compact.analyzeFileCompact parse p f g).1,
     restamp t (Compact.analyzeFileCompact parse p f g).2).
Proof.
  unfold Compact.analyzeFileCompact.
  destruct (f_content f) as [code|]; [|done].
  destruct (Compact.maxFileChars <? _)%Z; [done|].
  destruct (parse code _) as [ast|]; [|done]. simpl.
  by destruct (Compact.run_visitors _ _ _ _) as [[a|e] ex].
Qed.

Lemma analyzeLoop_restamp files g t :
  Compact.analyzeLoop parse p files (restamp t g)
  = restamp t (Compact.analyzeLoop parse p files g).
Proof.
  revert g. induction files as [|f files IH]; intros g; simpl; [done|].
  change (Compact.overBudget (restamp t g)) with (Compact.overBudget g).
  destruct (Compact.overBudget g); [done|].
  rewrite analyzeFileCompact_restamp.
  destruct (Compact.analyzeFileCompact parse p f g) as [[[a|]|e] g']; simpl;
    try apply IH.
  by rewrite <- IH.
Qed.

Lemma compact_run_restamp pj t1 t2 :
  Compact.modules (Compact.run parse p pj t2) = Compact.modules (Compact.run parse p pj t1)
  ∧ Compact.structure (Compact.run parse p pj t2)
    = Compact.structure (Compact.run parse p pj t1).
Proof.
  unfold Compact.run, Compact.generate, Compact.detectPatterns, Compact.analyzeKeyFiles.
  change (Compact.analyzeProject p (Compact.new pj t2))
    with (restamp t2 (Compact.analyzeProject p (Compact.new pj t1))).
  by rewrite analyzeLoop_restamp.
Qed.

(** Directory records of two clocks agree once their time stamps are
    erased. *)
Lemma level1_dir_erase clock1 clock2 st1 st2 d :
  st1.1 = st2.1 → eraseTime <$> st1.2 = eraseTime <$> st2.2 →
  (NextJS.level1_dir p clock1 st1 d).1 = (NextJS.level1_dir p clock2 st2 d).1
  ∧ eraseTime <$> (NextJS.level1_dir p clock1 st1 d).2
    = eraseTime <$> (NextJS.level1_dir p clock2 st2 d).2.
Proof.
  intros Hv Hm. unfold NextJS.level1_dir. rewrite Hv.
  case_decide; [done|]. simpl. split; [done|].
  by rewrite !fmap_insert, Hm.
Qed.

Lemma level1_dirs_erase clock1 clock2 dirs st1 st2 :
  st1.1 = st2.1 → eraseTime <$> st1.2 = eraseTime <$> st2.2 →
  (foldl (NextJS.level1_dir p clock1) st1 dirs).1
  = (foldl (NextJS.level1_dir p clock2) st2 dirs).1
  ∧ eraseTime <$> (foldl (NextJS.level1_dir p clock1) st1 dirs).2
    = eraseTime <$> (foldl (NextJS.level1_dir p clock2) st2 dirs).2.
Proof.
  revert st1 st2. induction dirs as [|d dirs IH]; intros st1 st2 Hv Hm; simpl; [done|].
  destruct (level1_dir_erase clock1 clock2 st1 st2 d Hv Hm) as [Hv' Hm'].
  by apply IH.
Qed.

Lemma level1_bases_erase clock1 clock2 bases st1 st2 :
  st1.1 = st2.1 → eraseTime <$> st1.2 = eraseTime <$> st2.2 →
  eraseTime <$> (foldl (NextJS.level1_base p clock1) st1 bases).2
  = eraseTime <$> (foldl (NextJS.level1_base p clock2) st2 bases).2.
Proof.
  revert st1 st2. induction bases as [|b bases IH]; intros st1 st2 Hv Hm; simpl; [done|].
  apply IH; unfold NextJS.level1_base; destruct (lookup_rel p b); try done;
    by apply level1_dirs_erase.
Qed.

Lemma nextjs_run_level1 parseJson pj clock :
  NextJS.level1 (NextJS.run parseJson parse p pj clock)
  = (foldl (NextJS.level1_base p clock) (∅, ∅) NextJS.nextjsDirectories).2.
Proof.
  transitivity
    (NextJS.level1 (foldl (NextJS.analyzeStep parse p)
                      (NextJS.index (NextJS.generateLevel1 p clock (NextJS.new p pj clock)))
                      (NextJS.sourceFiles p))); [reflexivity|].
  by destruct (analyzeSteps_frame parse p
                 (NextJS.index (NextJS.generateLevel1 p clock (NextJS.new p pj clock)))
                 (NextJS.sourceFiles p)) as [-> _].
Qed.

End Determinism.

(** ** The project directory after the output files were written *)

Lemma flat_map_filter_skip {A B} (f : A → list B) (P : A → bool) (l : list A) :
  (∀ x, x ∈ l → P x = false → f x = []) →
  flat_map f (List.filter P l) = flat_map f l.
Proof.
  induction l as [|x l IH]; intros H; simpl; [done|].
  rewrite <- IH by (intros y Hy; apply H; by right).
  destruct (P x) eqn:HP; simpl; [done|].
  by rewrite (H x) by (done || by left).
Qed.

Lemma filter_flat_map {A B} (P : B → Prop) `{∀ y, Decision (P y)}
    (f : A → list B) (l : list A) :
  filter P (flat_map f l) = flat_map (fun x => filter P (f x)) l.
Proof. induction l as [|x l IH]; simpl; [done|]. by rewrite filter_app, IH. Qed.

Lemma find_entry_filter (P : Entry → bool) (name : string) (l : list Entry) :
  (∀ e, entry_name e = name → P e = true) →
  find_entry name (List.filter P l) = find_entry name l.
Proof.
  intros HP. induction l as [|e l IH]; simpl; [done|].
  destruct (P e) eqn:He; simpl; rewrite IH; [done|].
  case_decide as Hn; [|done]. by rewrite (HP e Hn) in He.
Qed.

Lemma resolve_first (s : string) (rest : list string) (its its' : list Entry) :
  find_entry s its' = find_entry s its →
  resolve (s :: rest) its' = resolve (s :: rest) its.
Proof. intros H. destruct rest; simpl; by rewrite H. Qed.

Lemma foldl_Forall_ext {A B} (f g : A → B → A) (l : list B) (a : A) :
  Forall (fun x => ∀ a, f a x = g a x) l → foldl f a l = foldl g a l.
Proof.
  intros H. revert a. induction H as [|x l Hx _ IH]; intros a; simpl; [done|].
  by rewrite Hx, IH.
Qed.

Lemma string_length_app (a b : string) :
  String.length (a +:+ b) = String.length a + String.length b.
Proof.
  induction a as [|x a IH]; [done|].
  rewrite string_app_cons. simpl. by rewrite IH.
Qed.

Lemma last_index_app (c : ascii) (a b : string) :
  JsString.last_index c (a +:+ b)
  = match JsString.last_index c b with
    | Some i => Some (String.length a + i)
    | None => JsString.last_index c a
    end.
Proof.
  induction a as [|x a IH];
    [rewrite string_app_nil; by destruct (JsString.last_index c b)|].
  rewrite string_app_cons. simpl. rewrite IH.
  by destruct (JsString.last_index c b).
Qed.

Lemma rev_app_acc (s acc : string) : String.rev_app s acc = String.rev s +:+ acc.
Proof.
  unfold String.rev. revert acc. induction s as [|x s IH]; intros acc; simpl; [done|].
  rewrite (IH (String x acc)), (IH (String x "")).
  by rewrite string_app_assoc.
Qed.

Lemma string_app_nil_r (s : string) : s +:+ "" = s.
Proof. induction s as [|x s IH]; [done|]. by rewrite string_app_cons, IH. Qed.

Lemma rev_rev_app (s acc : string) : String.rev (String.rev_app s acc) = String.rev acc +:+ s.
Proof.
  revert acc. induction s as [|x s IH]; intros acc; simpl.
  - by rewrite string_app_nil_r.
  - rewrite IH. unfold String.rev at 1. simpl.
    by rewrite rev_app_acc, string_app_assoc.
Qed.

(** A directory path with its closing slash is some path followed by a
    slash. *)
Lemma dir_base_slash (dir : string) : ∃ d, Path.dir_base dir = d +:+ "/".
Proof.
  unfold Path.dir_base, JsString.endsWith.
  destruct (JsString.startsWith (String.rev dir) (String.rev "/")) eqn:H; [|by eexists].
  pose proof (rev_rev_app dir "" : String.rev (String.rev dir) = dir) as Hrr.
  destruct (String.rev dir) as [|x r]; [done|].
  simpl in H. case_decide as Hx; [|done]. subst x.
  exists (String.rev r). rewrite <- Hrr.
  unfold String.rev at 1. simpl. by rewrite rev_app_acc.
Qed.

(** The last portion of a joined path is the name joined, when it holds
    no slash. *)
Lemma last_portion_join (dir name : string) :
  JsString.last_index "/" name = None →
  Path.last_portion (Path.join dir name) = name.
Proof.
  intros Hname. unfold Path.join, Path.last_portion.
  destruct (dir_base_slash dir) as [d ->].
  assert (JsString.last_index "/" ((d +:+ "/") +:+ name) = Some (String.length d)) as ->.
  { rewrite last_index_app, Hname, last_index_app. simpl. f_equal. lia. }
  replace (S (String.length d)) with (String.length (d +:+ "/"))
    by (rewrite string_length_app; simpl; lia).
  apply drop_app.
Qed.

Lemma extname_join (dir name : string) :
  JsString.last_index "/" name = None →
  Path.extname (Path.join dir name) = Path.extname name.
Proof.
  intros H. unfold Path.extname. rewrite (last_portion_join dir name H).
  unfold Path.last_portion. by rewrite H.
Qed.

Section AfterRunFacts.
Variable parse : Parser.
Variables p p' : Project.

Lemma keeps_false outputs e : keeps outputs e = false → entry_name e ∈ outputs.
Proof.
  unfold keeps. intros H%negb_false_iff. by apply bool_decide_eq_true in H.
Qed.

(** A path whose first segment is no output file leads to the same entry. *)
Lemma lookup_rel_after outputs rel s rest :
  AfterRun outputs p p' →
  segments rel = s :: rest → bool_decide (s ∈ outputs) = false →
  lookup_rel p' rel = lookup_rel p rel.
Proof.
  intros (_ & its & its' & Hr & Hr' & Hf & _ & _) Hseg Hs.
  unfold lookup_rel. rewrite Hr, Hr', Hseg. apply resolve_first.
  assert (∀ e, entry_name e = s → keeps outputs e = true) as Hkeep.
  { intros e <-. unfold keeps. by rewrite Hs. }
  by rewrite <- (find_entry_filter _ s its' Hkeep), <- (find_entry_filter _ s its Hkeep), Hf.
Qed.

Lemma compact_walk_output dir e :
  keeps Compact.outputFiles e = false → regularOutput Compact.outputFiles e →
  Compact.walk dir e = [].
Proof.
  intros Hk%keeps_false Hreg. destruct e as [n m c|n its]; simpl in *; [|done].
  repeat (apply elem_of_cons in Hk as [->|Hk]; [reflexivity|]).
  by apply elem_of_nil in Hk.
Qed.

Lemma compact_files_after :
  AfterRun Compact.outputFiles p p' →
  Compact.getRelevantFiles (projectPath p') (root p')
  = Compact.getRelevantFiles (projectPath p) (root p).
Proof.
  intros (Hpath & its & its' & Hr & Hr' & Hf & Hreg & Hreg').
  rewrite Hr, Hr', Hpath. simpl.
  rewrite <- (flat_map_filter_skip _ (keeps Compact.outputFiles) its),
    <- (flat_map_filter_skip _ (keeps Compact.outputFiles) its'), Hf; [done|..];
    intros e He Hk; apply compact_walk_output; try done;
    first [by apply (proj1 (Forall_forall _ _) Hreg e)
          |by apply (proj1 (Forall_forall _ _) Hreg' e)].
Qed.

Lemma analyzeLoop_path files g :
  projectPath p' = projectPath p →
  Compact.analyzeLoop parse p' files g = Compact.analyzeLoop parse p files g.
Proof.
  intros Hpath. revert g. induction files as [|f files IH]; intros g; simpl; [done|].
  unfold Compact.analyzeFileCompact. rewrite Hpath.
  destruct (Compact.overBudget g); [done|].
  repeat (match goal with
          | |- context [match ?x with _ => _ end] => destruct x
          end; try done).
Qed.

Lemma compact_analyzeProject_after g :
  AfterRun Compact.outputFiles p p' →
  Compact.analyzeProject p' g = Compact.analyzeProject p g.
Proof.
  intros H. unfold Compact.analyzeProject. do 2 f_equal.
  apply foldl_Forall_ext.
  unfold Compact.criticalDirs.
  repeat (apply Forall_cons; split;
          [intros s; unfold Compact.analyzeProject_step;
           (erewrite (lookup_rel_after Compact.outputFiles);
              [|exact H|reflexivity|vm_compute; reflexivity]);
           by rewrite (proj1 H)|]).
  constructor.
Qed.

Lemma compact_run_after pj now :
  AfterRun Compact.outputFiles p p' →
  Compact.modules (Compact.run parse p' pj now) = Compact.modules (Compact.run parse p pj now)
  ∧ Compact.structure (Compact.run parse p' pj now)
    = Compact.structure (Compact.run parse p pj now).
Proof.
  intros H.
  unfold Compact.run, Compact.generate, Compact.detectPatterns, Compact.analyzeKeyFiles,
    Compact.sourceFiles.
  rewrite (compact_files_after H), (compact_analyzeProject_after _ H),
    (analyzeLoop_path _ _ (proj1 H)).
  done.
Qed.

Lemma nextjs_walk_output dir e :
  keeps NextJS.outputFiles e = false → regularOutput NextJS.outputFiles e →
  filter (fun f => bool_decide (Path.extname (f_path f) ∈ NextJS.sourceExtensions)
                   && negb (JsString.includes (f_path f) "node_modules")
                   && negb (JsString.includes (f_path f) ".next"))
         (NextJS.walk dir e) = [].
Proof.
  intros Hk%keeps_false Hreg. destruct e as [n m c|n its]; simpl in *; [|done].
  apply elem_of_cons in Hk as [->|Hk].
  - change (NextJS.isRelevantFile "codebase-index.json") with true. cbv iota.
    rewrite filter_cons, decide_False; [done|]. simpl.
    rewrite (extname_join dir "codebase-index.json") by reflexivity.
    assert (bool_decide (Path.extname "codebase-index.json" ∈ NextJS.sourceExtensions)
            = false) as -> by (vm_compute; reflexivity).
    simpl. tauto.
  - apply elem_of_cons in Hk as [->|Hk]; [done|]. by apply elem_of_nil in Hk.
Qed.

Lemma nextjs_sourceFiles_after :
  AfterRun NextJS.outputFiles p p' →
  NextJS.sourceFiles p' = NextJS.sourceFiles p.
Proof.
  intros (Hpath & its & its' & Hr & Hr' & Hf & Hreg & Hreg').
  unfold NextJS.sourceFiles, NextJS.getFilesRecursively.
  rewrite Hr, Hr', Hpath, !filter_flat_map.
  rewrite <- (flat_map_filter_skip _ (keeps NextJS.outputFiles) its),
    <- (flat_map_filter_skip _ (keeps NextJS.outputFiles) its'), Hf; [done|..];
    intros e He Hk; apply nextjs_walk_output; try done;
    first [by apply (proj1 (Forall_forall _ _) Hreg e)
          |by apply (proj1 (Forall_forall _ _) Hreg' e)].
Qed.

Lemma analyzeSteps_path files i :
  projectPath p' = projectPath p →
  foldl (NextJS.analyzeStep parse p') i files = foldl (NextJS.analyzeStep parse p) i files.
Proof.
  intros Hpath. apply foldl_Forall_ext, Forall_forall. intros f _ i0.
  unfold NextJS.analyzeStep, NextJS.analyzeFile. by rewrite Hpath.
Qed.

Lemma level1_bases_after clock st :
  AfterRun NextJS.outputFiles p p' →
  foldl (NextJS.level1_base p' clock) st NextJS.nextjsDirectories
  = foldl (NextJS.level1_base p clock) st NextJS.nextjsDirectories.
Proof.
  intros H. apply foldl_Forall_ext.
  assert (∀ dirs st0, foldl (NextJS.level1_dir p' clock) st0 dirs
                      = foldl (NextJS.level1_dir p clock) st0 dirs) as Hdirs.
  { intros dirs st0. apply foldl_Forall_ext, Forall_forall. intros d _ st1.
    unfold NextJS.level1_dir. by rewrite (proj1 H). }
  unfold NextJS.nextjsDirectories.
  repeat (apply Forall_cons; split;
          [intros st0; unfold NextJS.level1_base;
           (erewrite (lookup_rel_after NextJS.outputFiles);
              [|exact H|reflexivity|vm_compute; reflexivity]);
           destruct (lookup_rel p _); [|done];
           by rewrite (proj1 H), Hdirs|]).
  constructor.
Qed.

Lemma nextjs_run_after parseJson pj clock :
  AfterRun NextJS.outputFiles p p' →
  NextJS.level2 (NextJS.run parseJson parse p' pj clock)
  = NextJS.level2 (NextJS.run parseJson parse p pj clock)
  ∧ NextJS.level1 (NextJS.run parseJson parse p' pj clock)
    = NextJS.level1 (NextJS.run parseJson parse p pj clock).
Proof.
  intros H. split.
  - unfold NextJS.run. rewrite !nextjs_generate_level2.
    rewrite (nextjs_sourceFiles_after H), (analyzeSteps_path _ _ (proj1 H)).
    by apply analyzeSteps_content.
  - rewrite !nextjs_run_level1. by rewrite (level1_bases_after _ _ H).
Qed.

End AfterRunFacts.

(** C8. Two runs of a generator on one file system state, whatever the
    clock shows during each, end with the same per-file records and the
    same per-directory records: [modules] and [structure] in the
    budget-aware generator; in the comprehensive one level 2, and level 1
    once the last-modified stamp of each directory record is erased.  The
    same holds when the second run finds the project directory as the first
    run left it, with the output files written. *)
Theorem C8_two_runs_same_records (parse : Parser) (parseJson : JsonParser)
    (p : Project) (pj : PackageJson) (now1 now2 : Z) (clock1 clock2 : NextJS.Clock) :
  (Compact.modules (Compact.run parse p pj now1) = Compact.modules (Compact.run parse p pj now2)
   ∧ Compact.structure (Compact.run parse p pj now1)
     = Compact.structure (Compact.run parse p pj now2)
   ∧ NextJS.level2 (NextJS.run parseJson parse p pj clock1)
     = NextJS.level2 (NextJS.run parseJson parse p pj clock2)
   ∧ eraseTime <$> NextJS.level1 (NextJS.run parseJson parse p pj clock1)
     = eraseTime <$> NextJS.level1 (NextJS.run parseJson parse p pj clock2))
  ∧ (∀ p' : Project,
       AfterRun Compact.outputFiles p p' →
       Compact.modules (Compact.run parse p pj now1)
       = Compact.modules (Compact.run parse p' pj now2)
       ∧ Compact.structure (Compact.run parse p pj now1)
         = Compact.structure (Compact.run parse p' pj now2))
  ∧ (∀ p' : Project,
       AfterRun NextJS.outputFiles p p' →
       NextJS.level2 (NextJS.run parseJson parse p pj clock1)
       = NextJS.level2 (NextJS.run parseJson parse p' pj clock2)
       ∧ eraseTime <$> NextJS.level1 (NextJS.run parseJson parse p pj clock1)
         = eraseTime <$> NextJS.level1 (NextJS.run parseJson parse p' pj clock2)).
Proof.
  assert (∀ q, Compact.modules (Compact.run parse q pj now1)
               = Compact.modules (Compact.run parse q pj now2)
               ∧ Compact.structure (Compact.run parse q pj now1)
                 = Compact.structure (Compact.run parse q pj now2)) as Hcompact.
  { intros q. by destruct (compact_run_restamp parse q pj now2 now1) as [-> ->]. }
  assert (∀ q, NextJS.level2 (NextJS.run parseJson parse q pj clock1)
               = NextJS.level2 (NextJS.run parseJson parse q pj clock2)
               ∧ eraseTime <$> NextJS.level1 (NextJS.run parseJson parse q pj clock1)
                 = eraseTime <$> NextJS.level1 (NextJS.run parseJson parse q pj clock2))
    as Hnext.
  { intros q. split.
    - unfold NextJS.run. rewrite !nextjs_generate_level2. by apply analyzeSteps_content.
    - rewrite !nextjs_run_level1. by apply level1_bases_erase. }
  split; [|split].
  - destruct (Hcompact p) as [-> ->]. by destruct (Hnext p) as [-> ->].
  - intros p' H. destruct (compact_run_after parse p p' pj now1 H) as [<- <-].
    apply Hcompact.
  - intros p' H. destruct (nextjs_run_after parse p p' parseJson pj clock1 H) as [<- <-].
    apply Hnext.
Qed.

(** In a sample project: the project directory before and after the output
    files were written. *)
Ltac after_run :=
  split; [reflexivity|];
  eexists _, _; split; [reflexivity|]; split; [reflexivity|];
  split; [vm_compute; reflexivity|];
  split; repeat (apply Forall_cons; split; [|]); try (by constructor);
  try exact I;
  let H := fresh "H" in
  intros H; repeat (apply elem_of_cons in H as [H|H]; [discriminate H|]);
  by apply elem_of_nil in H.

Lemma C8_two_runs_same_records_witness :
  (AfterRun Compact.outputFiles Samples.apiProject
     (Samples.apiProjectAfter Compact.outputFiles)
   ∧ AfterRun NextJS.outputFiles Samples.apiProject
       (Samples.apiProjectAfter NextJS.outputFiles))
  ∧ Compact.modules (Compact.run Samples.parser Samples.apiProject Samples.noManifest 0)
    = Compact.modules (Compact.run Samples.parser
                         (Samples.apiProjectAfter Compact.outputFiles) Samples.noManifest 1)
  ∧ NextJS.level2 (NextJS.run Samples.jsonParser Samples.parser Samples.apiProject
                     Samples.noManifest Samples.clock)
    = NextJS.level2 (NextJS.run Samples.jsonParser Samples.parser
                       (Samples.apiProjectAfter NextJS.outputFiles) Samples.noManifest
                       {| NextJS.at_start := 1; NextJS.at_dir := fun _ => 2%Z |}).
Proof.
  assert (AfterRun Compact.outputFiles Samples.apiProject
            (Samples.apiProjectAfter Compact.outputFiles)) as Hc by after_run.
  assert (AfterRun NextJS.outputFiles Samples.apiProject
            (Samples.apiProjectAfter NextJS.outputFiles)) as Hn by after_run.
  split; [by split|].
  destruct (C8_two_runs_same_records Samples.parser Samples.jsonParser Samples.apiProject
              Samples.noManifest 0 1 Samples.clock
              {| NextJS.at_start := 1; NextJS.at_dir := fun _ => 2%Z |})
    as (_ & Hcompact & Hnext).
  split.
  - exact (proj1 (Hcompact _ Hc)).
  - exact (proj1 (Hnext _ Hn)).
Defined.

(** * Further properties of the two generators *)

(** ** The directory walkers *)

(** Induction over a directory tree: a directory has the property when
    all its items have it. *)
Lemma Entry_tree_ind (P : Entry → Prop) :
  (∀ n m c, P (File n m c)) →
  (∀ n its, Forall P (default [] its) → P (Dir n its)) →
  ∀ e, P e.
Proof.
  intros HFile HDir. fix IH 1. intros [n m c|n its]; [apply HFile|].
  apply HDir. destruct its as [l|]; simpl; [|constructor].
  revert l. fix IHl 1. intros [|x l]; constructor; [apply IH|apply IHl].
Qed.

Lemma elem_of_flat_map {A B} (f : A → list B) (l : list A) (y : B) :
  y ∈ flat_map f l ↔ ∃ x, x ∈ l ∧ y ∈ f x.
Proof.
  induction l as [|x l IH]; simpl.
  - split; [by intros ?%elem_of_nil|by intros (x & ?%elem_of_nil & _)].
  - rewrite elem_of_app, IH. split.
    + intros [H|(x' & Hin & H)]; [exists x; split; [by left|done]|].
      exists x'. split; [by right|done].
    + intros (x' & [->|Hin]%elem_of_cons & H); [by left|]. right. by exists x'.
Qed.

(** Every file the budget-aware walker lists lies at the end of a chain of
    names below the directory walked, none of them stepped over, the last
    one with a source extension. *)
Lemma compact_walk_chain (e : Entry) :
  ∀ dir f, f ∈ Compact.walk dir e →
    ∃ names name,
      f_path f = Path.join (foldl Path.join dir names) name
      ∧ Forall (fun n => steppedOver n = false) (names ++ [name])
      ∧ Compact.isRelevantFile name = true.
Proof.
  induction e as [n m c|n its IH] using Entry_tree_ind; intros dir f; simpl;
    fold (steppedOver n); destruct (steppedOver n) eqn:Hn;
    try (by intros ?%elem_of_nil).
  - destruct (Compact.isRelevantFile n) eqn:Hrel; [|by intros ?%elem_of_nil].
    intros ->%list_elem_of_singleton. exists [], n. simpl.
    split; [done|]. split; [by constructor|done].
  - destruct its as [l|]; [|by intros ?%elem_of_nil]. simpl in IH.
    intros (x & Hx & Hf)%elem_of_flat_map.
    destruct (proj1 (Forall_forall _ _) IH x Hx _ _ Hf) as (names & name & Hp & Hv & Hr).
    exists (n :: names), name. split; [done|]. split; [by constructor|done].
Qed.

Lemma startsWith_app_l (a c q : string) :
  JsString.startsWith a q = true → JsString.startsWith (a +:+ c) q = true.
Proof.
  revert a. induction q as [|y q IH]; intros [|x a]; simpl; try done.
  - by destruct (_ +:+ _).
  - case_decide; [apply IH|done].
Qed.

Lemma endsWith_app (pre s ext : string) :
  JsString.endsWith s ext = true → JsString.endsWith (pre +:+ s) ext = true.
Proof.
  unfold JsString.endsWith. intros H. unfold String.rev at 1.
  rewrite rev_app_app, (rev_app_acc s). by apply startsWith_app_l.
Qed.

Lemma has_source_ext_join (dir name : string) :
  JsString.has_source_ext name = true →
  JsString.has_source_ext (Path.join dir name) = true.
Proof.
  unfold JsString.has_source_ext, Path.join.
  intros H. repeat (apply orb_true_iff in H as [H|H]);
    rewrite (endsWith_app _ _ _ H); by rewrite ?orb_true_r.
Qed.

(** The full path at the end of a chain of names is the directory walked
    followed by a relative path. *)
Lemma chain_below (names : list string) :
  ∀ dir name, ∃ rest,
    Path.join (foldl Path.join dir names) name = Path.dir_base dir +:+ rest.
Proof.
  induction names as [|n names IH]; intros dir name; simpl.
  - by exists name.
  - destruct (IH (Path.join dir n) name) as [rest ->].
    unfold Path.join, Path.dir_base at 1.
    destruct (JsString.endsWith _ "/"); eexists; by rewrite !string_app_assoc.
Qed.

Lemma below_round_trip (dir rest : string) :
  Path.join dir (Path.relative dir (Path.dir_base dir +:+ rest)) = Path.dir_base dir +:+ rest.
Proof.
  unfold Path.relative. by rewrite startsWith_app, drop_app.
Qed.

(** The chain of a listed file is a chain of the tree: its names are
    directories found one inside the other, and the file is an item of the
    last of them, with the time and the content handed on. *)
Lemma compact_walk_listing (e : Entry) :
  ∀ dir f its, e ∈ its → f ∈ Compact.walk dir e →
    ∃ names name its',
      listingAt (Some its) names (Some its')
      ∧ File name (f_mtime f) (f_content f) ∈ its'
      ∧ f_path f = Path.join (foldl Path.join dir names) name
      ∧ Forall (fun n => steppedOver n = false) (names ++ [name])
      ∧ Compact.isRelevantFile name = true.
Proof.
  induction e as [n m c|n its0 IH] using Entry_tree_ind; intros dir f its He; simpl;
    fold (steppedOver n); destruct (steppedOver n) eqn:Hn;
    try (by intros ?%elem_of_nil).
  - destruct (Compact.isRelevantFile n) eqn:Hrel; [|by intros ?%elem_of_nil].
    intros ->%list_elem_of_singleton. exists [], n, its. simpl.
    repeat split; try done. by constructor.
  - destruct its0 as [l|]; [|by intros ?%elem_of_nil]. simpl in IH.
    intros (x & Hx & Hf)%elem_of_flat_map.
    destruct (proj1 (Forall_forall _ _) IH x Hx _ _ l Hx Hf)
      as (names & name & its' & Hl & Hin & Hp & Hv & Hr).
    exists (n :: names), name, its'. simpl.
    split; [by exists its, (Some l)|]. repeat split; try done. by constructor.
Qed.

(** X1. Whatever the directory tree, every file [getRelevantFiles] lists
    has a path ending in [.js], [.jsx], [.ts] or [.tsx] and is a file of
    the tree: there is a chain of directories of the tree, the first an
    item of the directory walked and each next one an item of the one
    before, and the file is an item of the last of them, listed with its
    own time and content under the path of the chain.  None of the names
    of the chain, and not the file's name, starts with a dot or is
    [node_modules], and the file's name has one of the four endings. *)
Theorem X1_compact_walk_visible_sources (dir : string) (items : option (list Entry))
    (f : FileEntry) :
  f ∈ Compact.getRelevantFiles dir items →
  JsString.has_source_ext (f_path f) = true
  ∧ ∃ names name its,
      listingAt items names (Some its)
      ∧ File name (f_mtime f) (f_content f) ∈ its
      ∧ f_path f = Path.join (foldl Path.join dir names) name
      ∧ Forall (fun n => JsString.startsWith n "." = false ∧ n ≠ "node_modules")
               (names ++ [name])
      ∧ JsString.has_source_ext name = true.
Proof.
  destruct items as [l|]; simpl; [|by intros ?%elem_of_nil].
  intros (e & He & Hf)%elem_of_flat_map.
  destruct (compact_walk_listing e dir f l He Hf)
    as (names & name & its & Hl & Hin & Hp & Hv & Hr).
  split.
  - rewrite Hp. by apply has_source_ext_join.
  - exists names, name, its. repeat split; try done.
    eapply Forall_impl; [exact Hv|]. intros n Hn. unfold steppedOver in Hn.
    apply orb_false_iff in Hn as [H1 H2]. split; [done|].
    by apply bool_decide_eq_false in H2.
Qed.

Lemma X1_compact_walk_visible_sources_witness :
  Samples.apiRouteFile
    ∈ Compact.getRelevantFiles (projectPath Samples.apiProject) (root Samples.apiProject)
  ∧ JsString.has_source_ext (f_path Samples.apiRouteFile) = true
  ∧ ∃ names name its,
      listingAt (root Samples.apiProject) names (Some its)
      ∧ File name (f_mtime Samples.apiRouteFile) (f_content Samples.apiRouteFile) ∈ its
      ∧ f_path Samples.apiRouteFile
        = Path.join (foldl Path.join (projectPath Samples.apiProject) names) name.
Proof.
  assert (Samples.apiRouteFile
            ∈ Compact.getRelevantFiles (projectPath Samples.apiProject)
                (root Samples.apiProject)) as Hin by (vm_compute; left).
  split; [exact Hin|].
  destruct (X1_compact_walk_visible_sources _ _ _ Hin)
    as (Hext & names & name & its & Hl & Hf & Hp & _).
  split; [exact Hext|]. by exists names, name, its.
Defined.

(** Every file the comprehensive walker lists lies at the end of a chain
    of directory names below the directory walked, none of them hidden or
    [node_modules]; its own name has a relevant extension. *)
Lemma nextjs_walk_chain (e : Entry) :
  ∀ dir f, f ∈ NextJS.walk dir e →
    ∃ names name,
      f_path f = Path.join (foldl Path.join dir names) name
      ∧ Forall (fun n => NextJS.visibleDir n = true) names
      ∧ NextJS.isRelevantFile name = true.
Proof.
  induction e as [n m c|n its IH] using Entry_tree_ind; intros dir f; simpl.
  - destruct (NextJS.isRelevantFile n) eqn:Hrel; [|by intros ?%elem_of_nil].
    intros ->%list_elem_of_singleton. by exists [], n.
  - destruct (NextJS.visibleDir n) eqn:Hn; [|by intros ?%elem_of_nil].
    destruct its as [l|]; [|by intros ?%elem_of_nil]. simpl in IH.
    intros (x & Hx & Hf)%elem_of_flat_map.
    destruct (proj1 (Forall_forall _ _) IH x Hx _ _ Hf) as (names & name & Hp & Hv & Hr).
    exists (n :: names), name. split; [done|]. split; [by constructor|done].
Qed.

(** X2. For every file either walker lists below a directory, taking the
    path relative to that directory and joining it back gives the path of
    the file: the record keys are true relative paths. *)
Theorem X2_relative_join_round_trip (dir : string) (items : option (list Entry))
    (f : FileEntry) :
  f ∈ Compact.getRelevantFiles dir items ∨ f ∈ NextJS.getFilesRecursively dir items →
  Path.join dir (Path.relative dir (f_path f)) = f_path f.
Proof.
  intros H.
  assert (∃ names name, f_path f = Path.join (foldl Path.join dir names) name)
    as (names & name & ->).
  { destruct items as [l|]; simpl in H;
      [|by destruct H as [H%elem_of_nil|H%elem_of_nil]].
    destruct H as [(e & _ & Hf)%elem_of_flat_map|(e & _ & Hf)%elem_of_flat_map].
    - destruct (compact_walk_chain e dir f Hf) as (names & name & Hp & _). eauto.
    - destruct (nextjs_walk_chain e dir f Hf) as (names & name & Hp & _). eauto. }
  destruct (chain_below names dir name) as [rest ->].
  apply below_round_trip.
Qed.

Lemma X2_relative_join_round_trip_witness :
  Path.join "/proj" (Path.relative "/proj" (f_path Samples.apiRouteFile))
  = f_path Samples.apiRouteFile.
Proof.
  apply (X2_relative_join_round_trip "/proj" (root Samples.apiProject)).
  left. vm_compute. left.
Defined.

Lemma sublist_flat_map {A B} (f g : A → list B) (l : list A) :
  Forall (fun x => f x `sublist_of` g x) l → flat_map f l `sublist_of` flat_map g l.
Proof.
  induction 1 as [|x l Hx _ IH]; simpl; [done|]. by apply sublist_app.
Qed.

Lemma source_ext_relevant (name : string) :
  Compact.isRelevantFile name = true → NextJS.isRelevantFile name = true.
Proof.
  unfold Compact.isRelevantFile, JsString.has_source_ext, NextJS.isRelevantFile. simpl.
  intros H. repeat (apply orb_true_iff in H as [H|H]); rewrite H;
    by rewrite ?orb_true_r.
Qed.

(** ** Directory records *)

Lemma histogramTotal_step (m : gmap string nat) (k : string) :
  histogramTotal (<[k := default 0 (m !! k) + 1]> m) = S (histogramTotal m).
Proof.
  unfold histogramTotal.
  assert (∀ (j1 j2 : string) (z1 z2 y : nat), z1 + (z2 + y) = z2 + (z1 + y)) as Hcomm
    by (intros; lia).
  destruct (m !! k) as [v|] eqn:Hk; simpl.
  - rewrite <- insert_delete_eq.
    rewrite map_fold_insert_L.
    + rewrite (map_fold_delete_L _ _ k v m); [lia| |done]. intros; apply Hcomm; done.
    + intros; apply Hcomm; done.
    + apply lookup_delete_eq.
  - rewrite map_fold_insert_L; [lia| |done]. intros; apply Hcomm; done.
Qed.

Lemma compact_histogram files (m : gmap string nat) :
  histogramTotal (foldl Compact.count_ext m files) = length files + histogramTotal m.
Proof.
  revert m. induction files as [|f files IH]; intros m; simpl; [done|].
  rewrite IH. unfold Compact.count_ext. rewrite histogramTotal_step. lia.
Qed.

Lemma nextjs_histogram files (m : gmap string nat) :
  histogramTotal (foldl NextJS.count_ext m files) = length files + histogramTotal m.
Proof.
  revert m. induction files as [|f files IH]; intros m; simpl; [done|].
  rewrite IH. unfold NextJS.count_ext. rewrite histogramTotal_step. lia.
Qed.

(** X4. In a directory record of either generator the extension histogram
    accounts for every file counted: its counts add up to the file count. *)
Theorem X4_histogram_adds_up (dir : string) (items : option (list Entry))
    (clock : NextJS.Clock) :
  histogramTotal (Compact.d_types (Compact.analyzeDirCompact dir items))
  = Compact.d_files (Compact.analyzeDirCompact dir items)
  ∧ histogramTotal (NextJS.dr_extensions (NextJS.dirRecord clock dir items))
    = NextJS.dr_fileCount (NextJS.dirRecord clock dir items).
Proof.
  split; simpl.
  - rewrite compact_histogram. unfold histogramTotal. rewrite map_fold_empty. lia.
  - rewrite nextjs_histogram. unfold histogramTotal. rewrite map_fold_empty. lia.
Qed.

Lemma analyzeProject_steps (p : Project) (dirs : list string)
    (s : gmap string Compact.DirInfo) (k : string) (info : Compact.DirInfo) :
  foldl (Compact.analyzeProject_step p) s dirs !! k = Some info →
  s !! k = Some info
  ∨ (k ∈ dirs
     ∧ ∃ e, lookup_rel p k = Some e
            ∧ info = Compact.analyzeDirCompact (Path.join (projectPath p) k) (entry_items e)
            ∧ 0 < Compact.d_files info).
Proof.
  revert s. induction dirs as [|d dirs IH]; intros s H; simpl in H; [by left|].
  destruct (IH _ H) as [Hs|(Hin & Hrest)]; [|right; split; [by right|done]].
  unfold Compact.analyzeProject_step in Hs.
  destruct (lookup_rel p d) as [e|] eqn:He; [|by left].
  destruct (0 <? _)%nat eqn:Hpos; [|by left].
  destruct (decide (d = k)) as [->|Hne].
  - rewrite lookup_insert_eq in Hs. injection Hs as <-.
    right. split; [by left|]. exists e. repeat split; try done.
    by apply Nat.ltb_lt in Hpos.
  - rewrite lookup_insert_ne in Hs by done. by left.
Qed.

(** X5. After a run of the budget-aware generator, [structure] holds
    records only for directories of the fixed list that exist in the
    project, each the analysis of that directory and each with at least one
    relevant file: an empty directory gets no record. *)
Theorem X5_structure_records (parse : Parser) (p : Project) (pj : PackageJson) (now : Z)
    (k : string) (info : Compact.DirInfo) :
  Compact.structure (Compact.run parse p pj now) !! k = Some info →
  k ∈ Compact.criticalDirs
  ∧ ∃ e, lookup_rel p k = Some e
         ∧ info = Compact.analyzeDirCompact (Path.join (projectPath p) k) (entry_items e)
         ∧ 0 < Compact.d_files info.
Proof.
  unfold Compact.run, Compact.generate, Compact.detectPatterns, Compact.analyzeKeyFiles.
  simpl.
  destruct (analyzeLoop_frame parse p (Compact.sourceFiles p)
              (Compact.analyzeProject p (Compact.new pj now))) as [_ ->].
  change (Compact.structure
            (Compact.index (Compact.analyzeProject p (Compact.new pj now))))
    with (foldl (Compact.analyzeProject_step p) ∅ Compact.criticalDirs).
  intros H.
  by destruct (analyzeProject_steps p _ _ _ _ H) as [?%lookup_empty_Some|?].
Qed.

Lemma X5_structure_records_witness :
  ∃ info, Compact.structure (Compact.run Samples.parser Samples.apiProject
                               Samples.noManifest 0) !! "app" = Some info
          ∧ "app" ∈ Compact.criticalDirs
          ∧ 0 < Compact.d_files info.
Proof.
  destruct (Compact.structure (Compact.run Samples.parser Samples.apiProject
                                 Samples.noManifest 0) !! "app") as [info|] eqn:H;
    [|by vm_compute in H].
  exists info. split; [done|].
  destruct (X5_structure_records _ _ _ _ _ _ H) as (Hk & e & _ & _ & Hpos).
  by split.
Defined.

Lemma foldl_max_bounds (x : Z) (xs : list Z) :
  (∀ y, y ∈ x :: xs → (y ≤ foldl Z.max x xs)%Z) ∧ foldl Z.max x xs ∈ x :: xs.
Proof.
  revert x. induction xs as [|z xs IH]; intros x; simpl.
  - split; [by intros y ->%list_elem_of_singleton|by left].
  - destruct (IH (Z.max x z)) as [Hle Hin]. split.
    + intros y [->|[->|Hy]%elem_of_cons]%elem_of_cons.
      * etrans; [apply (Z.le_max_l _ z)|]. apply Hle. by left.
      * etrans; [apply (Z.le_max_r x)|]. apply Hle. by left.
      * apply Hle. by right.
    + apply elem_of_cons in Hin as [->|Hin].
      * destruct (Z.max_spec x z) as [[_ ->]|[_ ->]]; [right|]; by left.
      * by do 2 right.
Qed.

(** X6. The last-modified stamp of a directory record of the comprehensive
    generator is the latest modification time among the relevant files
    below the directory: no file is later, and one file has exactly that
    time.  Only a directory without relevant files takes the clock. *)
Theorem X6_last_modified_is_latest (clock : NextJS.Clock) (dir : string)
    (items : option (list Entry)) :
  let files := NextJS.getFilesRecursively dir items in
  let stamp := NextJS.getLastModified clock dir items in
  (files = [] ∧ stamp = NextJS.at_dir clock dir)
  ∨ ((∀ f, f ∈ files → (f_mtime f ≤ stamp)%Z) ∧ ∃ f, f ∈ files ∧ f_mtime f = stamp).
Proof.
  intros files stamp. unfold stamp, NextJS.getLastModified. fold files.
  destruct files as [|f rest]; [by left|]. right.
  destruct (foldl_max_bounds (f_mtime f) (f_mtime <$> rest)) as [Hle Hin].
  split.
  - intros f' Hf'. apply Hle. change (f_mtime f' ∈ f_mtime <$> f :: rest).
    by apply list_elem_of_fmap_2.
  - change (foldl Z.max (f_mtime f) (f_mtime <$> rest) ∈ f_mtime <$> f :: rest) in Hin.
    apply list_elem_of_fmap in Hin as (f' & Heq & Hf'). by exists f'.
Qed.

(** ** Names and their classes *)

Lemma upper_fixed (c : ascii) :
  bool_decide (JsString.code_units c = JsString.upper_char c) = negb (lowercase c).
Proof. by destruct c as [[] [] [] [] [] [] [] []]; vm_compute. Qed.

Lemma startsWith_use_inv (name : string) :
  JsString.startsWith name "use" = true → ∃ rest, name = String "u" (String "s" (String "e" rest)).
Proof.
  destruct name as [|a [|b [|c rest]]]; simpl; try done;
    repeat case_decide; try done; subst; eauto.
Qed.

Lemma hook_test_throws (name : string) (e : Error) :
  (if JsString.startsWith name "use" then is_upper_at name 3 else Ok false) = Throw e →
  name = "use".
Proof.
  destruct (JsString.startsWith name "use") eqn:Hs; [|done].
  apply startsWith_use_inv in Hs as [rest ->]. by destruct rest.
Qed.

Lemma is_upper_at_first (c : ascii) (rest : string) :
  is_upper_at (String c rest) 0 = Ok (negb (lowercase c)).
Proof. unfold is_upper_at. simpl. by rewrite upper_fixed. Qed.

Lemma classifyFunction_nonempty (c : ascii) (rest : string) :
  Compact.classifyFunction (String c rest)
  = if lowercase c then
      hook ← (if JsString.startsWith (String c rest) "use"
              then is_upper_at (String c rest) 3 else Ok false);
      if (hook : bool) then Ok "hook"
      else if bool_decide (String c rest ∈ Compact.httpVerbs) then Ok "handler"
      else Ok "function"
    else Ok "component".
Proof.
  unfold Compact.classifyFunction.
  change (negb (truthy (Some (String c rest)))) with false.
  cbv iota. rewrite is_upper_at_first. by destruct (lowercase c).
Qed.

Lemma isReactComponent_nonempty (c : ascii) (rest : string) :
  NextJS.isReactComponent (Some (String c rest)) = Ok (negb (lowercase c)).
Proof. apply is_upper_at_first. Qed.

Lemma isCustomHook_nonempty (c : ascii) (rest : string) :
  NextJS.isCustomHook (Some (String c rest))
  = if JsString.startsWith (String c rest) "use"
    then is_upper_at (String c rest) 3 else Ok false.
Proof. reflexivity. Qed.

Lemma sortDeclaration_fails (filePath : string) (func : NextJS.Func) (a : NextJS.Analysis) :
  (∃ e, NextJS.sortDeclaration filePath func a = Throw e)
  ↔ NextJS.fn_name func = Some "use".
Proof.
  split; [|intros H].
  - intros [e H]. unfold NextJS.sortDeclaration in H.
    destruct (NextJS.fn_name func) as [[|c rest]|];
      try (cbn in H; by repeat case_match).
    rewrite isReactComponent_nonempty, isCustomHook_nonempty in H.
    destruct (lowercase c); [|done].
    destruct (if JsString.startsWith _ _ then _ else _) as [[]|e'] eqn:Hh;
      [done|by destruct (NextJS.isApiRoute _ _)|].
    f_equal. by apply hook_test_throws in Hh.
  - unfold NextJS.sortDeclaration. rewrite H. vm_compute. eauto.
Qed.

Lemma sortArrow_fails (func : NextJS.Func) (a : NextJS.Analysis) :
  (∃ e, NextJS.sortArrow func a = Throw e) ↔ NextJS.fn_name func = Some "use".
Proof.
  split; [|intros H].
  - intros [e H]. unfold NextJS.sortArrow in H.
    destruct (NextJS.fn_name func) as [[|c rest]|];
      try (cbn in H; by repeat case_match).
    rewrite isReactComponent_nonempty, isCustomHook_nonempty in H.
    destruct (lowercase c); [|done].
    destruct (if JsString.startsWith _ _ then _ else _) as [[]|e'] eqn:Hh; [done|done|].
    f_equal. by apply hook_test_throws in Hh.
  - unfold NextJS.sortArrow. rewrite H. vm_compute. eauto.
Qed.

(** X7. The name [use] is the only one the classification of a function
    fails on, in either generator: the budget-aware [classifyFunction] and
    the two if-chains of the comprehensive generator raise an exception on
    that name and on no other. *)
Theorem X7_use_is_the_only_failing_name :
  (∀ name : string, (∃ e, Compact.classifyFunction name = Throw e) ↔ name = "use")
  ∧ (∀ (filePath : string) (func : NextJS.Func) (a : NextJS.Analysis),
       (∃ e, NextJS.sortDeclaration filePath func a = Throw e)
       ↔ NextJS.fn_name func = Some "use")
  ∧ (∀ (func : NextJS.Func) (a : NextJS.Analysis),
       (∃ e, NextJS.sortArrow func a = Throw e) ↔ NextJS.fn_name func = Some "use").
Proof.
  split; [|split; [apply sortDeclaration_fails|apply sortArrow_fails]].
  intros name. split; [|intros ->; vm_compute; eauto].
  intros [e H]. destruct name as [|c rest]; [done|].
  rewrite classifyFunction_nonempty in H.
  destruct (lowercase c); [|done].
  destruct (if JsString.startsWith _ _ then _ else _) as [[]|e'] eqn:Hh;
    [done|by destruct (bool_decide _)|by apply hook_test_throws in Hh].
Qed.

Lemma classifyFunction_classes (name t : string) :
  Compact.classifyFunction name = Ok t → t ∈ ["component"; "hook"; "function"].
Proof.
  destruct name as [|c rest]; [intros [= <-]; set_solver|].
  rewrite classifyFunction_nonempty.
  destruct (lowercase c) eqn:Hc; [|intros [= <-]; set_solver].
  destruct (if JsString.startsWith _ _ then _ else _) as [[]|e']; simpl;
    [intros [= <-]; set_solver| |done].
  destruct (bool_decide _) eqn:Hv; [|intros [= <-]; set_solver].
  apply bool_decide_eq_true in Hv.
  repeat (apply elem_of_cons in Hv as [Hv|Hv]; [by simplify_eq|]).
  by apply elem_of_nil in Hv.
Qed.

Section CompactExports.
Variable parse : Parser.
Variable p : Project.
Variable P : string → Compact.ExportInfo → Prop.

Lemma compact_visit_exports rel v a ex a' ex' :
  (∀ name t n, Compact.classifyFunction name = Ok t →
     P (rel +:+ ":" +:+ name)
       {| Compact.ex_name := name; Compact.ex_type := t; Compact.ex_params := n |}) →
  Compact.visit rel v a ex = Ok (a', ex') → map_Forall P ex → map_Forall P ex'.
Proof.
  intros HP H Hex. unfold Compact.visit in H.
  destruct (v_node v); try (by simplify_eq); try (by case_match; simplify_eq).
  destruct (truthy _ && isExported v); [|by simplify_eq].
  destruct (Compact.classifyFunction _) as [t|e] eqn:Ht; [|done].
  simpl in H. simplify_eq. apply map_Forall_insert_2; [by apply HP|done].
Qed.

Lemma compact_run_visitors_exports rel vs a ex r ex' :
  (∀ name t n, Compact.classifyFunction name = Ok t →
     P (rel +:+ ":" +:+ name)
       {| Compact.ex_name := name; Compact.ex_type := t; Compact.ex_params := n |}) →
  Compact.run_visitors rel vs a ex = (r, ex') → map_Forall P ex → map_Forall P ex'.
Proof.
  intros HP. revert a ex. induction vs as [|v vs IH]; intros a ex H Hex; simpl in H.
  - by simplify_eq.
  - destruct (Compact.visit rel v a ex) as [[a1 ex1]|e] eqn:Hv; [|by simplify_eq].
    eapply IH; [done|]. by eapply compact_visit_exports.
Qed.

Lemma analyzeFileCompact_exports f g r g' :
  (∀ name t n, Compact.classifyFunction name = Ok t →
     P (recordKey p f +:+ ":" +:+ name)
       {| Compact.ex_name := name; Compact.ex_type := t; Compact.ex_params := n |}) →
  Compact.analyzeFileCompact parse p f g = (r, g') →
  map_Forall P (Compact.exports (Compact.index g)) →
  map_Forall P (Compact.exports (Compact.index g')).
Proof.
  intros HP H Hex. unfold Compact.analyzeFileCompact in H.
  destruct (f_content f) as [code|]; [|by simplify_eq].
  destruct (_ <? _)%Z; [by simplify_eq|].
  destruct (parse _ _) as [ast|]; [|by simplify_eq].
  destruct (Compact.run_visitors _ _ _ _) as [[a|e] ex] eqn:Hr; simplify_eq; simpl;
    by eapply compact_run_visitors_exports.
Qed.

Lemma analyzeLoop_exports files g :
  (∀ f name t n, f ∈ files → Compact.classifyFunction name = Ok t →
     P (recordKey p f +:+ ":" +:+ name)
       {| Compact.ex_name := name; Compact.ex_type := t; Compact.ex_params := n |}) →
  map_Forall P (Compact.exports (Compact.index g)) →
  map_Forall P (Compact.exports (Compact.index (Compact.analyzeLoop parse p files g))).
Proof.
  revert g. induction files as [|f files IH]; intros g HP Hex; simpl; [done|].
  destruct (Compact.overBudget g); [done|].
  assert (∀ f' name t n, f' ∈ files → Compact.classifyFunction name = Ok t →
            P (recordKey p f' +:+ ":" +:+ name)
              {| Compact.ex_name := name; Compact.ex_type := t; Compact.ex_params := n |})
    as HP' by (intros; apply HP; [by right|done]).
  destruct (Compact.analyzeFileCompact parse p f g) as [r g'] eqn:Hf.
  assert (map_Forall P (Compact.exports (Compact.index g'))) as Hex'.
  { eapply (analyzeFileCompact_exports f g); try done.
    intros; apply HP; [by left|done]. }
  destruct r as [[a|]|e]; by apply IH.
Qed.

End CompactExports.

(** X8. After a run of the budget-aware generator every entry of the
    [exports] index was written for a function of one of the files analysed:
    its key is that file's relative path, a colon and the function's name,
    and its type is what [classifyFunction] answers on the name, one of
    component, hook and function.  No entry has the type handler. *)
Theorem X8_exports_index_entries (parse : Parser) (p : Project) (pj : PackageJson)
    (now : Z) (key : string) (info : Compact.ExportInfo) :
  Compact.exports (Compact.run parse p pj now) !! key = Some info →
  (∃ f, f ∈ Compact.sourceFiles p
        ∧ key = recordKey p f +:+ ":" +:+ Compact.ex_name info)
  ∧ Compact.classifyFunction (Compact.ex_name info) = Ok (Compact.ex_type info)
  ∧ Compact.ex_type info ∈ ["component"; "hook"; "function"]
  ∧ Compact.ex_type info ≠ "handler".
Proof.
  intros H.
  pose (P := fun (k : string) (i : Compact.ExportInfo) =>
               (∃ f, f ∈ Compact.sourceFiles p
                     ∧ k = recordKey p f +:+ ":" +:+ Compact.ex_name i)
               ∧ Compact.classifyFunction (Compact.ex_name i) = Ok (Compact.ex_type i)).
  assert (map_Forall P (Compact.exports (Compact.run parse p pj now))) as Hall.
  { apply (analyzeLoop_exports parse p P).
    - intros f name t n Hf Ht. split; [by exists f|done].
    - apply map_Forall_empty. }
  destruct (Hall _ _ H) as [Hf Ht]. split; [done|]. split; [done|].
  pose proof (classifyFunction_classes _ _ Ht) as Hin. split; [done|].
  intros Heq. rewrite Heq in Hin.
  repeat (apply elem_of_cons in Hin as [Hin|Hin]; [done|]). by apply elem_of_nil in Hin.
Qed.

Lemma X8_exports_index_entries_witness :
  ∃ info, Compact.exports (Compact.run Samples.parser Samples.apiProject
                             Samples.noManifest 0) !! "app/api/users/route.ts:GET" = Some info
          ∧ Compact.ex_type info ∈ ["component"; "hook"; "function"]
          ∧ Compact.ex_type info ≠ "handler".
Proof.
  destruct (Compact.exports (Compact.run Samples.parser Samples.apiProject
                               Samples.noManifest 0) !! "app/api/users/route.ts:GET")
    as [info|] eqn:H; [|by vm_compute in H].
  exists info. split; [done|].
  by destruct (X8_exports_index_entries _ _ _ _ _ _ H) as (_ & _ & ? & ?).
Defined.


(** ** Level 3 of the comprehensive generator *)

Lemma is_upper_at_fourth (name : string) :
  JsString.startsWith name "use" = true →
  name = "use" ∨ is_upper_at name 3 = Ok (hookName name).
Proof.
  intros Hs. unfold hookName. rewrite Hs.
  apply startsWith_use_inv in Hs as [rest ->]. destruct rest as [|c rest]; [by left|right].
  unfold is_upper_at. simpl. by rewrite upper_fixed.
Qed.

Lemma apiRoute_default (c : ascii) (rest : string) :
  lowercase c = true →
  bool_decide (String c rest ∈ NextJS.apiRouteNames) = bool_decide (String c rest = "default").
Proof.
  intros Hc. apply bool_decide_ext. split.
  - intros H. repeat (apply elem_of_cons in H as [H|H]; [by simplify_eq|]).
    by apply elem_of_nil in H.
  - intros ->. unfold NextJS.apiRouteNames. set_solver.
Qed.

Lemma Forall_classified (Q : NextJS.Func * string → Prop) (a : NextJS.Analysis) :
  Forall Q (NextJS.classified a)
  ↔ Forall (fun f => Q (f, "function")) (NextJS.functions a)
    ∧ Forall (fun f => Q (f, "component")) (NextJS.components a)
    ∧ Forall (fun f => Q (f, "hook")) (NextJS.hooks a)
    ∧ Forall (fun f => Q (f, "api-handler")) (NextJS.apiRoutes a).
Proof. unfold NextJS.classified. by rewrite !Forall_app, !Forall_fmap. Qed.

Lemma push_class (Q : NextJS.Func * string → Prop) (a : NextJS.Analysis) (x : NextJS.Func) :
  Forall Q (NextJS.classified a) →
  (Q (x, "function") → Forall Q (NextJS.classified (NextJS.push_function a x)))
  ∧ (Q (x, "component") → Forall Q (NextJS.classified (NextJS.push_component a x)))
  ∧ (Q (x, "hook") → Forall Q (NextJS.classified (NextJS.push_hook a x)))
  ∧ (Q (x, "api-handler") → Forall Q (NextJS.classified (NextJS.push_apiRoute a x))).
Proof.
  intros (? & ? & ? & ?)%Forall_classified.
  repeat split; intros Hq; apply Forall_classified; simpl; repeat split; try done;
    apply Forall_app; split; try done; by constructor.
Qed.

Lemma push_complexity (a : NextJS.Analysis) (x : NextJS.Func) :
  NextJS.calculateComplexity (NextJS.push_function a x) = S (NextJS.calculateComplexity a)
  ∧ NextJS.calculateComplexity (NextJS.push_component a x) = S (NextJS.calculateComplexity a)
  ∧ NextJS.calculateComplexity (NextJS.push_hook a x) = S (NextJS.calculateComplexity a)
  ∧ NextJS.calculateComplexity (NextJS.push_apiRoute a x) = S (NextJS.calculateComplexity a).
Proof.
  unfold NextJS.calculateComplexity. simpl. rewrite !length_app. simpl. lia.
Qed.

Lemma sorted_function api func a :
  (∀ n, NextJS.fn_name func = Some n → n ≠ "" → nameClass api n = "function") →
  sortedInto api func a (NextJS.push_function a func).
Proof.
  intros Hn. exists "function". split; [|split].
  - intros Q HQ. apply (push_class Q a func HQ).
  - apply push_complexity.
  - intros n H1 H2. symmetry. by apply Hn.
Qed.

Lemma sorted_component api func a :
  (∀ n, NextJS.fn_name func = Some n → n ≠ "" → nameClass api n = "component") →
  sortedInto api func a (NextJS.push_component a func).
Proof.
  intros Hn. exists "component". split; [|split].
  - intros Q HQ. apply (push_class Q a func HQ).
  - apply push_complexity.
  - intros n H1 H2. symmetry. by apply Hn.
Qed.

Lemma sorted_hook api func a :
  (∀ n, NextJS.fn_name func = Some n → n ≠ "" → nameClass api n = "hook") →
  sortedInto api func a (NextJS.push_hook a func).
Proof.
  intros Hn. exists "hook". split; [|split].
  - intros Q HQ. apply (push_class Q a func HQ).
  - apply push_complexity.
  - intros n H1 H2. symmetry. by apply Hn.
Qed.

Lemma sorted_apiRoute api func a :
  (∀ n, NextJS.fn_name func = Some n → n ≠ "" → nameClass api n = "api-handler") →
  sortedInto api func a (NextJS.push_apiRoute a func).
Proof.
  intros Hn. exists "api-handler". split; [|split].
  - intros Q HQ. apply (push_class Q a func HQ).
  - apply push_complexity.
  - intros n H1 H2. symmetry. by apply Hn.
Qed.

Lemma isApiRoute_falsy (fp : string) (name : option string) :
  truthy name = false → NextJS.isApiRoute fp name = false.
Proof.
  unfold NextJS.isApiRoute. destruct name as [[|c rest]|]; try done; intros _.
  - destruct (JsString.includes fp "/api/"); [vm_compute|]; done.
  - apply andb_false_r.
Qed.

Ltac the_name Hn :=
  let n := fresh "n" in
  let H := fresh "H" in
  intros n H ?; rewrite Hn in H; simplify_eq.

Lemma sortDeclaration_class fp func a a' :
  NextJS.sortDeclaration fp func a = Ok a' →
  sortedInto (JsString.includes fp "/api/") func a a'.
Proof.
  unfold NextJS.sortDeclaration. intros H.
  destruct (NextJS.fn_name func) as [[|c rest]|] eqn:Hn.
  - cbn in H. rewrite isApiRoute_falsy in H by done. simplify_eq.
    apply sorted_function; by the_name Hn.
  - rewrite isReactComponent_nonempty, isCustomHook_nonempty in H.
    destruct (lowercase c) eqn:Hc;
      [|simpl in H; simplify_eq; apply sorted_component; the_name Hn;
        unfold nameClass; simpl; by rewrite Hc].
    assert (componentName (String c rest) = false) as Hcomp by (simpl; by rewrite Hc).
    unfold NextJS.isApiRoute in H. rewrite apiRoute_default in H by done.
    remember (String c rest) as name eqn:Hname. simpl in H.
    destruct (JsString.startsWith name "use") eqn:Hs.
    + destruct (is_upper_at_fourth _ Hs) as [Huse|Hfour]; [by rewrite Huse in H|].
      rewrite Hfour in H. simpl in H.
      destruct (hookName name) eqn:Hh;
        [simplify_eq; apply sorted_hook; the_name Hn;
         unfold nameClass; by rewrite Hcomp, Hh|].
      destruct (JsString.includes fp "/api/" && bool_decide (name = "default"))
        eqn:Hapi; simplify_eq;
        [apply sorted_apiRoute|apply sorted_function]; the_name Hn;
        unfold nameClass; by rewrite Hcomp, Hh, Hapi.
    + simpl in H.
      assert (hookName name = false) as Hh by (unfold hookName; by rewrite Hs).
      destruct (JsString.includes fp "/api/" && bool_decide (name = "default"))
        eqn:Hapi; simplify_eq;
        [apply sorted_apiRoute|apply sorted_function]; the_name Hn;
        unfold nameClass; by rewrite Hcomp, Hh, Hapi.
  - cbn in H. rewrite isApiRoute_falsy in H by done. simplify_eq.
    apply sorted_function; by the_name Hn.
Qed.

Lemma sortArrow_class func a a' :
  NextJS.sortArrow func a = Ok a' → sortedInto false func a a'.
Proof.
  unfold NextJS.sortArrow. intros H.
  destruct (NextJS.fn_name func) as [[|c rest]|] eqn:Hn.
  - cbn in H. simplify_eq. apply sorted_function; by the_name Hn.
  - rewrite isReactComponent_nonempty, isCustomHook_nonempty in H.
    destruct (lowercase c) eqn:Hc;
      [|simpl in H; simplify_eq; apply sorted_component; the_name Hn;
        unfold nameClass; simpl; by rewrite Hc].
    assert (componentName (String c rest) = false) as Hcomp by (simpl; by rewrite Hc).
    remember (String c rest) as name eqn:Hname. simpl in H.
    destruct (JsString.startsWith name "use") eqn:Hs.
    + destruct (is_upper_at_fourth _ Hs) as [Huse|Hfour]; [by rewrite Huse in H|].
      rewrite Hfour in H. simpl in H.
      destruct (hookName name) eqn:Hh; injection H as <-;
        [apply sorted_hook|apply sorted_function]; the_name Hn;
        unfold nameClass; by rewrite Hcomp, Hh.
    + simpl in H. injection H as <-.
      assert (hookName name = false) as Hh by (unfold hookName; by rewrite Hs).
      apply sorted_function. the_name Hn. unfold nameClass. by rewrite Hcomp, Hh.
  - cbn in H. simplify_eq. apply sorted_function; by the_name Hn.
Qed.

Lemma named_specs_classified specs a :
  NextJS.classified
    (foldl (fun acc spec =>
              NextJS.push_features
                (NextJS.push_exports acc
                   [{| NextJS.e_name := exported_name spec; NextJS.e_type := "named" |}])
                (if NextJS.isDataFetching (exported_name spec)
                 then [js_text (exported_name spec)] else [])) a specs)
  = NextJS.classified a.
Proof.
  revert a. induction specs as [|sp specs IH]; intros a; simpl; [done|]. by rewrite IH.
Qed.

Lemma complexity_classified (a : NextJS.Analysis) :
  NextJS.calculateComplexity a = length (NextJS.classified a).
Proof.
  unfold NextJS.calculateComplexity, NextJS.classified.
  rewrite !length_app, !length_fmap. lia.
Qed.

(** A visitor either sorts one descriptor, at a visit that declares a
    function, or leaves the four arrays as they are. *)
Lemma visit_class fp v a a' :
  NextJS.visit fp v a = Ok a' →
  (declaresFunction v = true
   ∧ ∃ func api, sortedInto api func a a'
                 ∧ (api = true → JsString.includes fp "/api/" = true))
  ∨ (declaresFunction v = false ∧ NextJS.classified a' = NextJS.classified a).
Proof.
  unfold NextJS.visit, declaresFunction. intros H.
  destruct (v_node v) eqn:Hnode; simplify_eq/=; try (by right).
  - right. split; [done|]. by rewrite named_specs_classified.
  - left. split; [done|]. eexists _, _. split; [by eapply sortDeclaration_class|done].
  - destruct (v_parent v) as [[]|]; simplify_eq/=; try (by right).
    destruct (truthy _); simplify_eq/=; [|by right].
    left. split; [done|]. eexists _, false. split; [by eapply sortArrow_class|done].
  - right. split; [done|]. repeat case_decide; by simplify_eq/=.
Qed.

Lemma run_visitors_class fp vs a a' :
  NextJS.run_visitors fp vs a = Ok a' →
  Forall (fun item => classOf fp item.1 item.2) (NextJS.classified a) →
  Forall (fun item => classOf fp item.1 item.2) (NextJS.classified a')
  ∧ NextJS.calculateComplexity a'
    = NextJS.calculateComplexity a + length (filter declaresFunction vs).
Proof.
  revert a. induction vs as [|v vs IH]; intros a H Ha; simpl in H.
  - simplify_eq. split; [done|]. simpl. lia.
  - destruct (NextJS.visit fp v a) as [a1|e] eqn:Hv; [|done]. simpl in H.
    destruct (visit_class _ _ _ _ Hv) as [[Hd (func & api & (t & HQ & Hc & Ht) & Hapi)]|[Hd Heq]].
    + destruct (IH a1 H) as [Hall Hlen].
      { apply HQ; [done|]. intros n Hn Hne. exists api. split; [by apply Ht|done]. }
      split; [done|]. rewrite Hlen, Hc, filter_cons, Hd. simpl. lia.
    + destruct (IH a1 H) as [Hall Hlen]; [by rewrite Heq|].
      split; [done|].
      rewrite Hlen, !complexity_classified, Heq, filter_cons, Hd. done.
Qed.

Lemma visit_total fp v a :
  declaresUse v = false → ∃ a', NextJS.visit fp v a = Ok a'.
Proof.
  unfold declaresUse, NextJS.visit. intros H.
  destruct (v_node v) eqn:Hnode; try (by eexists); simplify_eq/=.
  - match goal with
    | |- ∃ a', ?x = Ok a' => destruct x as [a'|e] eqn:Hs; [by eexists|]
    end.
    assert (∃ e, NextJS.sortDeclaration fp
              {| NextJS.fn_name := id; NextJS.fn_params := NextJS.getParamName <$> params;
                 NextJS.fn_async := async;
                 NextJS.fn_isExported := isExported v |} a = Throw e) as Hf by eauto.
    apply sortDeclaration_fails in Hf. simpl in Hf.
    by rewrite Hf, bool_decide_eq_true_2 in H.
  - destruct (v_parent v) as [[]|]; try (by eexists).
    destruct (truthy _); [|by eexists].
    match goal with
    | |- ∃ a', ?x = Ok a' => destruct x as [a'|e] eqn:Hs; [by eexists|]
    end.
    assert (∃ e, NextJS.sortArrow
              {| NextJS.fn_name := node_name id; NextJS.fn_params := NextJS.getParamName <$> params;
                 NextJS.fn_async := async;
                 NextJS.fn_isExported := isExported v |} a = Throw e) as Hf by eauto.
    apply sortArrow_fails in Hf. simpl in Hf.
    by rewrite Hf, bool_decide_eq_true_2 in H.
  - repeat case_decide; by eexists.
Qed.

Lemma run_visitors_total fp vs a :
  existsb declaresUse vs = false → ∃ a', NextJS.run_visitors fp vs a = Ok a'.
Proof.
  revert a. induction vs as [|v vs IH]; intros a H; simpl in *; [by eexists|].
  apply orb_false_iff in H as [Hv Hvs].
  destruct (visit_total fp v a Hv) as [a1 ->]. simpl. by apply IH.
Qed.

Lemma addSignature_fold (rel : string) (R : string → NextJS.Signature → Prop)
    (items : list (NextJS.Func * string)) (l3 : gmap string NextJS.Signature) :
  map_Forall R l3 →
  Forall (fun item =>
            ∀ n key sig, NextJS.fn_name item.1 = Some n → n ≠ "" →
                         NextJS.sg_name sig = n → NextJS.sg_type sig = item.2 →
                         NextJS.sg_file sig = rel → key = rel +:+ ":" +:+ n →
                         R key sig) items →
  map_Forall R (foldl (NextJS.addSignature rel) l3 items).
Proof.
  revert l3. induction items as [|item items IH]; intros l3 Hl3 Hitems; simpl; [done|].
  apply Forall_cons in Hitems as [Hitem Hitems]. apply IH; [|done].
  unfold NextJS.addSignature.
  destruct (NextJS.fn_name item.1) as [[|c rest]|] eqn:Hn; try done. simpl.
  apply map_Forall_insert_2; [|done]. by eapply Hitem.
Qed.

Section Level3.
Variable parse : Parser.
Variable p : Project.
Variable all : list FileEntry.

Lemma analyzeStep_level3 i f :
  f ∈ all →
  map_Forall (entryOf p all i) (NextJS.level3 i) →
  map_Forall (entryOf p all (NextJS.analyzeStep parse p i f))
    (NextJS.level3 (NextJS.analyzeStep parse p i f)).
Proof.
  intros Hf Hi.
  destruct (analyzeStep_cases parse p i f) as [->|(code & ast & a & Hc & Hp & Hr & ->)];
    [done|].
  simpl. apply addSignature_fold.
  - eapply map_Forall_impl; [done|].
    intros key sig (f' & ? & ? & ? & ? & ? & Hsome).
    exists f'. repeat (split; [done|]). simpl.
    apply lookup_insert_is_Some. destruct (decide (recordKey p f = NextJS.sg_file sig)); eauto.
  - destruct (run_visitors_class _ _ _ _ Hr) as [Hall _]; [by constructor|].
    eapply Forall_impl; [exact Hall|].
    intros [func t] Hclass n key sig Hn Hne Hname Htype Hfile ->. simpl in *. subst n t.
    destruct (Hclass _ Hn Hne) as (api & Ht & Hapi).
    exists f. split; [done|]. split; [done|]. split; [by rewrite Hfile|].
    split; [done|]. split; [by exists api|].
    rewrite Hfile. simpl. rewrite lookup_insert_eq. eauto.
Qed.

Lemma analyzeSteps_level3 files i :
  (∀ f, f ∈ files → f ∈ all) →
  map_Forall (entryOf p all i) (NextJS.level3 i) →
  map_Forall (entryOf p all (foldl (NextJS.analyzeStep parse p) i files))
    (NextJS.level3 (foldl (NextJS.analyzeStep parse p) i files)).
Proof.
  revert i. induction files as [|f files IH]; intros i Hall Hi; simpl; [done|].
  apply IH; [by intros; apply Hall; right|].
  apply analyzeStep_level3; [apply Hall; by left|done].
Qed.

Lemma analyzeStep_grows i f key :
  is_Some (NextJS.level2 i !! key) →
  is_Some (NextJS.level2 (NextJS.analyzeStep parse p i f) !! key).
Proof.
  intros Hk.
  destruct (analyzeStep_cases parse p i f) as [->|(code & ast & a & Hc & Hp & Hr & ->)];
    [done|].
  simpl. apply lookup_insert_is_Some.
  destruct (decide (recordKey p f = key)); eauto.
Qed.

Lemma analyzeSteps_grow files i key :
  is_Some (NextJS.level2 i !! key) →
  is_Some (NextJS.level2 (foldl (NextJS.analyzeStep parse p) i files) !! key).
Proof.
  revert i. induction files as [|f files IH]; intros i Hk; simpl; [done|].
  by apply IH, analyzeStep_grows.
Qed.

End Level3.

Lemma nextjs_level3_entries (parseJson : JsonParser) (parse : Parser) (p : Project)
    (pj : PackageJson) (clock : NextJS.Clock) :
  map_Forall (entryOf p (NextJS.sourceFiles p) (NextJS.run parseJson parse p pj clock))
    (NextJS.level3 (NextJS.run parseJson parse p pj clock)).
Proof.
  pose proof (analyzeSteps_level3 parse p (NextJS.sourceFiles p) (NextJS.sourceFiles p)
                (NextJS.index (NextJS.generateLevel1 p clock (NextJS.new p pj clock)))
                (fun _ H => H)) as H.
  intros key sig Hsig.
  destruct (H (map_Forall_empty _) key sig Hsig) as (f & ? & ? & ? & ? & ? & ?).
  by exists f.
Qed.

(** X9. Level 3 of a run of the comprehensive generator refers only to
    what the run recorded: the key of an entry is the entry's file, a colon
    and its name, the file is the relative path of one of the source files
    analysed, and level 2 of the same run has a record under that path. *)
Theorem X9_level3_refers_to_level2 (parseJson : JsonParser) (parse : Parser) (p : Project)
    (pj : PackageJson) (clock : NextJS.Clock) (key : string) (sig : NextJS.Signature) :
  NextJS.level3 (NextJS.run parseJson parse p pj clock) !! key = Some sig →
  key = NextJS.sg_file sig +:+ ":" +:+ NextJS.sg_name sig
  ∧ NextJS.sg_name sig ≠ ""
  ∧ (∃ f, f ∈ NextJS.sourceFiles p ∧ NextJS.sg_file sig = recordKey p f)
  ∧ is_Some (NextJS.level2 (NextJS.run parseJson parse p pj clock) !! NextJS.sg_file sig).
Proof.
  intros H.
  destruct (nextjs_level3_entries parseJson parse p pj clock key sig H)
    as (f & ? & ? & ? & ? & ? & ?).
  repeat (split; [done|]). split; [by exists f|done].
Qed.

Lemma X9_level3_refers_to_level2_witness :
  ∃ sig, NextJS.level3 (NextJS.run (fun _ => None) Samples.parser Samples.apiProject
                          Samples.noManifest Samples.clock)
           !! "app/api/users/route.ts:GET" = Some sig
         ∧ NextJS.sg_file sig +:+ ":" +:+ NextJS.sg_name sig = "app/api/users/route.ts:GET"
         ∧ is_Some (NextJS.level2 (NextJS.run (fun _ => None) Samples.parser Samples.apiProject
                                     Samples.noManifest Samples.clock)
                      !! NextJS.sg_file sig).
Proof.
  destruct (NextJS.level3 (NextJS.run (fun _ => None) Samples.parser Samples.apiProject
                             Samples.noManifest Samples.clock)
              !! "app/api/users/route.ts:GET") as [sig|] eqn:H; [|by vm_compute in H].
  exists sig. split; [done|].
  by destruct (X9_level3_refers_to_level2 _ _ _ _ _ _ _ H) as (<- & _ & _ & ?).
Defined.

Lemma nameClass_cases (api : bool) (n : string) :
  nameClass api n ∈ ["function"; "component"; "hook"; "api-handler"]
  ∧ (nameClass api n = "component" ↔ componentName n = true)
  ∧ (nameClass api n = "hook" ↔ componentName n = false ∧ hookName n = true)
  ∧ (nameClass api n = "api-handler" → api = true ∧ n = "default").
Proof.
  unfold nameClass.
  destruct (componentName n), (hookName n), api; simpl;
    try destruct (bool_decide (n = "default")) eqn:Hd;
    try apply bool_decide_eq_true in Hd;
    (split; [set_solver|]); (split; [split; [done|by intros]|]);
    (split; [split; [done|by intros [? ?]]|]); done.
Qed.

(** X10. The type of a level 3 entry is read off its name alone: an entry
    is a component exactly when its name does not begin with a lower-case
    letter, and a hook exactly when its name begins with a lower-case
    letter, starts with [use] and goes on with a character that is not a
    lower-case letter.  An entry of type api-handler bears the name
    [default] and comes from a file whose path holds an [api] directory:
    no function named after an HTTP verb is one.  The lower-case letters
    are the characters that [toUpperCase] changes: a-z and, of the Latin-1
    characters, the micro sign and the letters from the sharp s to the y
    with diaeresis. *)
Theorem X10_level3_type_by_name (parseJson : JsonParser) (parse : Parser) (p : Project)
    (pj : PackageJson) (clock : NextJS.Clock) (key : string) (sig : NextJS.Signature) :
  NextJS.level3 (NextJS.run parseJson parse p pj clock) !! key = Some sig →
  NextJS.sg_type sig ∈ ["function"; "component"; "hook"; "api-handler"]
  ∧ (NextJS.sg_type sig = "component" ↔ componentName (NextJS.sg_name sig) = true)
  ∧ (NextJS.sg_type sig = "hook"
     ↔ componentName (NextJS.sg_name sig) = false ∧ hookName (NextJS.sg_name sig) = true)
  ∧ (NextJS.sg_type sig = "api-handler" →
     NextJS.sg_name sig = "default"
     ∧ ∃ f, f ∈ NextJS.sourceFiles p ∧ NextJS.sg_file sig = recordKey p f
            ∧ JsString.includes (f_path f) "/api/" = true).
Proof.
  intros H.
  destruct (nextjs_level3_entries parseJson parse p pj clock key sig H)
    as (f & Hf & Hfile & _ & _ & (api & -> & Hapi) & _).
  destruct (nameClass_cases api (NextJS.sg_name sig)) as (? & ? & ? & Hh).
  repeat (split; [done|]).
  intros [-> ->]%Hh. split; [done|]. exists f. auto.
Qed.

(** A name that begins with a Latin-1 lower-case letter (here the e with
    acute accent, 233) is no component name, one that begins with the
    division sign (247) or a capital Latin-1 letter is. *)
Example latin1_names :
  NextJS.isReactComponent (Some (String (ascii_of_nat 233) "clair")) = Ok false
  ∧ Compact.classifyFunction (String (ascii_of_nat 233) "clair") = Ok "function"
  ∧ NextJS.isReactComponent (Some (String (ascii_of_nat 201) "clair")) = Ok true
  ∧ NextJS.isReactComponent (Some (String (ascii_of_nat 247) "x")) = Ok true
  ∧ NextJS.isCustomHook (Some (String "u" (String "s" (String "e" (String (ascii_of_nat 223) "")))))
    = Ok false.
Proof. repeat split; vm_compute; reflexivity. Qed.

Lemma X10_level3_type_by_name_witness :
  ∃ sig, NextJS.level3 (NextJS.run (fun _ => None) Samples.parser Samples.apiProject
                          Samples.noManifest Samples.clock)
           !! "app/api/users/route.ts:GET" = Some sig
         ∧ (NextJS.sg_type sig = "component" ↔ componentName (NextJS.sg_name sig) = true)
         ∧ (NextJS.sg_type sig = "api-handler" → NextJS.sg_name sig = "default").
Proof.
  destruct (NextJS.level3 (NextJS.run (fun _ => None) Samples.parser Samples.apiProject
                             Samples.noManifest Samples.clock)
              !! "app/api/users/route.ts:GET") as [sig|] eqn:H; [|by vm_compute in H].
  exists sig. split; [done|].
  destruct (X10_level3_type_by_name _ _ _ _ _ _ _ H) as (_ & Hc & _ & Ha).
  split; [done|]. intros Ht. by destruct (Ha Ht).
Defined.

(** X11. The comprehensive generator records every module it can read and
    parse whose tree declares no function or arrow-function variable named
    [use]: the analysis of such a file writes a level 2 record whose
    complexity is the number of function declarations and of arrow
    functions bound to a named variable in the tree, and whose time is the
    file's; and the run ends with a level 2 record under the file's path. *)
Theorem X11_record_for_every_sound_file (parse : Parser) (p : Project)
    (f : FileEntry) (code : string) (ast : Node) :
  f_content f = Some code →
  parse code {| plugins := pluginsFor (f_path f); errorRecovery := false |} = Some ast →
  existsb declaresUse (traversal ast) = false →
  (∀ i, ∃ r, NextJS.level2 (NextJS.analyzeStep parse p i f) !! recordKey p f = Some r
             ∧ NextJS.ms_complexity r = length (filter declaresFunction (traversal ast))
             ∧ NextJS.ms_lastModified r = f_mtime f)
  ∧ (f ∈ NextJS.sourceFiles p →
     ∀ parseJson pj clock,
       is_Some (NextJS.level2 (NextJS.run parseJson parse p pj clock) !! recordKey p f)).
Proof.
  intros Hc Hp Huse.
  destruct (run_visitors_total (f_path f) (traversal ast) NextJS.emptyAnalysis Huse)
    as [a Ha].
  assert (∀ i, ∃ r, NextJS.level2 (NextJS.analyzeStep parse p i f) !! recordKey p f = Some r
                    ∧ NextJS.ms_complexity r
                      = length (filter declaresFunction (traversal ast))
                    ∧ NextJS.ms_lastModified r = f_mtime f) as Hstep.
  { intros i. unfold NextJS.analyzeStep, NextJS.analyzeFile.
    rewrite Hc, Hp, Ha. simpl. fold (recordKey p f). rewrite lookup_insert_eq.
    eexists. split; [done|]. split; [|done]. simpl.
    by destruct (run_visitors_class _ _ _ _ Ha) as [_ ->]; [constructor|]. }
  split; [done|].
  intros Hf parseJson pj clock. unfold NextJS.run. rewrite nextjs_generate_level2.
  apply list_elem_of_split in Hf as (pre & post & ->).
  rewrite foldl_app. cbn [foldl]. apply analyzeSteps_grow.
  destruct (Hstep (foldl (NextJS.analyzeStep parse p)
                     (NextJS.index (NextJS.generateLevel1 p clock (NextJS.new p pj clock)))
                     pre)) as (r & -> & _). eauto.
Qed.

Lemma X11_record_for_every_sound_file_witness :
  (∃ r, NextJS.level2
          (NextJS.analyzeStep Samples.parser Samples.apiProject
             (NextJS.index (NextJS.new Samples.apiProject Samples.noManifest Samples.clock))
             Samples.apiRouteFile)
          !! recordKey Samples.apiProject Samples.apiRouteFile = Some r
        ∧ NextJS.ms_complexity r = 1)
  ∧ is_Some (NextJS.level2 (NextJS.run (fun _ => None) Samples.parser Samples.apiProject
                              Samples.noManifest Samples.clock)
               !! recordKey Samples.apiProject Samples.apiRouteFile).
Proof.
  destruct (X11_record_for_every_sound_file Samples.parser Samples.apiProject
              Samples.apiRouteFile "export async function GET() {}"
              (Program [ExportNamedDeclaration
                          (Some (FunctionDeclaration (Some "GET") [] true [Samples.block]))
                          []]))
    as [Hstep Hrun]; [reflexivity|reflexivity|reflexivity|].
  split.
  - destruct (Hstep (NextJS.index
                       (NextJS.new Samples.apiProject Samples.noManifest Samples.clock)))
      as (r & Hr & Hn & _).
    exists r. split; [exact Hr|exact Hn].
  - apply Hrun. vm_compute. left.
Defined.

(** ** Records of the budget-aware generator *)

Lemma uniq_NoDup (seen xs : list string) :
  NoDup (uniq seen xs) ∧ ∀ x, x ∈ uniq seen xs → x ∉ seen.
Proof.
  revert seen. induction xs as [|x xs IH]; intros seen; simpl.
  - split; [constructor|]. by intros x ?%elem_of_nil.
  - destruct (decide (x ∈ seen)) as [Hx|Hx]; [apply IH|].
    destruct (IH (x :: seen)) as [Hnd Hout]. split.
    + constructor; [|done]. intros Hin. apply (Hout x Hin). by left.
    + intros y [->|Hy]%elem_of_cons; [done|].
      intros Hs. apply (Hout y Hy). by right.
Qed.

Lemma compact_visit_frame rel v a ex a' ex' :
  Compact.visit rel v a ex = Ok (a', ex') →
  Compact.a_type a' = Compact.a_type a
  ∧ ∀ x, x ∈ Compact.a_features a' →
         x ∈ Compact.a_features a ∨ x ∈ ["SSR"; "SSG"; "ISR"].
Proof.
  unfold Compact.visit. intros H.
  destruct (v_node v); simplify_eq/=; try (split; [done|by left]).
  - case_match; simplify_eq/=; split; try done; by left.
  - case_match; simplify_eq/=; split; try done; by left.
  - destruct (truthy _ && isExported v); simplify_eq/=; [|split; [done|by left]].
    destruct (Compact.classifyFunction _); simplify_eq/=. split; [done|by left].
  - split; [done|]. intros x Hx.
    apply elem_of_app in Hx as [Hx|Hx]; [by left|right].
    repeat (apply elem_of_app in Hx as [Hx|Hx]);
      match type of Hx with _ ∈ (if ?b then _ else _) => destruct b end;
      try (by apply elem_of_nil in Hx);
      apply list_elem_of_singleton in Hx as ->; repeat constructor.
Qed.

Lemma compact_run_visitors_frame rel vs a ex a' ex' :
  Compact.run_visitors rel vs a ex = (Ok a', ex') →
  Compact.a_type a' = Compact.a_type a
  ∧ ∀ x, x ∈ Compact.a_features a' →
         x ∈ Compact.a_features a ∨ x ∈ ["SSR"; "SSG"; "ISR"].
Proof.
  revert a ex. induction vs as [|v vs IH]; intros a ex H; simpl in H.
  - simplify_eq. split; [done|by left].
  - destruct (Compact.visit rel v a ex) as [[a1 ex1]|e] eqn:Hv; [|done].
    destruct (compact_visit_frame _ _ _ _ _ _ Hv) as [Ht Hf].
    destruct (IH _ _ H) as [Ht' Hf']. split; [congruence|].
    intros x Hx. destruct (Hf' x Hx) as [Hx1|Hx1]; [by apply Hf|by right].
Qed.

Section CompactRecords.
Variable parse : Parser.
Variable p : Project.

Lemma analyzeLoop_keyed (P : string → Compact.Analysis → Prop) files g :
  (∀ f g0 a g1, f ∈ files →
     Compact.analyzeFileCompact parse p f g0 = (Ok (Some a), g1) → P (recordKey p f) a) →
  map_Forall P (Compact.modules (Compact.index g)) →
  map_Forall P (Compact.modules (Compact.index (Compact.analyzeLoop parse p files g))).
Proof.
  revert g. induction files as [|f files IH]; intros g HP Hg; simpl; [done|].
  destruct (Compact.overBudget g); [done|].
  destruct (Compact.analyzeFileCompact parse p f g) as [r g'] eqn:Hf.
  destruct (analyzeFileCompact_frame parse p _ _ _ _ Hf) as (Hm & _).
  assert (∀ f' g0 a g1, f' ∈ files →
            Compact.analyzeFileCompact parse p f' g0 = (Ok (Some a), g1) →
            P (recordKey p f') a) as HP'
    by (intros f' g0 a g1 Hin; apply HP; by right).
  destruct r as [[a|]|e]; apply IH; try done; try (by rewrite Hm).
  simpl. rewrite Hm. apply map_Forall_insert_2; [|done].
  eapply HP; [by left|done].
Qed.

Lemma analyzeFileCompact_tokens f g r g' :
  Compact.analyzeFileCompact parse p f g = (r, g') →
  Compact.currentTokens g'
  = match r with
    | Ok (Some a) => (Compact.currentTokens g + Compact.estimateTokens a)%Q
    | _ => Compact.currentTokens g
    end.
Proof.
  unfold Compact.analyzeFileCompact. intros H.
  destruct (f_content f) as [code|]; [|by simplify_eq].
  destruct (_ <? _)%Z; [by simplify_eq|].
  destruct (parse _ _) as [ast|]; [|by simplify_eq].
  destruct (Compact.run_visitors _ _ _ _) as [[a|e] ex]; by simplify_eq.
Qed.

Lemma analyzeLoop_over files g :
  Compact.overBudget g = true → Compact.analyzeLoop parse p files g = g.
Proof. intros H. destruct files; simpl; [done|by rewrite H]. Qed.

Lemma analyzeLoop_overshoot files g :
  Compact.overBudget g = false →
  Compact.overBudget (Compact.analyzeLoop parse p files g) = true →
  ∃ f a t,
    f ∈ files
    ∧ Compact.modules (Compact.index (Compact.analyzeLoop parse p files g)) !! recordKey p f
      = Some a
    ∧ Compact.currentTokens (Compact.analyzeLoop parse p files g)
      = (t + Compact.estimateTokens a)%Q
    ∧ Qle_bool t (Compact.maxTokens g * (8 # 10)) = true.
Proof.
  revert g. induction files as [|f files IH]; intros g Hg Hover; simpl in *; [congruence|].
  rewrite Hg in *.
  destruct (Compact.analyzeFileCompact parse p f g) as [r g'] eqn:Hf.
  destruct (analyzeFileCompact_frame parse p _ _ _ _ Hf) as (_ & _ & _ & Hmax).
  pose proof (analyzeFileCompact_tokens _ _ _ _ Hf) as Htok.
  assert (∀ g1, Compact.overBudget g1 = false →
            Compact.maxTokens g1 = Compact.maxTokens g →
            Compact.overBudget (Compact.analyzeLoop parse p files g1) = true →
            ∃ f0 a t,
              f0 ∈ f :: files
              ∧ Compact.modules (Compact.index (Compact.analyzeLoop parse p files g1))
                  !! recordKey p f0 = Some a
              ∧ Compact.currentTokens (Compact.analyzeLoop parse p files g1)
                = (t + Compact.estimateTokens a)%Q
              ∧ Qle_bool t (Compact.maxTokens g * (8 # 10)) = true) as Hrest.
  { intros g1 Hg1 Hmax1 Hover1.
    destruct (IH g1 Hg1 Hover1) as (f0 & a & t & ? & ? & ? & Ht).
    exists f0, a, t. rewrite <- Hmax1. repeat split; try done. by right. }
  assert (∀ g1, Compact.currentTokens g1 = Compact.currentTokens g →
            Compact.maxTokens g1 = Compact.maxTokens g →
            Compact.overBudget g1 = false) as Hsame.
  { intros g1 H1 H2. unfold Compact.overBudget in *. by rewrite H1, H2. }
  destruct r as [[a|]|e]; [|by apply Hrest; [apply Hsame|..]|by apply Hrest; [apply Hsame|..]].
  set (g1 := Compact.with_index g' _) in *.
  destruct (Compact.overBudget g1) eqn:Hg1; [|by apply Hrest].
  rewrite analyzeLoop_over by done.
  exists f, a, (Compact.currentTokens g). split; [by left|].
  split; [apply lookup_insert_eq|]. split; [done|].
  unfold Compact.overBudget in Hg. by apply negb_false_iff in Hg.
Qed.

Lemma analyzeLoop_skips pre f post g :
  (∀ g0, ∃ r, Compact.analyzeFileCompact parse p f g0 = (r, g0) ∧ ∀ a, r ≠ Ok (Some a)) →
  Compact.analyzeLoop parse p (pre ++ f :: post) g
  = Compact.analyzeLoop parse p (pre ++ post) g.
Proof.
  intros Hf. revert g. induction pre as [|f' pre IH]; intros g; simpl.
  - destruct (Compact.overBudget g) eqn:Hg; [by rewrite analyzeLoop_over|].
    destruct (Hf g) as (r & -> & Hr). by destruct r as [[a|]|e]; [destruct (Hr a)|..].
  - destruct (Compact.overBudget g); [done|].
    by destruct (Compact.analyzeFileCompact parse p f' g) as [[[a|]|e] g'].
Qed.

End CompactRecords.

(** X12. After a run of the budget-aware generator every record of
    [modules] stands under the relative path of one of the files analysed,
    a file that can be read and holds at most 10000 characters; its type is
    the classification of that relative path, its imports hold no module
    twice, and its features are among SSR, SSG and ISR. *)
Theorem X12_module_records (parse : Parser) (p : Project) (pj : PackageJson) (now : Z)
    (key : string) (a : Compact.Analysis) :
  Compact.modules (Compact.run parse p pj now) !! key = Some a →
  (∃ f code, f ∈ Compact.sourceFiles p ∧ key = recordKey p f
             ∧ f_content f = Some code ∧ (Z.of_nat (String.length code) ≤ 10000)%Z)
  ∧ Compact.a_type a = Compact.classifyFile key
  ∧ NoDup (Compact.a_imports a)
  ∧ ∀ x, x ∈ Compact.a_features a → x ∈ ["SSR"; "SSG"; "ISR"].
Proof.
  intros H.
  pose (P := fun (key : string) (a : Compact.Analysis) =>
     (∃ f code, f ∈ Compact.sourceFiles p ∧ key = recordKey p f
                ∧ f_content f = Some code ∧ (Z.of_nat (String.length code) ≤ 10000)%Z)
     ∧ Compact.a_type a = Compact.classifyFile key
     ∧ NoDup (Compact.a_imports a)
     ∧ ∀ x, x ∈ Compact.a_features a → x ∈ ["SSR"; "SSG"; "ISR"]).
  assert (map_Forall P (Compact.modules (Compact.run parse p pj now))) as Hall;
    [|exact (Hall _ _ H)].
  apply (analyzeLoop_keyed parse p P); [|apply map_Forall_empty].
  intros f g0 a0 g1 Hf Ha.
  destruct (analyzeFileCompact_record parse p _ _ _ _ Ha)
    as (code & ast & a1 & ex & Hc & Hlen & _ & Hr & ->).
  destruct (compact_run_visitors_frame _ _ _ _ _ _ Hr) as [Ht Hfeat].
  split; [by exists f, code|]. split; [done|]. split.
  - simpl. eapply sublist_NoDup; [apply uniq_NoDup|apply sublist_take].
  - intros x Hx. destruct (Hfeat x Hx) as [Hin|Hin]; [|done]. by apply elem_of_nil in Hin.
Qed.

Lemma X12_module_records_witness :
  ∃ a, Compact.modules (Compact.run Samples.parser Samples.importsProject
                          Samples.noManifest 0) !! "lib/many.js" = Some a
       ∧ Compact.a_type a = Compact.classifyFile "lib/many.js"
       ∧ NoDup (Compact.a_imports a).
Proof.
  destruct (Compact.modules (Compact.run Samples.parser Samples.importsProject
                               Samples.noManifest 0) !! "lib/many.js") as [a|] eqn:H;
    [|by vm_compute in H].
  exists a. split; [done|].
  by destruct (X12_module_records _ _ _ _ _ _ H) as (_ & ? & ? & _).
Defined.

(** X13. The budget is overrun by one record at most.  When a loop of
    [analyzeKeyFiles] that starts at or below the threshold ends above it,
    the total is what the last record added to a total that was at or below
    the threshold, 80% of [maxTokens], and that record is in [modules]. *)
Theorem X13_budget_overrun_by_one_record (parse : Parser) (p : Project)
    (files : list FileEntry) (g : Compact.Generator) :
  Compact.overBudget g = false →
  Compact.overBudget (Compact.analyzeLoop parse p files g) = true →
  ∃ f a t,
    f ∈ files
    ∧ Compact.modules (Compact.index (Compact.analyzeLoop parse p files g)) !! recordKey p f
      = Some a
    ∧ Compact.currentTokens (Compact.analyzeLoop parse p files g)
      = (t + Compact.estimateTokens a)%Q
    ∧ Qle_bool t (Compact.maxTokens g * (8 # 10)) = true.
Proof. apply analyzeLoop_overshoot. Qed.

Lemma X13_budget_overrun_by_one_record_witness :
  let p := Samples.bigProject in
  let g := Compact.analyzeProject p (Compact.new Samples.noManifest 0) in
  let reached := Compact.analyzeLoop Samples.parser p (Compact.sourceFiles p) g in
  ∃ f a t,
    f ∈ Compact.sourceFiles p
    ∧ Compact.modules (Compact.index reached) !! recordKey p f = Some a
    ∧ Compact.currentTokens reached = (t + Compact.estimateTokens a)%Q
    ∧ Qle_bool t (Compact.maxTokens g * (8 # 10)) = true.
Proof.
  intros p g reached.
  apply (X13_budget_overrun_by_one_record Samples.parser p (Compact.sourceFiles p) g);
    vm_compute; reflexivity.
Defined.

(** X14. A module that yields no record leaves no trace in the loop.  In
    the budget-aware generator a file that cannot be read, holds more than
    10000 characters or does not parse, and in the comprehensive generator a
    file that cannot be read, does not parse or declares the name [use],
    can be taken out of the list of files without any change to the outcome
    of the loop. *)
Theorem X14_failed_file_is_skipped (parse : Parser) (p : Project) (f : FileEntry) :
  (f_content f = None
   ∨ (∃ code, f_content f = Some code
              ∧ ((10000 < Z.of_nat (String.length code))%Z
                 ∨ parse code {| plugins := pluginsFor (f_path f); errorRecovery := true |}
                   = None)) →
   ∀ pre post g,
     Compact.analyzeLoop parse p (pre ++ f :: post) g
     = Compact.analyzeLoop parse p (pre ++ post) g)
  ∧ (f_content f = None
     ∨ (∃ code, f_content f = Some code
                ∧ (parse code {| plugins := pluginsFor (f_path f); errorRecovery := false |}
                   = None
                   ∨ ∃ ast, parse code {| plugins := pluginsFor (f_path f);
                                          errorRecovery := false |} = Some ast
                            ∧ existsb declaresUse (traversal ast) = true)) →
     ∀ pre post i,
       foldl (NextJS.analyzeStep parse p) i (pre ++ f :: post)
       = foldl (NextJS.analyzeStep parse p) i (pre ++ post)).
Proof.
  split.
  - intros Hf pre post g. apply analyzeLoop_skips. intros g0.
    unfold Compact.analyzeFileCompact.
    destruct Hf as [->|(code & -> & [Hlen|Hp])]; [by eexists| |].
    + apply Z.ltb_lt in Hlen. unfold Compact.maxFileChars. rewrite Hlen. by eexists.
    + rewrite Hp. destruct (_ <? _)%Z; by eexists.
  - intros Hf pre post i. rewrite !foldl_app. cbn [foldl]. f_equal.
    destruct Hf as [Hc|(code & Hc & [Hp|(ast & Hp & Huse)])].
    + unfold NextJS.analyzeStep, NextJS.analyzeFile. by rewrite Hc.
    + unfold NextJS.analyzeStep, NextJS.analyzeFile. by rewrite Hc, Hp.
    + by destruct (analyzeStep_declaresUse parse p (foldl (NextJS.analyzeStep parse p) i pre)
                     f code ast Hc Hp Huse) as [_ ->].
Qed.

Lemma X14_failed_file_is_skipped_witness :
  (∀ pre post g,
     Compact.analyzeLoop Samples.parser Samples.hugeProject
       (pre ++ Samples.hugeFile :: post) g
     = Compact.analyzeLoop Samples.parser Samples.hugeProject (pre ++ post) g)
  ∧ (∀ pre post i,
       foldl (NextJS.analyzeStep Samples.parser Samples.useProject) i
         (pre ++ Samples.useFile "plain.js" "function use() {}" :: post)
       = foldl (NextJS.analyzeStep Samples.parser Samples.useProject) i (pre ++ post)).
Proof.
  split.
  - apply (proj1 (X14_failed_file_is_skipped Samples.parser Samples.hugeProject
                    Samples.hugeFile)).
    right. exists Samples.hugeImport. split; [reflexivity|]. left. vm_compute. reflexivity.
  - apply (proj2 (X14_failed_file_is_skipped Samples.parser Samples.useProject
                    (Samples.useFile "plain.js" "function use() {}"))).
    right. exists "function use() {}". split; [reflexivity|]. right.
    exists (Program [FunctionDeclaration (Some "use") [] false [Samples.block]]).
    split; reflexivity.
Defined.

(** ** Routes *)

Lemma filePathToRoute_slash (filePath routerType route : string) :
  NextJS.filePathToRoute filePath routerType = Some route →
  JsString.startsWith route "/" = true.
Proof.
  unfold NextJS.filePathToRoute. intros H.
  repeat case_decide; repeat case_match; simplify_eq; try done;
    apply (startsWith_app "/").
Qed.

Lemma getRouteType_kinds (filePath : string) :
  NextJS.getRouteType filePath ∈ ["layout"; "loading"; "error"; "not-found"; "page"; "api"].
Proof.
  unfold NextJS.getRouteType. repeat case_decide; try case_match; repeat constructor.
Qed.

Lemma extractRoutes_records (dir : string) (files : list FileEntry) (type : string)
    (r : NextJS.RouteRec) :
  r ∈ NextJS.extractRoutes dir files type →
  ∃ f, f ∈ files
       ∧ NextJS.r_file r = Path.relative dir (f_path f)
       ∧ NextJS.filePathToRoute (NextJS.r_file r) type = Some (NextJS.r_path r)
       ∧ NextJS.r_type r = NextJS.getRouteType (f_path f).
Proof.
  unfold NextJS.extractRoutes. intros H.
  apply elem_of_flat_map in H as (f & Hf & Hr). exists f. split; [done|].
  destruct (NextJS.filePathToRoute _ _) as [route|] eqn:Hroute;
    [|by apply elem_of_nil in Hr].
  by apply list_elem_of_singleton in Hr as ->.
Qed.

(** X15. Every route record of a run comes from a file below the router's
    directory, [pages] or [app] at the top of the project or under [src]:
    its file is that file's path relative to the directory, its path is what
    [filePathToRoute] makes of it and begins with a slash, and its type is
    one of layout, loading, error, not-found, page and api. *)
Theorem X15_route_records (parseJson : JsonParser) (parse : Parser) (p : Project)
    (pj : PackageJson) (clock : NextJS.Clock) (router : string) (rs : list NextJS.RouteRec)
    (r : NextJS.RouteRec) :
  (router = "pages"
   ∧ NextJS.routes_pages (NextJS.arch_routes (NextJS.run parseJson parse p pj clock)) = Some rs)
  ∨ (router = "app"
     ∧ NextJS.routes_app (NextJS.arch_routes (NextJS.run parseJson parse p pj clock)) = Some rs) →
  r ∈ rs →
  (∃ dir files f,
     dir ∈ [router; "src/" +:+ router]
     ∧ NextJS.filesUnder p dir = Some files
     ∧ f ∈ files
     ∧ NextJS.r_file r = Path.relative (Path.join (projectPath p) dir) (f_path f)
     ∧ NextJS.r_type r = NextJS.getRouteType (f_path f))
  ∧ NextJS.filePathToRoute (NextJS.r_file r) router = Some (NextJS.r_path r)
  ∧ JsString.startsWith (NextJS.r_path r) "/" = true
  ∧ NextJS.r_type r ∈ ["layout"; "loading"; "error"; "not-found"; "page"; "api"].
Proof.
  intros Hrs Hr.
  assert (∃ dir files, dir ∈ [router; "src/" +:+ router]
                       ∧ NextJS.filesUnder p dir = Some files
                       ∧ rs = NextJS.extractRoutes (Path.join (projectPath p) dir) files router)
    as (dir & files & Hdir & Hfiles & ->).
  { assert (NextJS.routesOf p router ("src/" +:+ router) router = Some rs) as H
      by (by destruct Hrs as [[-> H]|[-> H]]).
    unfold NextJS.routesOf in H.
    destruct (NextJS.filesUnder p router) as [files|] eqn:H1.
    - injection H as <-. exists router, files. split; [by left|done].
    - destruct (NextJS.filesUnder p ("src/" +:+ router)) as [files|] eqn:H2; [|done].
      injection H as <-. exists ("src/" +:+ router), files. split; [by right; left|done]. }
  destruct (extractRoutes_records _ _ _ _ Hr) as (f & Hf & Hfile & Hroute & Htype).
  split; [by exists dir, files, f|]. split; [done|].
  split; [by eapply filePathToRoute_slash|].
  rewrite Htype. apply getRouteType_kinds.
Qed.

Lemma X15_route_records_witness :
  ∃ rs r,
    NextJS.routes_pages
      (NextJS.arch_routes (NextJS.run (fun _ => None) Samples.parser Samples.routesProject
                             Samples.noManifest Samples.clock)) = Some rs
    ∧ r ∈ rs
    ∧ NextJS.filePathToRoute (NextJS.r_file r) "pages" = Some (NextJS.r_path r)
    ∧ JsString.startsWith (NextJS.r_path r) "/" = true.
Proof.
  destruct (NextJS.routes_pages
              (NextJS.arch_routes (NextJS.run (fun _ => None) Samples.parser
                                     Samples.routesProject Samples.noManifest Samples.clock)))
    as [[|r rs]|] eqn:H; [by vm_compute in H| |by vm_compute in H].
  exists (r :: rs), r. split; [done|]. split; [by left|].
  destruct (X15_route_records _ _ _ _ _ "pages" (r :: rs) r (or_introl (conj eq_refl H)))
    as (_ & ? & ? & _); [by left|done].
Defined.

Lemma dynamic_go_plain (pre rest : string) :
  count_char "[" pre = 0 →
  JsString.dynamic_go None (pre +:+ rest) = pre +:+ JsString.dynamic_go None rest.
Proof.
  induction pre as [|a pre IH]; [done|]. simpl. intros H.
  destruct (decide (a = "["%char)); [done|]. rewrite string_app_cons. f_equal. by apply IH.
Qed.

Lemma dynamic_go_run (name : string) :
  ∀ run post : string,
    count_char "]" name = 0 → name ≠ "" ∨ run ≠ "" →
    JsString.dynamic_go (Some run) (name +:+ String "]" post)
    = String ":" ((String.rev run +:+ name) +:+ JsString.dynamic_go None post).
Proof.
  induction name as [|a name IH]; intros run post Hc Hne.
  - destruct Hne as [?|Hrun]; [done|]. rewrite string_app_nil_r.
    by destruct run.
  - simpl in Hc. destruct (decide (a = "]"%char)); [done|].
    rewrite string_app_cons. simpl. rewrite decide_False by done.
    rewrite IH by (done || by right). do 2 f_equal.
    unfold String.rev. simpl. rewrite (rev_app_acc run (String a "")).
    by rewrite string_app_assoc.
Qed.

(** X16. The rewriting of dynamic route segments.  A route without an
    opening bracket is left as it is.  In a route whose first opening
    bracket is followed by a bracketed name, one character at least and
    none of them a closing bracket, the bracketed name becomes a colon and
    the name, what stands before it is kept, and what comes after it is
    rewritten in the same way. *)
Theorem X16_dynamic_segments (pre name post : string) :
  count_char "[" pre = 0 →
  (JsString.replace_dynamic pre = pre)
  ∧ (name ≠ "" → count_char "]" name = 0 →
     JsString.replace_dynamic (pre +:+ "[" +:+ name +:+ "]" +:+ post)
     = pre +:+ ":" +:+ name +:+ JsString.replace_dynamic post).
Proof.
  intros Hpre. unfold JsString.replace_dynamic. split.
  - rewrite <- (string_app_nil_r pre) at 1. rewrite dynamic_go_plain by done.
    apply string_app_nil_r.
  - intros Hname Hc. rewrite dynamic_go_plain by done. f_equal.
    change ("[" +:+ name +:+ "]" +:+ post) with (String "[" (name +:+ String "]" post)).
    simpl. by rewrite dynamic_go_run by (done || by left).
Qed.

Lemma X16_dynamic_segments_witness :
  JsString.replace_dynamic "blog/" = "blog/"
  ∧ JsString.replace_dynamic ("blog/" +:+ "[" +:+ "slug" +:+ "]" +:+ "/[id]")
    = "blog/" +:+ ":" +:+ "slug" +:+ JsString.replace_dynamic "/[id]".
Proof.
  destruct (X16_dynamic_segments "blog/" "slug" "/[id]") as [H1 H2]; [reflexivity|].
  split; [exact H1|]. apply H2; [discriminate|reflexivity].
Defined.

(** ** Export declarations and what lies below them *)

Lemma Node_tree_ind (P : Node → Prop) :
  (∀ body, Forall P body → P (Program body)) →
  (∀ specs source, P (ImportDeclaration specs source)) →
  (∀ d, P d → P (ExportDefaultDeclaration d)) →
  (∀ d specs, from_option P True d → P (ExportNamedDeclaration d specs)) →
  (∀ i ps async body, Forall P ps → Forall P body →
     P (FunctionDeclaration i ps async body)) →
  (∀ i body, Forall P body → P (ClassDeclaration i body)) →
  (∀ ds, Forall P ds → P (VariableDeclaration ds)) →
  (∀ i init, P i → from_option P True init → P (VariableDeclarator i init)) →
  (∀ ps async body, Forall P ps → Forall P body →
     P (ArrowFunctionExpression ps async body)) →
  (∀ c args, P c → Forall P args → P (CallExpression c args)) →
  (∀ name, P (Identifier name)) →
  (∀ props, Forall P props → P (ObjectPattern props)) →
  (∀ k v, P k → P v → P (ObjectProperty k v)) →
  (∀ els, Forall (from_option P True) els → P (ArrayPattern els)) →
  (∀ a, P a → P (RestElement a)) →
  (∀ cs, Forall P cs → P (OtherNode cs)) →
  ∀ n, P n.
Proof.
  intros HProgram HImport HDefault HNamed HFunction HClass HVars HDeclarator HArrow HCall
    HIdent HPattern HProperty HArray HRest HOther.
  fix IH 1.
  intros [body|specs source|d|d specs|i ps async body|i body|ds|i init|ps async body
         |c args|name|props|k v|els|a|cs].
  - apply HProgram. revert body. fix IHl 1. intros [|x l]; constructor; [apply IH|apply IHl].
  - apply HImport.
  - apply HDefault, IH.
  - apply HNamed. destruct d as [x|]; [apply IH|exact I].
  - apply HFunction.
    + revert ps. fix IHl 1. intros [|x l]; constructor; [apply IH|apply IHl].
    + revert body. fix IHl 1. intros [|x l]; constructor; [apply IH|apply IHl].
  - apply HClass. revert body. fix IHl 1. intros [|x l]; constructor; [apply IH|apply IHl].
  - apply HVars. revert ds. fix IHl 1. intros [|x l]; constructor; [apply IH|apply IHl].
  - apply HDeclarator; [apply IH|]. destruct init as [x|]; [apply IH|exact I].
  - apply HArrow.
    + revert ps. fix IHl 1. intros [|x l]; constructor; [apply IH|apply IHl].
    + revert body. fix IHl 1. intros [|x l]; constructor; [apply IH|apply IHl].
  - apply HCall; [apply IH|].
    revert args. fix IHl 1. intros [|x l]; constructor; [apply IH|apply IHl].
  - apply HIdent.
  - apply HPattern. revert props. fix IHl 1. intros [|x l]; constructor; [apply IH|apply IHl].
  - apply HProperty; apply IH.
  - apply HArray. revert els. fix IHl 1.
    intros [|[x|] l]; constructor; [apply IH|apply IHl|exact I|apply IHl].
  - apply HRest, IH.
  - apply HOther. revert cs. fix IHl 1. intros [|x l]; constructor; [apply IH|apply IHl].
Qed.

Lemma flat_under (l : list Node) (par : option Node) (v : Visit) :
  Forall (fun n => ∀ parent v, v ∈ preorder parent true n → v_under_export v = true) l →
  v ∈ flat_map (preorder par true) l → v_under_export v = true.
Proof.
  intros Hl (n & Hn & Hv)%elem_of_flat_map.
  by apply (proj1 (Forall_forall _ _) Hl n Hn par).
Qed.

(** Below a node that is itself below an export declaration every visit
    is marked as such. *)
Lemma preorder_under (n : Node) :
  ∀ parent v, v ∈ preorder parent true n → v_under_export v = true.
Proof.
  induction n using Node_tree_ind; intros parent v Hv; simpl in Hv;
    apply elem_of_cons in Hv as [->|Hv]; try done;
    repeat match goal with
           | H : _ ∈ _ ++ _ |- _ => apply elem_of_app in H as [H|H]
           | H : _ ∈ [] |- _ => by apply elem_of_nil in H
           | H : _ ∈ match ?o with Some _ => _ | None => _ end |- _ =>
               destruct o; simpl in *
           end;
    try match goal with
        | H : Forall _ ?l, Hv : _ ∈ flat_map _ ?l |- _ => exact (flat_under l _ _ H Hv)
        end; eauto.
  - apply elem_of_flat_map in Hv as ([x|] & Hx & Hv); [|by apply elem_of_nil in Hv].
    exact (proj1 (Forall_forall _ _) H _ Hx _ v Hv).
Qed.

(** X17. Whatever is visited inside an export declaration counts as
    exported: [isExported] holds of the declaration and of every node below
    it, at any depth.  So the budget-aware generator writes an entry of the
    [exports] index for every named function declared there, a function
    nested in the body of an exported one included. *)
Theorem X17_exported_below_an_export (d : Node) (parent : option Node) (under : bool)
    (v : Visit) :
  is_export d = true →
  v ∈ preorder parent under d →
  isExported v = true
  ∧ ∀ (rel : string) (a : Compact.Analysis) (ex : gmap string Compact.ExportInfo)
      (name : string) (ps : list Node) (async : bool) (body : list Node) (t : string),
      v_node v = FunctionDeclaration (Some name) ps async body →
      name ≠ "" →
      Compact.classifyFunction name = Ok t →
      Compact.visit rel v a ex
      = Ok (a, <[rel +:+ ":" +:+ name :=
                   {| Compact.ex_name := name; Compact.ex_type := t;
                      Compact.ex_params := length ps |}]> ex).
Proof.
  intros Hd Hv.
  assert (isExported v = true) as Hexp.
  { unfold isExported.
    destruct d; try done; simpl in Hv; apply elem_of_cons in Hv as [->|Hv]; try done.
    - rewrite (preorder_under _ _ _ Hv). apply orb_true_r.
    - destruct declaration as [x|]; [|by apply elem_of_nil in Hv].
      rewrite (preorder_under _ _ _ Hv). apply orb_true_r. }
  split; [done|].
  intros rel a ex name ps async body t Hnode Hname Ht.
  unfold Compact.visit. rewrite Hnode, Hexp.
  destruct name as [|c rest]; [done|]. simpl. by rewrite Ht.
Qed.

Lemma X17_exported_below_an_export_witness :
  let inner := FunctionDeclaration (Some "inner") [] false [] in
  let outer := FunctionDeclaration (Some "outer") [] false [inner] in
  let v := {| v_node := inner; v_parent := Some outer; v_under_export := true |} in
  isExported v = true
  ∧ ∀ ex, Compact.visit "lib/a.js" v
            {| Compact.a_type := "util"; Compact.a_exports := [];
               Compact.a_imports := []; Compact.a_features := [] |} ex
          = Ok ({| Compact.a_type := "util"; Compact.a_exports := [];
                   Compact.a_imports := []; Compact.a_features := [] |},
                <["lib/a.js:inner" :=
                    {| Compact.ex_name := "inner"; Compact.ex_type := "function";
                       Compact.ex_params := 0 |}]> ex).
Proof.
  intros inner outer v.
  destruct (X17_exported_below_an_export (ExportNamedDeclaration (Some outer) []) None false v)
    as [Hexp Hvisit]; [reflexivity|do 2 right; left|].
  split; [exact Hexp|].
  intros ex.
  exact (Hvisit "lib/a.js" _ ex "inner" [] false [] "function" eq_refl
           ltac:(discriminate) eq_refl).
Defined.

(** ** The substring filters on absolute paths *)

Lemma includes_app_l (a b q : string) :
  JsString.includes a q = true → JsString.includes (a +:+ b) q = true.
Proof.
  induction a as [|x a IH]; simpl.
  - rewrite orb_false_r. destruct q; [|done]. intros _. by destruct b.
  - intros [H|H]%orb_true_iff; apply orb_true_iff.
    + left. by apply (startsWith_app_l (String x a) b q).
    + right. by apply IH.
Qed.

Lemma includes_dir_base (dir q : string) :
  JsString.includes dir q = true → JsString.includes (Path.dir_base dir) q = true.
Proof.
  unfold Path.dir_base. destruct (JsString.endsWith dir "/"); [done|apply includes_app_l].
Qed.

Lemma walked_below (dir : string) (items : option (list Entry)) (f : FileEntry) :
  f ∈ Compact.getRelevantFiles dir items ∨ f ∈ NextJS.getFilesRecursively dir items →
  ∃ rest, f_path f = Path.dir_base dir +:+ rest.
Proof.
  destruct items as [l|]; simpl; [|by intros [?%elem_of_nil|?%elem_of_nil]].
  intros [(e & _ & Hf)%elem_of_flat_map|(e & _ & Hf)%elem_of_flat_map].
  - destruct (compact_walk_chain e dir f Hf) as (names & name & -> & _).
    apply chain_below.
  - destruct (nextjs_walk_chain e dir f Hf) as (names & name & -> & _).
    apply chain_below.
Qed.

(** X18. The exclusion tests look at absolute paths, so they apply to the
    project's own location.  A project whose path contains [node_modules],
    [.next] or [dist/] gets no module record from the budget-aware
    generator, and one whose path contains [node_modules] or [.next] gets no
    level 2 and no level 3 entry from the comprehensive generator. *)
Theorem X18_project_below_an_excluded_name (p : Project) (q : string) :
  JsString.includes (projectPath p) q = true →
  (q ∈ ["node_modules"; ".next"; "dist/"] →
   Compact.sourceFiles p = []
   ∧ ∀ parse pj now, Compact.modules (Compact.run parse p pj now) = ∅)
  ∧ (q ∈ ["node_modules"; ".next"] →
     NextJS.sourceFiles p = []
     ∧ ∀ parseJson parse pj clock,
         NextJS.level2 (NextJS.run parseJson parse p pj clock) = ∅
         ∧ NextJS.level3 (NextJS.run parseJson parse p pj clock) = ∅).
Proof.
  intros Hq.
  assert (∀ f, f ∈ Compact.getRelevantFiles (projectPath p) (root p)
               ∨ f ∈ NextJS.getFilesRecursively (projectPath p) (root p) →
               JsString.includes (f_path f) q = true) as Hall.
  { intros f Hf. destruct (walked_below _ _ _ Hf) as [rest ->].
    by apply includes_app_l, includes_dir_base. }
  split; intros Hin.
  - assert (Compact.sourceFiles p = []) as Hnone.
    { apply elem_of_nil_inv. intros f Hf%subseteq_take.
      apply list_elem_of_filter in Hf as [HP Hf].
      pose proof (Hall f (or_introl Hf)) as Hinc.
      repeat (apply elem_of_cons in Hin as [->|Hin];
              [rewrite Hinc in HP; simpl in HP; by rewrite ?andb_false_r in HP|]).
      by apply elem_of_nil in Hin. }
    split; [done|]. intros parse pj now.
    unfold Compact.run, Compact.generate, Compact.detectPatterns, Compact.analyzeKeyFiles.
    by rewrite Hnone.
  - assert (NextJS.sourceFiles p = []) as Hnone.
    { apply elem_of_nil_inv. intros f Hf.
      apply list_elem_of_filter in Hf as [HP Hf].
      pose proof (Hall f (or_intror Hf)) as Hinc.
      repeat (apply elem_of_cons in Hin as [->|Hin];
              [rewrite Hinc in HP; simpl in HP; by rewrite ?andb_false_r in HP|]).
      by apply elem_of_nil in Hin. }
    split; [done|]. intros parseJson parse pj clock.
    unfold NextJS.run, NextJS.generate, NextJS.analyzeSourceFiles.
    by rewrite Hnone.
Qed.

Lemma X18_project_below_an_excluded_name_witness :
  let p := {| projectPath := "/srv/node_modules/site";
              root := Some [Dir "lib" (Some [Samples.source "a.js" "import 'x'"])] |} in
  Compact.sourceFiles p = [] ∧ NextJS.sourceFiles p = [].
Proof.
  intros p.
  destruct (X18_project_below_an_excluded_name p "node_modules") as [Hc Hn]; [reflexivity|].
  split; [apply Hc; by left|apply Hn; by left].
Defined.

(** ** Classification of files by their relative path *)

Lemma startsWith_count (c : ascii) (q : string) :
  ∀ s, JsString.startsWith s q = true → count_char c q ≤ count_char c s.
Proof.
  induction q as [|y q IH]; intros [|x s]; simpl; try done; try lia.
  case_decide; [|done]. subst. intros H%IH. lia.
Qed.

Lemma includes_count (c : ascii) (s q : string) :
  JsString.includes s q = true → count_char c q ≤ count_char c s.
Proof.
  induction s as [|x s IH]; simpl.
  - rewrite orb_false_r. apply (startsWith_count c q "").
  - intros [H|H]%orb_true_iff.
    + apply (startsWith_count c q (String x s) H).
    + apply IH in H. lia.
Qed.

Lemma shallow_excludes (path q : string) :
  count_char "/" path ≤ 1 → 2 ≤ count_char "/" q → JsString.includes path q = false.
Proof.
  intros Hp Hq. destruct (JsString.includes path q) eqn:H; [|done].
  apply (includes_count "/") in H. lia.
Qed.

(** X19. The directory tests of the file classification look for a
    directory name between two slashes, in the path relative to the
    project.  A path with at most one slash, that of a file at the top of
    the project or directly in one of its top-level directories, such as
    [components/Button.tsx], therefore passes none of them: the
    budget-aware generator types it source, and the comprehensive generator
    never types it api-route, page, app-route or utility. *)
Theorem X19_shallow_paths_are_plain_source (path : string) :
  count_char "/" path ≤ 1 →
  Compact.classifyFile path = "source"
  ∧ ∀ a, NextJS.classifyFileType path a ∈ ["component"; "hook"; "styles"; "source"].
Proof.
  intros Hp.
  assert (∀ q, 2 ≤ count_char "/" q → JsString.includes path q = false) as Hno
    by (intros q; by apply shallow_excludes).
  split.
  - unfold Compact.classifyFile.
    by rewrite (Hno "/api/"), (Hno "/pages/"), (Hno "/app/"), (Hno "/components/"),
      (Hno "/hooks/"), (Hno "/lib/"), (Hno "/utils/") by (vm_compute; lia).
  - intros a. unfold NextJS.classifyFileType.
    rewrite (Hno "/api/"), (Hno "/pages/"), (Hno "/app/"), (Hno "/lib/"), (Hno "/utils/")
      by (vm_compute; lia).
    simpl. repeat case_match; repeat constructor.
Qed.

Lemma X19_shallow_paths_are_plain_source_witness :
  Compact.classifyFile "components/Button.tsx" = "source".
Proof.
  apply (X19_shallow_paths_are_plain_source "components/Button.tsx"). vm_compute. lia.
Defined.

(** ** Level 2 of the comprehensive generator *)

Lemma startsWith_inv (q : string) :
  ∀ s, JsString.startsWith s q = true → ∃ rest, s = q +:+ rest.
Proof.
  induction q as [|y q IH]; intros s H; [by exists s|].
  destruct s as [|x s]; [done|]. simpl in H. case_decide; [|done]. subst.
  destruct (IH s H) as [rest ->]. by exists rest.
Qed.

Lemma rev_app_string (a b : string) :
  String.rev (a +:+ b) = String.rev b +:+ String.rev a.
Proof. unfold String.rev at 1. by rewrite rev_app_app, rev_app_acc. Qed.

Lemma rev_involutive (s : string) : String.rev (String.rev s) = s.
Proof. exact (rev_rev_app s ""). Qed.

Lemma endsWith_inv (s ext : string) :
  JsString.endsWith s ext = true → ∃ q, s = q +:+ ext.
Proof.
  unfold JsString.endsWith. intros [rest H]%startsWith_inv.
  exists (String.rev rest).
  by rewrite <- (rev_involutive s), H, rev_app_string, rev_involutive.
Qed.

Lemma last_index_lt (c : ascii) (s : string) (i : nat) :
  JsString.last_index c s = Some i → i < String.length s.
Proof.
  revert i. induction s as [|x s IH]; intros i; simpl; [done|].
  destruct (JsString.last_index c s) as [j|].
  - intros [= <-]. specialize (IH j eq_refl). lia.
  - case_decide; [|done]. intros [= <-]. lia.
Qed.

Lemma drop_app_le (n : nat) (a b : string) :
  n ≤ String.length a → JsString.drop n (a +:+ b) = JsString.drop n a +:+ b.
Proof.
  revert a. induction n as [|n IH]; intros a Hn; [done|].
  destruct a as [|x a]; simpl in *; [lia|]. apply IH. lia.
Qed.

(** A path that ends with an extension of letters has that extension, or
    none when its last portion is the extension alone. *)
Lemma extname_of_suffix (p ext : string) :
  JsString.last_index "/" ext = None →
  JsString.last_index "." ext = Some 0 →
  JsString.endsWith p ext = true →
  Path.extname p = "" ∨ Path.extname p = ext.
Proof.
  intros Hslash Hdot [q ->]%endsWith_inv.
  assert (∃ b, Path.last_portion (q +:+ ext) = b +:+ ext) as [b Hb].
  { unfold Path.last_portion. rewrite last_index_app, Hslash.
    destruct (JsString.last_index "/" q) as [i|] eqn:Hi; [|by exists q].
    apply last_index_lt in Hi. exists (JsString.drop (S i) q).
    apply drop_app_le. lia. }
  unfold Path.extname. rewrite Hb, last_index_app, Hdot.
  destruct b as [|x b]; [by left|]. simpl String.length.
  replace (S (String.length b) + 0) with (S (String.length b)) by lia.
  case_decide; [by left|right].
  change (S (String.length b)) with (String.length (String x b)). apply drop_app.
Qed.

Lemma source_ext_no_style (path : string) :
  bool_decide (Path.extname path ∈ NextJS.sourceExtensions) = true →
  JsString.endsWith path ".css" || JsString.endsWith path ".scss" = false.
Proof.
  intros Hext%bool_decide_eq_true.
  apply orb_false_iff. split.
  - destruct (JsString.endsWith path ".css") eqn:H; [|done].
    destruct (extname_of_suffix path ".css" eq_refl eq_refl H) as [He|He];
      rewrite He in Hext;
      repeat (apply elem_of_cons in Hext as [Hext|Hext]; [done|]);
      by apply elem_of_nil in Hext.
  - destruct (JsString.endsWith path ".scss") eqn:H; [|done].
    destruct (extname_of_suffix path ".scss" eq_refl eq_refl H) as [He|He];
      rewrite He in Hext;
      repeat (apply elem_of_cons in Hext as [Hext|Hext]; [done|]);
      by apply elem_of_nil in Hext.
Qed.

Lemma classifyFileType_kinds (path : string) (a : NextJS.Analysis) :
  JsString.endsWith path ".css" || JsString.endsWith path ".scss" = false →
  NextJS.classifyFileType path a
  ∈ ["api-route"; "page"; "app-route"; "component"; "hook"; "utility"; "source"].
Proof.
  intros Hstyle. unfold NextJS.classifyFileType. rewrite Hstyle.
  repeat case_match; repeat constructor.
Qed.

Lemma run_visitors_sound fp vs a a' :
  NextJS.run_visitors fp vs a = Ok a' → existsb declaresUse vs = false.
Proof.
  intros H. destruct (existsb declaresUse vs) eqn:Huse; [|done].
  destruct (run_visitors_declaresUse fp vs a Huse) as [msg Hthrow]. congruence.
Qed.

Lemma analyzeSteps_level2 (parse : Parser) (p : Project) (all files : list FileEntry)
    (i : NextJS.Index) :
  (∀ f, f ∈ files → f ∈ all) →
  map_Forall (recordOf parse p all) (NextJS.level2 i) →
  map_Forall (recordOf parse p all)
    (NextJS.level2 (foldl (NextJS.analyzeStep parse p) i files)).
Proof.
  revert i. induction files as [|f files IH]; intros i Hall Hi; simpl; [done|].
  apply IH; [by intros; apply Hall; right|].
  destruct (analyzeStep_cases parse p i f) as [->|(code & ast & a & Hc & Hp & Hr & ->)];
    [done|].
  simpl. apply map_Forall_insert_2; [|done].
  exists f, code, ast, a. repeat split; try done. apply Hall. by left.
Qed.

(** X20. Every level 2 record of a run of the comprehensive generator is
    the summary of one of the source files of the project: a file that could
    be read and parsed and whose tree declares no function or arrow-function
    variable named [use].  The record stands under that file's relative
    path, and its type is one of api-route, page, app-route, component,
    hook, utility and source: a source file is never typed styles. *)
Theorem X20_level2_records (parseJson : JsonParser) (parse : Parser) (p : Project)
    (pj : PackageJson) (clock : NextJS.Clock) (key : string) (r : NextJS.ModuleSummary) :
  NextJS.level2 (NextJS.run parseJson parse p pj clock) !! key = Some r →
  (∃ f code ast a,
     f ∈ NextJS.sourceFiles p
     ∧ key = recordKey p f
     ∧ f_content f = Some code
     ∧ parse code {| plugins := pluginsFor (f_path f); errorRecovery := false |} = Some ast
     ∧ existsb declaresUse (traversal ast) = false
     ∧ NextJS.run_visitors (f_path f) (traversal ast) NextJS.emptyAnalysis = Ok a
     ∧ r = NextJS.moduleSummary key (f_mtime f) a)
  ∧ NextJS.ms_type r
    ∈ ["api-route"; "page"; "app-route"; "component"; "hook"; "utility"; "source"].
Proof.
  intros H.
  pose proof (analyzeSteps_level2 parse p (NextJS.sourceFiles p) (NextJS.sourceFiles p)
                (NextJS.index (NextJS.generateLevel1 p clock (NextJS.new p pj clock)))
                (fun _ Hf => Hf) (map_Forall_empty _) key r H)
    as (f & code & ast & a & Hf & Hkey & Hc & Hp & Hr & ->).
  split.
  - exists f, code, ast, a. repeat split; try done. by eapply run_visitors_sound.
  - simpl. apply classifyFileType_kinds.
    apply list_elem_of_filter in Hf as [HP Hf].
    apply Is_true_true in HP. apply andb_true_iff in HP as [[Hext _]%andb_true_iff _].
    destruct (walked_below _ _ _ (or_intror Hf)) as [rest Hpath].
    assert (key = rest) as ->.
    { rewrite Hkey. unfold recordKey, Path.relative.
      by rewrite Hpath, startsWith_app, drop_app. }
    apply orb_false_iff. rewrite Hpath in Hext.
    apply source_ext_no_style, orb_false_iff in Hext as [H1 H2].
    split.
    + destruct (JsString.endsWith rest ".css") eqn:Hr1; [|done].
      by rewrite (endsWith_app _ _ _ Hr1) in H1.
    + destruct (JsString.endsWith rest ".scss") eqn:Hr2; [|done].
      by rewrite (endsWith_app _ _ _ Hr2) in H2.
Qed.

Lemma X20_level2_records_witness :
  ∃ r, NextJS.level2 (NextJS.run (fun _ => None) Samples.parser Samples.apiProject
                        Samples.noManifest Samples.clock)
         !! "app/api/users/route.ts" = Some r
       ∧ NextJS.ms_type r
         ∈ ["api-route"; "page"; "app-route"; "component"; "hook"; "utility"; "source"].
Proof.
  destruct (NextJS.level2 (NextJS.run (fun _ => None) Samples.parser Samples.apiProject
                             Samples.noManifest Samples.clock)
              !! "app/api/users/route.ts") as [r|] eqn:H; [|by vm_compute in H].
  exists r. split; [done|].
  exact (proj2 (X20_level2_records _ _ _ _ _ _ _ H)).
Defined.

(** ** Level 1 of the comprehensive generator *)

(** Every directory [getAllDirsRecursively] lists is a directory of the
    tree: a chain of visible directories, one inside the other, leads to
    it, and the listing handed on is its own. *)
Lemma subdirs_chain (e : Entry) :
  ∀ dir d its, e ∈ its → d ∈ NextJS.subdirs dir e →
    ∃ names, listingAt (Some its) names d.2
             ∧ d.1 = foldl Path.join dir names
             ∧ Forall (fun n => NextJS.visibleDir n = true) names.
Proof.
  induction e as [n m c|n its0 IH] using Entry_tree_ind; intros dir d its He; simpl;
    [by intros ?%elem_of_nil|].
  destruct (NextJS.visibleDir n) eqn:Hn; [|by intros ?%elem_of_nil].
  intros [->|Hd]%elem_of_cons.
  - exists [n]. simpl. split; [by exists its, its0|]. split; [done|].
    by repeat constructor.
  - destruct its0 as [l|]; [|by apply elem_of_nil in Hd]. simpl in IH.
    apply elem_of_flat_map in Hd as (x & Hx & Hd).
    destruct (proj1 (Forall_forall _ _) IH x Hx _ _ l Hx Hd) as (names & Hl & Hp & Hv).
    exists (n :: names). simpl. split; [by exists its, (Some l)|].
    split; [done|]. by constructor.
Qed.

Lemma allDirs_chain (dir : string) (items : option (list Entry))
    (d : string * option (list Entry)) :
  d ∈ NextJS.getAllDirsRecursively dir items →
  ∃ names, listingAt items names d.2
           ∧ d.1 = foldl Path.join dir names
           ∧ Forall (fun n => NextJS.visibleDir n = true) names.
Proof.
  unfold NextJS.getAllDirsRecursively. intros [->|Hd]%elem_of_cons.
  - exists []. split; [done|]. split; [done|constructor].
  - destruct items as [l|]; [|by apply elem_of_nil in Hd].
    apply elem_of_flat_map in Hd as (x & Hx & Hd). by eapply subdirs_chain.
Qed.

Section Level1.
Variable p : Project.
Variable clock : NextJS.Clock.

Lemma level1_dirs_records (P : string → NextJS.DirRecord → Prop) ds st :
  (∀ d, d ∈ ds → P (Path.relative (projectPath p) d.1) (NextJS.dirRecord clock d.1 d.2)) →
  map_Forall P st.2 →
  map_Forall P (foldl (NextJS.level1_dir p clock) st ds).2.
Proof.
  revert st. induction ds as [|d ds IH]; intros st Hds Hst; simpl; [done|].
  apply IH; [by intros; apply Hds; right|].
  unfold NextJS.level1_dir. case_decide; [done|]. simpl.
  apply map_Forall_insert_2; [|done]. apply Hds. by left.
Qed.

Lemma level1_bases_records (P : string → NextJS.DirRecord → Prop) bases st :
  (∀ base e d, base ∈ bases → lookup_rel p base = Some e →
     d ∈ NextJS.getAllDirsRecursively (Path.join (projectPath p) base) (entry_items e) →
     P (Path.relative (projectPath p) d.1) (NextJS.dirRecord clock d.1 d.2)) →
  map_Forall P st.2 →
  map_Forall P (foldl (NextJS.level1_base p clock) st bases).2.
Proof.
  revert st. induction bases as [|base bases IH]; intros st Hb Hst; simpl; [done|].
  apply IH; [by intros ??? Hin; apply Hb; right|].
  unfold NextJS.level1_base. destruct (lookup_rel p base) as [e|] eqn:He; [|done].
  apply level1_dirs_records; [|done]. intros d Hd. eapply Hb; [by left|done..].
Qed.

End Level1.

(** X21. Every level 1 record of a run describes a directory of the
    project at or below one of the fixed base directories that exist in
    it: a chain of directories of the tree leads from the base to it, the
    first an item of the base and each next one an item of the one before,
    none of them with a name that begins with a dot or is [node_modules].
    The record is the record of that directory, made from its own listing,
    and it stands under the directory's path relative to the project.  The
    purpose and the type of the record are the answers of the two tables,
    which for a directory named like a member of [Object.prototype] is
    that member. *)
Theorem X21_level1_records (parseJson : JsonParser) (parse : Parser) (p : Project)
    (pj : PackageJson) (clock : NextJS.Clock) (key : string) (r : NextJS.DirRecord) :
  NextJS.level1 (NextJS.run parseJson parse p pj clock) !! key = Some r →
  ∃ base e names items,
    base ∈ NextJS.nextjsDirectories
    ∧ lookup_rel p base = Some e
    ∧ listingAt (entry_items e) names items
    ∧ Forall (fun n => JsString.startsWith n "." = false ∧ n ≠ "node_modules") names
    ∧ let dir := foldl Path.join (Path.join (projectPath p) base) names in
      key = Path.relative (projectPath p) dir
      ∧ r = NextJS.dirRecord clock dir items.
Proof.
  rewrite nextjs_run_level1. intros H.
  pose (P := fun (key : string) (r : NextJS.DirRecord) =>
    ∃ base e names items,
      base ∈ NextJS.nextjsDirectories
      ∧ lookup_rel p base = Some e
      ∧ listingAt (entry_items e) names items
      ∧ Forall (fun n => JsString.startsWith n "." = false ∧ n ≠ "node_modules") names
      ∧ let dir := foldl Path.join (Path.join (projectPath p) base) names in
        key = Path.relative (projectPath p) dir
        ∧ r = NextJS.dirRecord clock dir items).
  assert (map_Forall P
            (foldl (NextJS.level1_base p clock) (∅, ∅) NextJS.nextjsDirectories).2) as Hall;
    [|exact (Hall _ _ H)].
  apply level1_bases_records; [|apply map_Forall_empty].
  intros base e [dir items] Hbase He Hd.
  destruct (allDirs_chain _ _ _ Hd) as (names & Hl & Hdir & Hvis). simpl in Hdir, Hl.
  subst dir.
  exists base, e, names, items. repeat split; try done.
  eapply Forall_impl; [exact Hvis|]. intros n Hn. unfold NextJS.visibleDir in Hn.
  apply andb_true_iff in Hn as [H1 H2]. apply negb_true_iff in H1, H2.
  split; [done|]. by apply bool_decide_eq_false in H2.
Qed.

Lemma X21_level1_records_witness :
  ∃ r, NextJS.level1 (NextJS.run (fun _ => None) Samples.parser Samples.apiProject
                        Samples.noManifest Samples.clock) !! "app/api" = Some r
       ∧ ∃ base e names items,
           base ∈ NextJS.nextjsDirectories
           ∧ lookup_rel Samples.apiProject base = Some e
           ∧ listingAt (entry_items e) names items
           ∧ "app/api" = Path.relative (projectPath Samples.apiProject)
                           (foldl Path.join
                              (Path.join (projectPath Samples.apiProject) base) names)
           ∧ r = NextJS.dirRecord Samples.clock
                   (foldl Path.join (Path.join (projectPath Samples.apiProject) base) names)
                   items.
Proof.
  destruct (NextJS.level1 (NextJS.run (fun _ => None) Samples.parser Samples.apiProject
                             Samples.noManifest Samples.clock) !! "app/api")
    as [r|] eqn:H; [|by vm_compute in H].
  exists r. split; [done|].
  destruct (X21_level1_records _ _ _ _ _ _ _ H)
    as (base & e & names & items & ? & ? & ? & _ & ? & ?).
  by exists base, e, names, items.
Defined.

(** A directory named [constructor] gets the inherited member of the
    tables for its purpose and its type, not their fallback texts. *)
Example inherited_purpose clock items :
  NextJS.dr_purpose (NextJS.dirRecord clock "/proj/src/constructor" items)
  = NextJS.Inherited "constructor"
  ∧ NextJS.dr_type (NextJS.dirRecord clock "/proj/src/constructor" items)
    = NextJS.Inherited "constructor"
  ∧ NextJS.dr_purpose (NextJS.dirRecord clock "/proj/src/features" items)
    = NextJS.Text "Source code directory".
Proof. repeat split; vm_compute; reflexivity. Qed.

(** ** Distinct files, distinct keys *)

Lemma first_segment_plain (n : string) :
  count_char "/" n = 0 → first_segment n = n.
Proof.
  induction n as [|a n IH]; simpl; [done|].
  destruct (decide (a = "/"%char)); [done|]. intros H. by rewrite IH.
Qed.

Lemma first_segment_app (n rest : string) :
  count_char "/" n = 0 → first_segment (n +:+ String "/" rest) = n.
Proof.
  induction n as [|a n IH]; simpl; [done|].
  destruct (decide (a = "/"%char)); [done|]. intros H. by rewrite IH.
Qed.

Lemma string_snoc (n : string) :
  n ≠ "" → count_char "/" n = 0 →
  ∃ n0 c, n = n0 +:+ String c "" ∧ c ≠ "/"%char.
Proof.
  induction n as [|a n IH]; [done|]. intros _. simpl.
  destruct (decide (a = "/"%char)) as [|Ha]; [done|]. intros H.
  destruct n as [|b n]; [by exists "", a|].
  destruct (IH ltac:(done) H) as (pre & c & Heq & Hc).
  exists (String a pre), c. by rewrite Heq.
Qed.

Lemma string_app_inv_head (a b c : string) : a +:+ b = a +:+ c → b = c.
Proof.
  induction a as [|x a IH]; [done|]. rewrite !string_app_cons. intros [= H]. by apply IH.
Qed.

Lemma plainName_spec (n : string) :
  plainName n = true → n ≠ "" ∧ count_char "/" n = 0.
Proof.
  unfold plainName. intros [H1 H2]%andb_true_iff.
  apply negb_true_iff, bool_decide_eq_false in H1. by apply Nat.eqb_eq in H2.
Qed.

Lemma dir_base_join (dir n : string) :
  plainName n = true →
  Path.dir_base (Path.join dir n) = Path.dir_base dir +:+ n +:+ "/".
Proof.
  intros [Hne Hc]%plainName_spec.
  destruct (string_snoc n Hne Hc) as (n0 & c & -> & Hslash).
  rewrite <- (string_app_nil_r (Path.dir_base _)).
  change (Path.dir_base (Path.join dir (n0 +:+ String c "")) +:+ "")
    with (Path.join (Path.join dir (n0 +:+ String c "")) "").
  rewrite join_join by done. unfold Path.join.
  by rewrite !string_app_assoc.
Qed.

Lemma NoDup_fmap_eq {A B} (g : A → B) (l : list A) (x y : A) :
  NoDup (g <$> l) → x ∈ l → y ∈ l → g x = g y → x = y.
Proof.
  induction l as [|z l IH]; [by intros _ ?%elem_of_nil|].
  rewrite fmap_cons. intros [Hz Hl]%NoDup_cons.
  intros [->|Hx]%elem_of_cons [->|Hy]%elem_of_cons Hg; try done.
  - destruct Hz. rewrite Hg. by apply list_elem_of_fmap_2.
  - destruct Hz. rewrite <- Hg. by apply list_elem_of_fmap_2.
  - by apply IH.
Qed.

Lemma walks_distinct (l : list Entry) (d : string) :
  Forall distinctBelow l →
  forallb wellNamed l = true →
  NoDup (entry_name <$> l) →
  NoDup (f_path <$> flat_map (NextJS.walk d) l)
  ∧ ∀ f, f ∈ flat_map (NextJS.walk d) l →
         ∃ e r, e ∈ l ∧ f_path f = Path.dir_base d +:+ r ∧ first_segment r = entry_name e.
Proof.
  induction l as [|e l IH]; simpl.
  - intros _ _ _. split; [constructor|]. by intros f ?%elem_of_nil.
  - intros [He Hl]%Forall_cons [Hwe Hwl]%andb_true_iff [Hne Hnd]%NoDup_cons.
    destruct (He Hwe d) as [Hnd1 Hr1]. destruct (IH Hl Hwl Hnd) as [Hnd2 Hr2].
    split.
    + rewrite fmap_app. apply NoDup_app. split; [done|]. split; [|done].
      intros path (f & -> & Hf)%list_elem_of_fmap (f' & Heq & Hf')%list_elem_of_fmap.
      destruct (Hr1 f Hf) as (r & Hp & Hs).
      destruct (Hr2 f' Hf') as (e' & r' & He' & Hp' & Hs').
      rewrite Hp, Hp' in Heq. apply string_app_inv_head in Heq. subst r'.
      apply Hne. rewrite <- Hs, Hs'. by apply list_elem_of_fmap_2.
    + intros f [Hf|Hf]%elem_of_app.
      * destruct (Hr1 f Hf) as (r & ? & ?). exists e, r. split; [by left|done].
      * destruct (Hr2 f Hf) as (e' & r & ? & ? & ?). exists e', r. split; [by right|done].
Qed.

Lemma walk_distinct (e : Entry) : distinctBelow e.
Proof.
  induction e as [n m c|n its IH] using Entry_tree_ind; intros Hw dir; simpl in *.
  - apply andb_true_iff in Hw as [[Hne Hc]%plainName_spec _].
    destruct (NextJS.isRelevantFile n); simpl.
    + split; [apply NoDup_singleton|].
      intros f ->%list_elem_of_singleton. exists n. split; [done|].
      by apply first_segment_plain.
    + split; [constructor|]. by intros f ?%elem_of_nil.
  - apply andb_true_iff in Hw as [Hplain Hw].
    destruct (NextJS.visibleDir n); [|split; [constructor|by intros f ?%elem_of_nil]].
    destruct its as [l|]; [|split; [constructor|by intros f ?%elem_of_nil]].
    apply andb_true_iff in Hw as [Hnd%bool_decide_eq_true Hwl]. simpl in IH.
    destruct (walks_distinct l (Path.join dir n) IH Hwl Hnd) as [Hnd' Hr].
    split; [done|]. intros f Hf.
    destruct (Hr f Hf) as (e' & r & _ & Hp & _).
    exists (n +:+ String "/" r). split.
    + rewrite Hp, dir_base_join by done. by rewrite !string_app_assoc.
    + apply first_segment_app. by apply plainName_spec.
Qed.

Lemma compact_walk_sublist (e : Entry) :
  ∀ dir, Compact.walk dir e `sublist_of` NextJS.walk dir e.
Proof.
  induction e as [n m c|n its IH] using Entry_tree_ind; intros d; simpl.
  - destruct (JsString.startsWith n "." || _); [apply sublist_nil_l|].
    destruct (Compact.isRelevantFile n) eqn:Hrel; [|apply sublist_nil_l].
    by rewrite (source_ext_relevant n Hrel).
  - unfold NextJS.visibleDir.
    destruct (JsString.startsWith n "."); [apply sublist_nil_l|].
    destruct (bool_decide (n = "node_modules")); [apply sublist_nil_l|]. simpl.
    destruct its as [l|]; [|done]. simpl in IH.
    apply sublist_flat_map. eapply Forall_impl; [exact IH|]. by intros e He.
Qed.

Lemma compact_files_sublist (dir : string) (items : option (list Entry)) :
  Compact.getRelevantFiles dir items `sublist_of` NextJS.getFilesRecursively dir items.
Proof.
  destruct items as [l|]; simpl; [|done].
  apply sublist_flat_map, Forall_forall. intros e _. apply compact_walk_sublist.
Qed.

(** X22. One record per file.  In a project whose tree is as a file system
    holds it, every name non-empty and without a slash and the items of a
    directory under different names, no two of the files either generator
    analyses have the same relative path: the keys of [modules] and of
    level 2 name one file each. *)
Theorem X22_one_key_per_file (p : Project) (its : list Entry) :
  root p = Some its →
  NoDup (entry_name <$> its) →
  forallb wellNamed its = true →
  NoDup (recordKey p <$> NextJS.sourceFiles p)
  ∧ NoDup (recordKey p <$> Compact.sourceFiles p)
  ∧ (∀ f f', f ∈ NextJS.sourceFiles p → f' ∈ NextJS.sourceFiles p →
             recordKey p f' = recordKey p f → f' = f)
  ∧ (∀ f f', f ∈ Compact.sourceFiles p → f' ∈ Compact.sourceFiles p →
             recordKey p f' = recordKey p f → f' = f).
Proof.
  intros Hroot Hnd Hwell.
  set (L := NextJS.getFilesRecursively (projectPath p) (root p)).
  assert (NoDup (f_path <$> L)
          ∧ ∀ f, f ∈ L → f_path f = Path.dir_base (projectPath p) +:+ recordKey p f)
    as [HL Hkey].
  { unfold L. rewrite Hroot. simpl.
    destruct (walks_distinct its (projectPath p)) as [H1 H2]; try done.
    - apply Forall_forall. intros e _. apply walk_distinct.
    - split; [done|]. intros f Hf. destruct (H2 f Hf) as (e & r & _ & Hp & _).
      unfold recordKey, Path.relative. by rewrite Hp, startsWith_app, drop_app. }
  assert (NoDup (recordKey p <$> L)) as HK.
  { apply NoDup_fmap_2_strong; [|by eapply NoDup_fmap_1].
    intros f f' Hf Hf' Heq. apply (NoDup_fmap_eq f_path L); try done.
    by rewrite (Hkey f Hf), (Hkey f' Hf'), Heq. }
  assert (NextJS.sourceFiles p `sublist_of` L) as Hn by apply sublist_filter.
  assert (Compact.sourceFiles p `sublist_of` L) as Hc.
  { etrans; [apply sublist_take|]. etrans; [apply sublist_filter|].
    apply compact_files_sublist. }
  assert (NoDup (recordKey p <$> NextJS.sourceFiles p)) as HKn
    by (eapply sublist_NoDup; [exact HK|by apply fmap_sublist]).
  assert (NoDup (recordKey p <$> Compact.sourceFiles p)) as HKc
    by (eapply sublist_NoDup; [exact HK|by apply fmap_sublist]).
  split; [done|]. split; [done|].
  split; intros f f' Hf Hf' Heq.
  - by apply (NoDup_fmap_eq (recordKey p) (NextJS.sourceFiles p)).
  - by apply (NoDup_fmap_eq (recordKey p) (Compact.sourceFiles p)).
Qed.

Lemma X22_one_key_per_file_witness :
  NoDup (recordKey Samples.useProject <$> NextJS.sourceFiles Samples.useProject)
  ∧ NoDup (recordKey Samples.useProject <$> Compact.sourceFiles Samples.useProject).
Proof.
  destruct (X22_one_key_per_file Samples.useProject
              [Dir "lib" (Some [Samples.source "plain.js" "function use() {}";
                                Samples.source "exported.js" "export function use() {}";
                                Samples.source "arrow.js" "const use = () => 1";
                                Samples.source "dates.js"
                                  "export function formatDate(d) {}"])])
    as (H1 & H2 & _); [reflexivity|apply NoDup_singleton|vm_compute; reflexivity|].
  split; [exact H1|exact H2].
Defined.

(** ** Extensions of the files walked *)

Lemma endsWith_trans (s mid ext : string) :
  JsString.endsWith s mid = true → JsString.endsWith mid ext = true →
  JsString.endsWith s ext = true.
Proof.
  intros [q ->]%endsWith_inv Hext. by apply endsWith_app.
Qed.

Lemma relevant_extname (path name : string) :
  NextJS.isRelevantFile name = true →
  JsString.endsWith path name = true →
  Path.extname path ∈ [""; ".js"; ".jsx"; ".ts"; ".tsx"; ".json"; ".css"; ".scss"].
Proof.
  unfold NextJS.isRelevantFile, NextJS.relevantExtensions. simpl. intros Hrel Hname.
  assert (∀ ext, JsString.endsWith name ext = true →
                 JsString.last_index "/" ext = None →
                 JsString.last_index "." ext = Some 0 →
                 Path.extname path = "" ∨ Path.extname path = ext) as Hext.
  { intros ext Hn Hs Hd. apply extname_of_suffix; try done. by eapply endsWith_trans. }
  repeat (apply orb_true_iff in Hrel as [Hrel|Hrel]);
    try (destruct (Hext _ Hrel eq_refl eq_refl) as [->| ->]; repeat constructor).
  - assert (JsString.endsWith name ".css" = true) as Hcss
      by (by eapply endsWith_trans).
    destruct (Hext _ Hcss eq_refl eq_refl) as [->| ->]; repeat constructor.
  - done.
Qed.

Lemma endsWith_refl_join (dir name : string) :
  JsString.endsWith (Path.join dir name) name = true.
Proof.
  unfold Path.join. apply endsWith_app. unfold JsString.endsWith.
  rewrite <- (string_app_nil_r (String.rev name)) at 1. apply startsWith_app.
Qed.

Lemma existsb_agree {A} (g h : A → bool) (l : list A) :
  (∀ x, x ∈ l → g x = h x) → existsb g l = existsb h l.
Proof.
  induction l as [|x l IH]; intros H; simpl; [done|].
  rewrite (H x) by (by left). f_equal. apply IH. intros y Hy. apply H. by right.
Qed.

(** X23. The comprehensive walker returns only files whose extension, as
    [path.extname] gives it, is one of .js, .jsx, .ts, .tsx, .json, .css and
    .scss, or empty.  None has the extension .sass: the Tailwind detection,
    which looks for directives in .css, .scss and .sass files of the walk,
    never reads a Sass file, and answers as if .sass were not in its list. *)
Theorem X23_no_sass_file_is_walked (p : Project) (g : NextJS.Generator) :
  (∀ dir items f,
     f ∈ NextJS.getFilesRecursively dir items →
     Path.extname (f_path f) ∈ [""; ".js"; ".jsx"; ".ts"; ".tsx"; ".json"; ".css"; ".scss"]
     ∧ Path.extname (f_path f) ≠ ".sass")
  ∧ NextJS.detectTailwind p g
    = (existsb (existsSync p)
         ["tailwind.config.js"; "tailwind.config.ts"; "tailwind.config.mjs";
          "tailwind.config.cjs"]
       || NextJS.hasPackage g "tailwindcss"
       || existsb (fun f =>
                     bool_decide (Path.extname (f_path f) ∈ [".css"; ".scss"]) &&
                     match f_content f with
                     | Some content =>
                         JsString.includes content "@tailwind"
                         || JsString.includes content "tailwindcss"
                     | None => false
                     end)
                  (NextJS.getFilesRecursively (projectPath p) (root p))).
Proof.
  assert (∀ dir items f,
            f ∈ NextJS.getFilesRecursively dir items →
            Path.extname (f_path f)
            ∈ [""; ".js"; ".jsx"; ".ts"; ".tsx"; ".json"; ".css"; ".scss"]) as Hext.
  { intros dir [l|] f; simpl; [|by intros ?%elem_of_nil].
    intros (e & _ & Hf)%elem_of_flat_map.
    destruct (nextjs_walk_chain e dir f Hf) as (names & name & -> & _ & Hrel).
    apply (relevant_extname _ name Hrel), endsWith_refl_join. }
  assert (∀ dir items f,
            f ∈ NextJS.getFilesRecursively dir items →
            Path.extname (f_path f) ≠ ".sass") as Hsass.
  { intros dir items f Hf Heq. specialize (Hext dir items f Hf). rewrite Heq in Hext.
    repeat (apply elem_of_cons in Hext as [Hext|Hext]; [done|]).
    by apply elem_of_nil in Hext. }
  split; [by intros dir items f Hf; split; [eapply Hext|eapply Hsass]|].
  unfold NextJS.detectTailwind. f_equal. apply existsb_agree. intros f Hf. f_equal.
  apply bool_decide_ext. split.
  - intros [->|[->|[H|H]%elem_of_cons]%elem_of_cons]%elem_of_cons.
    + by left.
    + by right; left.
    + by destruct (Hsass _ _ f Hf).
    + by apply elem_of_nil in H.
  - intros [->|[->|H]%elem_of_cons]%elem_of_cons.
    + by left.
    + by right; left.
    + by apply elem_of_nil in H.
Qed.

(** ** The two generators side by side *)

Lemma truthy_default (x : option string) : truthy (js_or x (Some "default")) = true.
Proof. unfold js_or. by destruct (truthy x) eqn:H. Qed.

Lemma compact_visit_exports_list rel v a ex a' ex' :
  Compact.visit rel v a ex = Ok (a', ex') →
  Compact.a_exports a' = Compact.a_exports a ++ exportedNames [v].
Proof.
  unfold Compact.visit, exportedNames, Compact.getExportName. simpl. intros H.
  destruct (v_node v); simplify_eq/=; rewrite ?app_nil_r; try done.
  - case_match; by simplify_eq/=.
  - by rewrite truthy_default in H; simplify_eq/=.
  - destruct (truthy _ && isExported v); [|by simplify_eq/=].
    destruct (Compact.classifyFunction _); by simplify_eq/=.
Qed.

Lemma compact_run_visitors_exports_list rel vs a ex a' ex' :
  Compact.run_visitors rel vs a ex = (Ok a', ex') →
  Compact.a_exports a' = Compact.a_exports a ++ exportedNames vs.
Proof.
  revert a ex. induction vs as [|v vs IH]; intros a ex H; simpl in H.
  - injection H as -> _. by rewrite app_nil_r.
  - destruct (Compact.visit rel v a ex) as [[a1 ex1]|e] eqn:Hv; [|done].
    rewrite (IH _ _ H), (compact_visit_exports_list _ _ _ _ _ _ Hv).
    rewrite <- List.app_assoc. f_equal.
    change (v :: vs) with ([v] ++ vs). unfold exportedNames. by rewrite flat_map_app.
Qed.

Lemma compact_visit_total rel v a ex :
  exportsUse v = false → ∃ a' ex', Compact.visit rel v a ex = Ok (a', ex').
Proof.
  unfold exportsUse, Compact.visit. intros H.
  destruct (v_node v); try (by eexists _, _).
  - case_match; by eexists _, _.
  - case_match; by eexists _, _.
  - destruct (truthy id && isExported v) eqn:Hexp; [|by eexists _, _].
    apply andb_true_iff in Hexp as [Hid Hexp]. rewrite Hexp, andb_true_r in H.
    apply bool_decide_eq_false in H.
    destruct (Compact.classifyFunction (js_text id)) as [t|e] eqn:Ht; [by eexists _, _|].
    destruct id as [name|]; [|done]. simpl in Ht.
    destruct H. f_equal.
    destruct name as [|c rest]; [done|]. rewrite classifyFunction_nonempty in Ht.
    destruct (lowercase c); [|done].
    destruct (if JsString.startsWith _ _ then _ else _) as [[]|e'] eqn:Hh;
      [done|by destruct (bool_decide _)|by apply hook_test_throws in Hh].
Qed.

Lemma compact_run_visitors_total rel vs a ex :
  existsb exportsUse vs = false →
  ∃ a' ex', Compact.run_visitors rel vs a ex = (Ok a', ex').
Proof.
  revert a ex. induction vs as [|v vs IH]; intros a ex H; simpl in *; [by eexists _, _|].
  apply orb_false_iff in H as [Hv Hvs].
  destruct (compact_visit_total rel v a ex Hv) as (a1 & ex1 & ->). by apply IH.
Qed.

Lemma declaresUse_exportsUse (vs : list Visit) :
  existsb declaresUse vs = false → existsb exportsUse vs = false.
Proof.
  induction vs as [|v vs IH]; simpl; [done|].
  intros [Hv Hvs]%orb_false_iff. rewrite (IH Hvs), orb_false_r.
  unfold declaresUse in Hv. unfold exportsUse.
  destruct (v_node v); try done. by rewrite Hv.
Qed.

(** X24. The two generators on the same module.  When a module of at most
    10000 characters parses to the same tree with and without error
    recovery and declares no function or arrow-function variable named
    [use], both generators make a record of it, and the records agree: the
    exports of the budget-aware record are the first ten exports of the
    comprehensive record, and its imports are the first ten distinct
    external modules among the imports of the comprehensive record. *)
Theorem X24_generators_agree_on_a_module (parse : Parser) (p : Project) (f : FileEntry)
    (code : string) (ast : Node) (g : Compact.Generator) (i : NextJS.Index) :
  f_content f = Some code →
  (Z.of_nat (String.length code) ≤ 10000)%Z →
  parse code {| plugins := pluginsFor (f_path f); errorRecovery := true |} = Some ast →
  parse code {| plugins := pluginsFor (f_path f); errorRecovery := false |} = Some ast →
  existsb declaresUse (traversal ast) = false →
  ∃ a g' r,
    Compact.analyzeFileCompact parse p f g = (Ok (Some a), g')
    ∧ NextJS.level2 (NextJS.analyzeStep parse p i f) !! recordKey p f = Some r
    ∧ Compact.a_exports a = take 10 (NextJS.ms_exports r)
    ∧ Compact.a_imports a = take 10 (uniq [] (filter isExternal (NextJS.ms_imports r))).
Proof.
  intros Hc Hlen Hpt Hpf Huse.
  destruct (run_visitors_total (f_path f) (traversal ast) NextJS.emptyAnalysis Huse)
    as [an Han].
  destruct (analyzeStep_record parse p i f code ast an Hc Hpf Han) as (r & Hr & Hri & Hre).
  destruct (compact_run_visitors_total (recordKey p f) (traversal ast)
              {| Compact.a_type := Compact.classifyFile (recordKey p f);
                 Compact.a_exports := []; Compact.a_imports := [];
                 Compact.a_features := [] |}
              (Compact.exports (Compact.index g)) (declaresUse_exportsUse _ Huse))
    as (a0 & ex & Ha0).
  eexists (Compact.finish a0), _, r. split; [|split; [exact Hr|split]].
  - unfold Compact.analyzeFileCompact. rewrite Hc.
    replace (Compact.maxFileChars <? Z.of_nat (String.length code))%Z with false
      by (symmetry; apply Z.ltb_ge; exact Hlen).
    rewrite Hpt. fold (recordKey p f). by rewrite Ha0.
  - simpl. by rewrite (compact_run_visitors_exports_list _ _ _ _ _ _ Ha0), Hre.
  - simpl. by rewrite (run_visitors_imports _ _ _ _ _ _ Ha0), Hri.
Qed.

Lemma X24_generators_agree_on_a_module_witness :
  ∃ a g' r,
    Compact.analyzeFileCompact Samples.parser Samples.importsProject Samples.manyFile
      (Compact.new Samples.noManifest 0) = (Ok (Some a), g')
    ∧ NextJS.level2
        (NextJS.analyzeStep Samples.parser Samples.importsProject
           (NextJS.index (NextJS.new Samples.importsProject Samples.noManifest Samples.clock))
           Samples.manyFile)
        !! recordKey Samples.importsProject Samples.manyFile = Some r
    ∧ Compact.a_exports a = take 10 (NextJS.ms_exports r)
    ∧ Compact.a_imports a = take 10 (uniq [] (filter isExternal (NextJS.ms_imports r))).
Proof.
  destruct (Samples.parser Samples.manyImports {| plugins := ["jsx"]; errorRecovery := true |})
    as [ast|] eqn:Hast; [|by vm_compute in Hast].
  apply (X24_generators_agree_on_a_module Samples.parser Samples.importsProject
           Samples.manyFile Samples.manyImports ast).
  - reflexivity.
  - vm_compute. discriminate.
  - exact Hast.
  - exact Hast.
  - vm_compute in Hast. injection Hast as <-. vm_compute. reflexivity.
Defined.

(** ** Files without a route *)

Lemma startsWith_length (s q : string) :
  JsString.startsWith s q = true → String.length q ≤ String.length s.
Proof. intros [rest ->]%startsWith_inv. rewrite string_length_app. lia. Qed.

Lemma endsWith_length (s q : string) :
  JsString.endsWith s q = true → String.length q ≤ String.length s.
Proof. intros [pre ->]%endsWith_inv. rewrite string_length_app. lia. Qed.

Lemma take_app_string (a b : string) : JsString.take (String.length a) (a +:+ b) = a.
Proof. induction a as [|x a IH]; simpl; [by destruct b|]. by rewrite IH. Qed.

Lemma take_app_length (a b : string) :
  JsString.take (String.length (a +:+ b) - String.length b) (a +:+ b) = a.
Proof.
  rewrite string_length_app.
  replace (String.length a + String.length b - String.length b) with (String.length a)
    by lia.
  apply take_app_string.
Qed.

(** Cutting a source extension off a path leaves a path the original
    begins with, and that is not empty when the path begins with another
    character than the dot. *)
Lemma strip_source_ext_prefix (s : string) :
  ∃ ext, s = JsString.strip_source_ext s +:+ ext
         ∧ (ext = "" ∨ JsString.startsWith ext "." = true).
Proof.
  assert (∀ ext n, String.length ext = n → JsString.endsWith s ext = true →
            s = JsString.take (String.length s - n) s +:+ ext) as Hcut.
  { intros ext n <- [q ->]%endsWith_inv. by rewrite take_app_length. }
  unfold JsString.strip_source_ext. cbv zeta.
  destruct (JsString.endsWith s ".js") eqn:H1;
    [exists ".js"; split; [by apply Hcut|by right]|].
  destruct (JsString.endsWith s ".jsx") eqn:H2;
    [exists ".jsx"; split; [by apply Hcut|by right]|].
  destruct (JsString.endsWith s ".ts") eqn:H3;
    [exists ".ts"; split; [by apply Hcut|by right]|].
  destruct (JsString.endsWith s ".tsx") eqn:H4;
    [exists ".tsx"; split; [by apply Hcut|by right]|].
  exists "". split; [by rewrite string_app_nil_r|by left].
Qed.

Lemma strip_source_ext_underscore (s : string) :
  JsString.startsWith s "_" = true →
  JsString.startsWith (JsString.strip_source_ext s) "_" = true.
Proof.
  intros Hs. destruct (strip_source_ext_prefix s) as (ext & Heq & Hext).
  destruct (JsString.strip_source_ext s) as [|c rest] eqn:Hstrip.
  - rewrite string_app_nil in Heq. subst s. clear Hstrip.
    destruct ext as [|c ext]; [by simpl in Hs|].
    destruct Hext as [Heq|Hext]; [done|]. simpl in *.
    repeat case_decide; simplify_eq.
  - rewrite Heq in Hs. simpl in *. case_decide; [by destruct rest|done].
Qed.

Lemma replace_keeps_first (s q r : string) (c : ascii) :
  JsString.startsWith s (String c "") = true →
  JsString.startsWith q (String c "") = false →
  q ≠ "" →
  JsString.startsWith (JsString.replace s q r) (String c "") = true.
Proof.
  destruct s as [|x s]; [done|]. intros Hs Hq Hne.
  assert (x = c) as -> by (simpl in Hs; by case_decide).
  cbn [JsString.replace].
  destruct (JsString.startsWith (String c s) q) eqn:Hsq.
  - destruct q as [|y q]; [done|]. simpl in Hsq, Hq.
    case_decide; [|done]. subst. rewrite decide_True in Hq by done. by destruct q.
  - simpl. rewrite decide_True by done. by destruct (JsString.replace s q r).
Qed.

Lemma count_char_app (c : ascii) (a b : string) :
  count_char c (a +:+ b) = count_char c a + count_char c b.
Proof. induction a as [|x a IH]; simpl; [done|]. rewrite IH. lia. Qed.

(** X25. Special files have no route.  Under the pages router a file whose
    path, relative to the pages directory, begins with an underscore, such
    as [_app.tsx] or [_document.js], is given no route.  Under the app
    router a file directly in the app directory is given a route only when
    it is the page file, whose route is the root. *)
Theorem X25_special_files_have_no_route (filePath : string) :
  (JsString.startsWith filePath "_" = true →
   NextJS.filePathToRoute filePath "pages" = None)
  ∧ (count_char "/" filePath = 0 →
     NextJS.filePathToRoute filePath "app"
     = if decide (JsString.strip_source_ext filePath = "page") then Some "/" else None).
Proof.
  split.
  - intros Hs%strip_source_ext_underscore. unfold NextJS.filePathToRoute.
    rewrite decide_True by done.
    destruct (decide (JsString.strip_source_ext filePath = "index")) as [Heq|_];
      [by rewrite Heq in Hs|].
    destruct (JsString.endsWith (JsString.strip_source_ext filePath) "/index").
    + by rewrite (replace_keeps_first _ "/index" "" "_" Hs eq_refl ltac:(done)).
    + by rewrite Hs.
  - intros Hc. unfold NextJS.filePathToRoute.
    rewrite decide_False by done. rewrite decide_True by done.
    assert (count_char "/" (JsString.strip_source_ext filePath) = 0) as Hstrip.
    { destruct (strip_source_ext_prefix filePath) as (ext & Heq & _).
      rewrite Heq, count_char_app in Hc. lia. }
    assert (JsString.endsWith (JsString.strip_source_ext filePath) "/page" = false) as ->.
    { destruct (JsString.endsWith _ "/page") eqn:H; [|done].
      apply endsWith_inv in H as [q Hq]. rewrite Hq, count_char_app in Hstrip.
      simpl in Hstrip. lia. }
    case_decide; [done|].
    assert (∀ q, 1 ≤ count_char "/" q → JsString.includes filePath q = false) as Hno.
    { intros q Hq. destruct (JsString.includes filePath q) eqn:Hinc; [|done].
      apply (includes_count "/") in Hinc. lia. }
    by rewrite (Hno "/page."), (Hno "/layout."), (Hno "/loading."), (Hno "/error.")
      by (vm_compute; lia).
Qed.

Lemma strip_source_ext_none (s : string) :
  JsString.has_source_ext s = false → JsString.strip_source_ext s = s.
Proof.
  unfold JsString.has_source_ext, JsString.strip_source_ext.
  intros [[[-> ->]%orb_false_iff ->]%orb_false_iff ->]%orb_false_iff. done.
Qed.

(** X26. Under the pages router every file of the walk counts, whatever
    its kind.  A style sheet or a JSON file below [pages], which has no
    source extension to cut off, is listed among the page routes of the run
    under its own relative path, extension included, unless that path
    begins with an underscore, holds a segment that does, names an index,
    or holds a bracket. *)
Theorem X26_pages_routes_of_other_files (parseJson : JsonParser) (parse : Parser)
    (p : Project) (pj : PackageJson) (clock : NextJS.Clock)
    (files : list FileEntry) (f : FileEntry) :
  NextJS.filesUnder p "pages" = Some files →
  f ∈ files →
  let rel := Path.relative (Path.join (projectPath p) "pages") (f_path f) in
  JsString.has_source_ext rel = false →
  JsString.startsWith rel "_" = false →
  JsString.includes rel "/_" = false →
  JsString.endsWith rel "/index" = false →
  rel ≠ "index" →
  count_char "[" rel = 0 →
  JsString.startsWith rel "/" = false →
  ∃ rs, NextJS.routes_pages (NextJS.arch_routes (NextJS.run parseJson parse p pj clock))
        = Some rs
        ∧ {| NextJS.r_path := "/" +:+ rel; NextJS.r_file := rel;
             NextJS.r_type := NextJS.getRouteType (f_path f) |} ∈ rs.
Proof.
  intros Hfiles Hf rel Hext Hunder Hseg Hindex Hne Hbr Hslash.
  exists (NextJS.extractRoutes (Path.join (projectPath p) "pages") files "pages").
  split.
  - change (NextJS.routesOf p "pages" "src/pages" "pages"
            = Some (NextJS.extractRoutes (Path.join (projectPath p) "pages") files "pages")).
    unfold NextJS.routesOf. by rewrite Hfiles.
  - unfold NextJS.extractRoutes. apply elem_of_flat_map. exists f. split; [done|].
    fold rel.
    assert (NextJS.filePathToRoute rel "pages" = Some ("/" +:+ rel)) as ->.
    { unfold NextJS.filePathToRoute. rewrite strip_source_ext_none by done.
      rewrite decide_True by done. rewrite decide_False by done.
      rewrite Hindex, Hunder, Hseg. simpl.
      assert (JsString.replace_dynamic rel = rel) as ->.
      { unfold JsString.replace_dynamic. rewrite <- (string_app_nil_r rel) at 1.
        rewrite dynamic_go_plain by done. apply string_app_nil_r. }
      by rewrite Hslash. }
    by left.
Qed.

Lemma X26_pages_routes_of_other_files_witness :
  let p := {| projectPath := "/proj";
              root := Some [Dir "pages" (Some [Samples.source "globals.css" "body {}"])] |} in
  ∃ rs, NextJS.routes_pages
          (NextJS.arch_routes (NextJS.run (fun _ => None) Samples.parser p
                                 Samples.noManifest Samples.clock)) = Some rs
        ∧ {| NextJS.r_path := "/globals.css"; NextJS.r_file := "globals.css";
             NextJS.r_type := "page" |} ∈ rs.
Proof.
  intros p.
  pose (f := {| f_path := "/proj/pages/globals.css"; f_mtime := 0;
                f_content := Some "body {}" |}).
  destruct (X26_pages_routes_of_other_files (fun _ => None) Samples.parser p
              Samples.noManifest Samples.clock [f] f) as (rs & Hrs & Hin).
  - reflexivity.
  - left.
  - reflexivity.
  - reflexivity.
  - reflexivity.
  - reflexivity.
  - discriminate.
  - reflexivity.
  - reflexivity.
  - exists rs. split; [exact Hrs|exact Hin].
Defined.

(** ** Pattern facts of the two generators *)

Lemma nextjs_patternFacts_manifest p g g' :
  NextJS.packageJson g' = NextJS.packageJson g →
  NextJS.patternFacts p g' = NextJS.patternFacts p g.
Proof.
  intros H. unfold NextJS.patternFacts, NextJS.detectTypeScript, NextJS.detectTailwind,
    NextJS.hasPackage.
  by rewrite H.
Qed.

Lemma compact_has_nextjs_has (pj : PackageJson) (gc : Compact.Generator)
    (gn : NextJS.Generator) (name : string) :
  Compact.packageJson gc = pj → NextJS.packageJson gn = pj →
  Compact.hasPackage gc name = true → NextJS.hasPackage gn name = true.
Proof.
  unfold Compact.hasPackage, NextJS.hasPackage. intros -> -> H.
  unfold js_or at 1. by rewrite H.
Qed.

Lemma filesUnder_exists (p : Project) (dir : string) (files : list FileEntry) :
  NextJS.filesUnder p dir = Some files → existsSync p dir = true.
Proof.
  unfold NextJS.filesUnder, existsSync.
  destruct (lookup_rel p dir) as [e|]; [|done]. intros _. by apply bool_decide_eq_true.
Qed.

(** X27. What the two generators report of the same project and manifest
    fits together.  The budget-aware run always ends with pattern facts.
    When it reports TypeScript, Tailwind, or styled-components as the
    styling, the comprehensive run reports the same pattern; when the
    comprehensive run reports the app router, the budget-aware one names
    the router app, and when it reports the pages router, the budget-aware
    one names the router app or pages, never unknown. *)
Theorem X27_pattern_facts_fit_together (parseJson : JsonParser) (parse : Parser)
    (p : Project) (pj : PackageJson) (now : Z) (clock : NextJS.Clock) :
  ∃ pc,
    Compact.patterns (Compact.run parse p pj now) = Some pc
    ∧ let n := NextJS.arch_patterns (NextJS.run parseJson parse p pj clock) in
      (Compact.p_typescript pc = true → n !! "typescript" = Some true)
      ∧ (Compact.p_tailwind pc = true → n !! "tailwind" = Some true)
      ∧ (Compact.p_styling pc = "styled-components" →
         n !! "styled-components" = Some true)
      ∧ (n !! "app-router" = Some true → Compact.p_router pc = "app")
      ∧ (n !! "pages-router" = Some true →
         Compact.p_router pc = "app" ∨ Compact.p_router pc = "pages").
Proof.
  set (gc := Compact.new pj now). set (gn := NextJS.new p pj clock).
  exists (Compact.patternFacts p gc). split.
  - unfold Compact.run, Compact.generate, Compact.detectPatterns. simpl. f_equal.
    apply patternFacts_manifest.
    exact (proj1 (analyzeLoop_frame parse p (Compact.sourceFiles p)
                    (Compact.analyzeProject p gc))).
  - intros n.
    assert (n = NextJS.patternFacts p gn) as ->.
    { unfold n, NextJS.run, NextJS.generate. simpl.
      by apply nextjs_patternFacts_manifest. }
    assert (∀ name, Compact.hasPackage gc name = true → NextJS.hasPackage gn name = true)
      as Hhas by (intros name; by apply (compact_has_nextjs_has pj)).
    unfold NextJS.patternFacts. simpl.
    repeat split.
    + intros Hts. rewrite !lookup_insert_ne by done. rewrite lookup_insert_eq. f_equal.
      unfold NextJS.detectTypeScript. by rewrite Hts.
    + intros Htw. rewrite !lookup_insert_ne by done. rewrite lookup_insert_eq. f_equal.
      unfold NextJS.detectTailwind. rewrite (Hhas _ Htw). by rewrite orb_true_r.
    + intros Hst. rewrite !lookup_insert_ne by done. rewrite lookup_insert_eq. f_equal.
      apply Hhas. unfold Compact.detectStyling in Hst.
      destruct (Compact.hasPackage gc "tailwindcss"); [done|].
      destruct (Compact.hasPackage gc "styled-components"); [done|].
      by repeat case_match.
    + rewrite !lookup_insert_ne by done. rewrite lookup_insert_eq. intros [= Happ].
      unfold NextJS.detectAppRouter in Happ. simpl in Happ.
      unfold Compact.detectRouter.
      destruct (NextJS.filesUnder p "app") as [files|] eqn:H1;
        [by rewrite (filesUnder_exists _ _ _ H1)|].
      destruct (NextJS.filesUnder p "src/app") as [files|] eqn:H2; [|done].
      rewrite (filesUnder_exists _ _ _ H2). by destruct (existsSync p "app").
    + rewrite lookup_insert_eq. intros [= Hpages].
      unfold NextJS.detectPagesRouter in Hpages. simpl in Hpages.
      unfold Compact.detectRouter.
      destruct (existsSync p "app"); [by left|].
      destruct (existsSync p "src/app"); [by left|]. right.
      destruct (NextJS.filesUnder p "pages") as [files|] eqn:H1;
        [by rewrite (filesUnder_exists _ _ _ H1)|].
      destruct (NextJS.filesUnder p "src/pages") as [files|] eqn:H2; [|done].
      rewrite (filesUnder_exists _ _ _ H2). by destruct (existsSync p "pages").
Qed.

(** ** A prior output file of another shape *)

Lemma spreadArray_lookup (xs : list JSON) (i : nat) :
  NextJS.spreadArray xs !! pretty i = xs !! i.
Proof.
  unfold NextJS.spreadArray.
  assert ((imap (fun i x => (pretty i, x)) xs).*1 = pretty <$> seq 0 (length xs)) as Hkeys.
  { rewrite fmap_imap. rewrite <- imap_seq_0. apply imap_ext. done. }
  destruct (xs !! i) as [x|] eqn:Hx.
  - apply elem_of_list_to_map_1.
    + rewrite Hkeys. apply NoDup_fmap_2; [apply _|apply NoDup_seq].
    + by apply (elem_of_lookup_imap_2 (fun i x => (pretty i, x)) xs x i).
  - apply not_elem_of_list_to_map_1. rewrite Hkeys.
    intros (j & Hj%(inj pretty) & Hin)%list_elem_of_fmap. subst j.
    apply elem_of_seq in Hin. apply lookup_ge_None in Hx. lia.
Qed.

(** X28. A prior output file of another shape.  When the output file of an
    earlier run parses to an object whose [level4] is an array, [saveIndex]
    takes the elements over under their decimal indices; when [level4] is
    missing or is a string, a number, a boolean or null, and when the file
    parses to something that is no object, nothing is taken over and the
    run keeps its own deep-detail map. *)
Theorem X28_prior_detail_of_other_shapes (parseJson : JsonParser) (p : Project)
    (g : NextJS.Generator) (n : string) (m : Z) (text : string) (j : JSON) :
  lookup_rel p "codebase-index.json" = Some (File n m (Some text)) →
  parseJson text = Some j →
  match j with
  | JObject prev =>
      match prev !! "level4" with
      | Some (JObject l4) => NextJS.previousLevel4 parseJson p = l4
      | Some (JArray xs) =>
          ∀ i, NextJS.previousLevel4 parseJson p !! pretty i = xs !! i
      | _ =>
          NextJS.level4 (NextJS.index (NextJS.saveIndex parseJson p g))
          = NextJS.level4 (NextJS.index g)
      end
  | _ =>
      NextJS.level4 (NextJS.index (NextJS.saveIndex parseJson p g))
      = NextJS.level4 (NextJS.index g)
  end.
Proof.
  intros Hfile Hparse.
  assert (NextJS.previousLevel4 parseJson p = ∅ →
          NextJS.level4 (NextJS.index (NextJS.saveIndex parseJson p g))
          = NextJS.level4 (NextJS.index g)) as Hnone.
  { intros H. simpl. rewrite H. apply (right_id_L ∅ (∪)). }
  unfold NextJS.previousLevel4 in *. rewrite Hfile, Hparse in *.
  destruct j as [| | | | |prev]; try (by apply Hnone).
  destruct (prev !! "level4") as [[| | | |xs|l4]|]; try (by apply Hnone); [|done].
  intros i. apply spreadArray_lookup.
Qed.

Lemma X28_prior_detail_of_other_shapes_witness :
  let p := {| projectPath := "/proj";
              root := Some [Samples.source "codebase-index.json" "[1]"] |} in
  let g := NextJS.new p Samples.noManifest Samples.clock in
  let parseJson : JsonParser :=
    fun text => if decide (text = "[1]") then Some (JArray [JNumber "1"]) else None in
  NextJS.level4 (NextJS.index (NextJS.saveIndex parseJson p g))
  = NextJS.level4 (NextJS.index g).
Proof.
  intros p g parseJson.
  exact (X28_prior_detail_of_other_shapes parseJson p g "codebase-index.json" 0 "[1]"
           (JArray [JNumber "1"]) eq_refl eq_refl).
Defined.
